(** * voicememocli: the capture/playback buffer and the recording state machine

    A shallow embedding of [src/main.c].  The C globals become the record
    [State]; every C function becomes a computation in a small monad that
    threads the globals and logs, in program order, what the function does
    to the outside world (SDL calls, output, accesses to the recording
    block).  SDL itself and the C library are not part of the repository:
    the answers of SDL are taken from a [Platform] record, and [strncmp],
    [strncpy], [strtol], [memcpy] and [calloc] are modelled after the C
    standard. *)

From Stdlib Require Import ZArith List String Ascii Bool Lia.
From Stdlib Require Import Numbers.DecimalString Numbers.DecimalPos.
Import ListNotations.
Open Scope string_scope.
Open Scope Z_scope.

(* ------------------------------------------------------------------ *)
(** ** Machine integers *)

(** Assignment to a [Uint32] object: the value modulo 2^32. *)
Definition to_Uint32 (z : Z) : Z := z mod 2 ^ 32.

(** Conversion to [int] (32 bits, two's complement), as gcc and clang
    define it for out-of-range values. *)
Definition to_int (z : Z) : Z := (z + 2 ^ 31) mod 2 ^ 32 - 2 ^ 31.

(** [long] is 64 bits wide (LP64). *)
Definition LONG_MAX : Z := 2 ^ 63 - 1.
Definition LONG_MIN : Z := - 2 ^ 63.

(** Decimal rendering of an integer, the [%d] of printf. *)
Definition string_of_Z (z : Z) : string := NilZero.string_of_int (Z.to_int z).

Definition nl : string := String (ascii_of_nat 10) EmptyString.

(* ------------------------------------------------------------------ *)
(** ** Data of the program *)

Inductive CmdType := CMDTYPE_SHOW | CMDTYPE_LISTEN | CMDTYPE_RECORD | CMDTYPE_HELP.

Record ArgCmdRecord := mkArgCmdRecord {
  key : string;      (* char key[5]: at most 4 characters and the terminator *)
  device : Z         (* int *)
}.

Definition MAX_RECORDING_DEVICES : Z := 5.
Definition MAX_RECORDING_SECONDS : Z := 5.
Definition RECORDING_BUFFER_SECONDS : Z := MAX_RECORDING_SECONDS + 1.

Inductive RecordingState :=
  SELECTING_DEVICE | STOPPED | RECORDING | RECORDED | PLAYBACK | ERROR.

Definition RecordingState_eqb (a b : RecordingState) : bool :=
  match a, b with
  | SELECTING_DEVICE, SELECTING_DEVICE | STOPPED, STOPPED
  | RECORDING, RECORDING | RECORDED, RECORDED
  | PLAYBACK, PLAYBACK | ERROR, ERROR => true
  | _, _ => false
  end.

(** The callback stored in an audio spec. *)
Inductive Callback := no_callback | recording_cb | playback_cb.

(** The fields of [SDL_AudioSpec] the program reads or writes. *)
Record SDL_AudioSpec := mkSpec {
  freq : Z;          (* int *)
  format : Z;        (* SDL_AudioFormat, Uint16 *)
  channels : Z;      (* Uint8 *)
  samples : Z;       (* Uint16 *)
  callback : Callback
}.

(** [SDL_zero]. *)
Definition zero_spec : SDL_AudioSpec := mkSpec 0 0 0 0 no_callback.

(** From SDL_audio.h: [AUDIO_F32] is [AUDIO_F32LSB], 0x8120, and
    [SDL_AUDIO_BITSIZE(x)] is [x & SDL_AUDIO_MASK_BITSIZE] with mask 0xFF. *)
Definition AUDIO_F32 : Z := 0x8120.
Definition SDL_AUDIO_BITSIZE (x : Z) : Z := Z.land x 0xFF.

(** The globals of main.c.  [recording_buffer] is the block the pointer
    refers to; the null pointer is the empty block.  An entry [None] of
    [available_device_names] is a slot of the malloc'ed array that was
    never assigned. *)
Record State := mkState {
  available_device_names : list (option string);
  available_recording_device_count : Z;
  received_recording_spec : SDL_AudioSpec;
  received_playback_spec : SDL_AudioSpec;
  recording_buffer : list Byte.byte;
  buffer_byte_size : Z;
  buffer_byte_position : Z;
  buffer_byte_max_position : Z;
  recording_state : RecordingState;
  recording_deviceid : Z;
  playback_deviceid : Z
}.

(** The globals as their initialisers leave them. *)
Definition initial_state : State :=
  mkState [] 0 zero_spec zero_spec [] 0 0 0 SELECTING_DEVICE 0 0.

Definition set_available_device_names v (s : State) : State :=
  mkState v (available_recording_device_count s) (received_recording_spec s)
    (received_playback_spec s) (recording_buffer s) (buffer_byte_size s)
    (buffer_byte_position s) (buffer_byte_max_position s) (recording_state s)
    (recording_deviceid s) (playback_deviceid s).

Definition set_available_recording_device_count v (s : State) : State :=
  mkState (available_device_names s) v (received_recording_spec s)
    (received_playback_spec s) (recording_buffer s) (buffer_byte_size s)
    (buffer_byte_position s) (buffer_byte_max_position s) (recording_state s)
    (recording_deviceid s) (playback_deviceid s).

Definition set_received_recording_spec v (s : State) : State :=
  mkState (available_device_names s) (available_recording_device_count s) v
    (received_playback_spec s) (recording_buffer s) (buffer_byte_size s)
    (buffer_byte_position s) (buffer_byte_max_position s) (recording_state s)
    (recording_deviceid s) (playback_deviceid s).

Definition set_received_playback_spec v (s : State) : State :=
  mkState (available_device_names s) (available_recording_device_count s)
    (received_recording_spec s) v (recording_buffer s) (buffer_byte_size s)
    (buffer_byte_position s) (buffer_byte_max_position s) (recording_state s)
    (recording_deviceid s) (playback_deviceid s).

Definition set_recording_buffer v (s : State) : State :=
  mkState (available_device_names s) (available_recording_device_count s)
    (received_recording_spec s) (received_playback_spec s) v (buffer_byte_size s)
    (buffer_byte_position s) (buffer_byte_max_position s) (recording_state s)
    (recording_deviceid s) (playback_deviceid s).

Definition set_buffer_byte_size v (s : State) : State :=
  mkState (available_device_names s) (available_recording_device_count s)
    (received_recording_spec s) (received_playback_spec s) (recording_buffer s) v
    (buffer_byte_position s) (buffer_byte_max_position s) (recording_state s)
    (recording_deviceid s) (playback_deviceid s).

Definition set_buffer_byte_position v (s : State) : State :=
  mkState (available_device_names s) (available_recording_device_count s)
    (received_recording_spec s) (received_playback_spec s) (recording_buffer s)
    (buffer_byte_size s) v (buffer_byte_max_position s) (recording_state s)
    (recording_deviceid s) (playback_deviceid s).

Definition set_buffer_byte_max_position v (s : State) : State :=
  mkState (available_device_names s) (available_recording_device_count s)
    (received_recording_spec s) (received_playback_spec s) (recording_buffer s)
    (buffer_byte_size s) (buffer_byte_position s) v (recording_state s)
    (recording_deviceid s) (playback_deviceid s).

Definition set_recording_state v (s : State) : State :=
  mkState (available_device_names s) (available_recording_device_count s)
    (received_recording_spec s) (received_playback_spec s) (recording_buffer s)
    (buffer_byte_size s) (buffer_byte_position s) (buffer_byte_max_position s) v
    (recording_deviceid s) (playback_deviceid s).

Definition set_recording_deviceid v (s : State) : State :=
  mkState (available_device_names s) (available_recording_device_count s)
    (received_recording_spec s) (received_playback_spec s) (recording_buffer s)
    (buffer_byte_size s) (buffer_byte_position s) (buffer_byte_max_position s)
    (recording_state s) v (playback_deviceid s).

Definition set_playback_deviceid v (s : State) : State :=
  mkState (available_device_names s) (available_recording_device_count s)
    (received_recording_spec s) (received_playback_spec s) (recording_buffer s)
    (buffer_byte_size s) (buffer_byte_position s) (buffer_byte_max_position s)
    (recording_state s) (recording_deviceid s) v.

(* ------------------------------------------------------------------ *)
(** ** The outside world *)

(** What SDL answers.  [SDL_OpenAudioDevice name iscapture desired] gives
    the device id (0 on failure) and the spec SDL stores in [obtained]. *)
Record Platform := mkPlatform {
  SDL_Init : Z;
  SDL_GetNumAudioDevices : Z;
  SDL_GetAudioDeviceName : Z -> option string;
  SDL_OpenAudioDevice : option string -> bool -> SDL_AudioSpec -> Z * SDL_AudioSpec;
  SDL_GetError : string
}.

(** What the program does to the outside world, and its accesses to the
    shared recording block and cursor, in program order. *)
Inductive Event :=
| EvPrint (msg : string)                          (* fprintf(stdout, ...) *)
| EvPerror (msg : string)                         (* fprintf(stderr, ...) *)
| EvUndefined (what : string)                     (* behaviour C leaves undefined *)
| EvOpen (name : option string) (iscapture : bool)(* SDL_OpenAudioDevice *)
| EvLock (dev : Z)                                (* SDL_LockAudioDevice *)
| EvUnlock (dev : Z)                              (* SDL_UnlockAudioDevice *)
| EvPause (dev : Z) (pause_on : bool)             (* SDL_PauseAudioDevice *)
| EvCompare (position max_position : Z)           (* the test position > max *)
| EvStore (offset len : Z)                        (* memcpy into the block *)
| EvLoad (offset len : Z)                         (* memcpy out of the block *)
| EvStream (bytes : list (option Byte.byte))      (* a stream handed back to SDL *)
| EvQuit.                                         (* SDL_Quit *)

(* ------------------------------------------------------------------ *)
(** ** The monad: globals threaded, events logged *)

Definition M (A : Type) : Type := State -> A * State * list Event.

Definition ret {A} (a : A) : M A := fun s => (a, s, []).

Definition bind {A B} (m : M A) (f : A -> M B) : M B :=
  fun s =>
    let '(a, s1, e1) := m s in
    let '(b, s2, e2) := f a s1 in
    (b, s2, (e1 ++ e2)%list).

Declare Scope m_scope.
Delimit Scope m_scope with m.
Notation "x <- c ;; k" := (bind c (fun x => k))
  (at level 61, c at next level, right associativity) : m_scope.
Notation "c ;; k" := (bind c (fun _ => k))
  (at level 61, right associativity) : m_scope.
Open Scope m_scope.

Definition get {A} (f : State -> A) : M A := fun s => (f s, s, []).
Definition put (f : State -> State) : M unit := fun s => (tt, f s, []).
Definition emit (e : Event) : M unit := fun s => (tt, s, [e]).

Definition value {A} (r : A * State * list Event) : A := fst (fst r).
Definition globals {A} (r : A * State * list Event) : State := snd (fst r).
Definition events {A} (r : A * State * list Event) : list Event := snd r.

Definition PRINT (msg : string) : M unit := emit (EvPrint msg).
Definition PERROR (msg : string) : M unit := emit (EvPerror msg).

(** [for (int i = lo; i < lo + n; i++) body(i)]. *)
Fixpoint for_loop (n : nat) (lo : Z) (body : Z -> M unit) : M unit :=
  match n with
  | O => ret tt
  | S n' => body lo ;; for_loop n' (lo + 1) body
  end.

(* ------------------------------------------------------------------ *)
(** ** The C library, as the program uses it *)

(** [strncmp(a, b, n) == 0]: the first [n] characters agree (a string
    shorter than [n] has to agree up to its end). *)
Definition strncmp_eq (a b : string) (n : nat) : bool :=
  String.eqb (substring 0 n a) (substring 0 n b).

(** [strncpy(dst, src, n)] into a zeroed array of [n + 1] characters. *)
Definition strncpy (src : string) (n : nat) : string := substring 0 n src.

Definition isspace (c : ascii) : bool :=
  let n := nat_of_ascii c in
  (Nat.eqb n 32 || (Nat.leb 9 n && Nat.leb n 13))%bool.

Definition digit_value (c : ascii) : option Z :=
  let n := nat_of_ascii c in
  if (Nat.leb 48 n && Nat.leb n 57)%bool then Some (Z.of_nat n - 48) else None.

Fixpoint skip_spaces (s : string) : string :=
  match s with
  | String c s' => if isspace c then skip_spaces s' else s
  | EmptyString => s
  end.

(** The sign of the subject sequence and what follows it. *)
Definition take_sign (s : string) : bool * string :=
  match s with
  | String "-"%char s' => (true, s')
  | String "+"%char s' => (false, s')
  | _ => (false, s)
  end.

Fixpoint digits_value (s : string) (acc : Z) : Z :=
  match s with
  | String c s' =>
      match digit_value c with
      | Some d => digits_value s' (10 * acc + d)
      | None => acc
      end
  | EmptyString => acc
  end.

Definition starts_with_digit (s : string) : bool :=
  match s with
  | String c _ => match digit_value c with Some _ => true | None => false end
  | EmptyString => false
  end.

(** Whether [strtol(s, NULL, 10)] finds a number to convert: optional
    white space, an optional sign, then at least one decimal digit. *)
Definition parseable (s : string) : bool :=
  starts_with_digit (snd (take_sign (skip_spaces s))).

(** [strtol(s, NULL, 10)]: 0 when no conversion can be performed, the
    value clamped to the range of [long] otherwise. *)
Definition strtol (s : string) : Z :=
  let '(neg, body) := take_sign (skip_spaces s) in
  if starts_with_digit body then
    let v := digits_value body 0 in
    Z.max LONG_MIN (Z.min LONG_MAX (if neg then - v else v))
  else 0.

(** [memcpy(&block[pos], src, len)], [len] the length of [src]: the bytes
    that land inside the block are stored; the others fall outside it. *)
Definition memcpy_to (block : list Byte.byte) (pos : nat) (src : list Byte.byte)
  : list Byte.byte :=
  (firstn pos block ++ firstn (List.length block - pos) src
     ++ skipn (pos + List.length src) block)%list.

(** [memcpy(stream, &block[pos], len)]: a byte fetched from outside the
    block is indeterminate, [None]. *)
Definition memcpy_from (block : list Byte.byte) (pos len : nat)
  : list (option Byte.byte) :=
  map (nth_error block) (seq pos len).

(** [calloc(1, size)]. *)
Definition calloc (size : Z) : list Byte.byte := repeat Byte.x00 (Z.to_nat size).

(** [memset(block, 0, size)] on a block of that size. *)
Definition memset_zero (block : list Byte.byte) : list Byte.byte :=
  repeat Byte.x00 (List.length block).

(* ------------------------------------------------------------------ *)
(** ** main.c *)

(** The body of the loop of lines 109-125: slot [i] of the array gets
    the display name of device [i], if SDL knows one. *)
Definition store_device_name (P : Platform) (i : Z) : M unit :=
  match SDL_GetAudioDeviceName P i with
  | Some device_name =>
      let temp_chrs :=
        substring 0 119 ("[" ++ string_of_Z i ++ "] : " ++ device_name) in
      names <- get available_device_names ;;
      put (set_available_device_names
             (firstn (Z.to_nat i) names ++ Some temp_chrs
                :: skipn (S (Z.to_nat i)) names)%list)
  | None => ret tt
  end.

(** [init], lines 85-129. *)
Definition init (P : Platform) : M bool :=
  put (set_available_recording_device_count (SDL_GetNumAudioDevices P)) ;;
  count <- get available_recording_device_count ;;
  if count <? 1 then
    PERROR ("[Error] Unable to get audio capture device! " ++ SDL_GetError P ++ nl) ;;
    ret false
  else
    (if MAX_RECORDING_DEVICES <? count
     then put (set_available_recording_device_count MAX_RECORDING_DEVICES)
     else ret tt) ;;
    count <- get available_recording_device_count ;;
    put (set_available_device_names (repeat None (Z.to_nat count))) ;;
    for_loop (Z.to_nat count) 0 (store_device_name P) ;;
    ret true.

(** The body of the loop of lines 136-143: slot [i] of the array is
    read and, when it is not null, handed to [free].  A slot [init]
    assigned holds a block of its own and is freed; a slot it never
    assigned holds whatever [malloc] left there, which is read and
    handed to [free].  (The null the loop stores in a freed slot is not
    read again: the array is freed right after the loop.) *)
Definition free_device_name (i : Z) : M unit :=
  names <- get available_device_names ;;
  match nth_error names (Z.to_nat i) with
  | Some (Some name) => ret tt
  | Some None => emit (EvUndefined "free of a pointer that was never assigned")
  | None => emit (EvUndefined "read past the end of the array of names")
  end.

(** [close], lines 131-151.  The null pointer is the empty table. *)
Definition close : M unit :=
  names <- get available_device_names ;;
  match names with
  | [] => ret tt
  | _ :: _ =>
      count <- get available_recording_device_count ;;
      for_loop (Z.to_nat count) 0 free_device_name ;;
      put (set_available_device_names [])
  end ;;
  emit EvQuit.

(** [print_all_available_device_names], lines 153-159. *)
Definition print_all_available_device_names : M unit :=
  count <- get available_recording_device_count ;;
  for_loop (Z.to_nat count) 0 (fun i =>
    names <- get available_device_names ;;
    match nth_error names (Z.to_nat i) with
    | Some (Some name) => PRINT (name ++ nl)
    | _ => emit (EvUndefined "printf of a pointer that was never assigned")
    end).

(** [print_help], lines 161-168. *)
Definition print_help : M unit :=
  PRINT ("Available commands" ++ nl) ;;
  PRINT (" show - show all recording devices along with its indexes" ++ nl) ;;
  PRINT (" listen <KEY> - listen to voice memo of specified key" ++ nl) ;;
  PRINT (" record <KEY> - record voice memo with specified key" ++ nl) ;;
  PRINT (" help - show this info" ++ nl).

(** [audio_recording_callback], lines 170-177.  SDL hands in a stream of
    [len] bytes: the list is the stream and its length is [len]. *)
Definition audio_recording_callback (stream : list Byte.byte) : M unit :=
  let len := Z.of_nat (List.length stream) in
  pos <- get buffer_byte_position ;;
  block <- get recording_buffer ;;
  emit (EvStore pos len) ;;
  put (set_recording_buffer (memcpy_to block (Z.to_nat pos) stream)) ;;
  put (set_buffer_byte_position (to_Uint32 (pos + len))).

(** [audio_playback_callback], lines 179-186.  [len] is the length of
    the stream SDL hands in, never negative; the result is the stream
    as the callback leaves it. *)
Definition audio_playback_callback (len : nat) : M (list (option Byte.byte)) :=
  pos <- get buffer_byte_position ;;
  block <- get recording_buffer ;;
  emit (EvLoad pos (Z.of_nat len)) ;;
  put (set_buffer_byte_position (to_Uint32 (pos + Z.of_nat len))) ;;
  ret (memcpy_from block (Z.to_nat pos) len).

(** The test of lines 194 and 213, [buffer_byte_position >
    buffer_byte_max_position]; the one cursor serves recording and
    playback. *)
Definition isRecordingComplete (s : State) : bool :=
  buffer_byte_max_position s <? buffer_byte_position s.
Definition isPlaybackComplete (s : State) : bool :=
  buffer_byte_max_position s <? buffer_byte_position s.

(** [update], lines 188-229.  [deltaTime] is never read and is left out. *)
Definition update : M unit :=
  st <- get recording_state ;;
  match st with
  | RECORDING =>
      pos <- get buffer_byte_position ;;
      max_pos <- get buffer_byte_max_position ;;
      emit (EvCompare pos max_pos) ;;
      complete <- get isRecordingComplete ;;
      if complete then
        dev <- get recording_deviceid ;;
        emit (EvLock dev) ;;
        emit (EvPause dev true) ;;
        PRINT ("Recorded successfully" ++ nl) ;;
        put (set_recording_state RECORDED) ;;
        emit (EvUnlock dev)
      else ret tt
  | PLAYBACK =>
      pos <- get buffer_byte_position ;;
      max_pos <- get buffer_byte_max_position ;;
      emit (EvCompare pos max_pos) ;;
      complete <- get isPlaybackComplete ;;
      if complete then
        dev <- get playback_deviceid ;;
        emit (EvLock dev) ;;
        emit (EvPause dev true) ;;
        PRINT ("Playback complete" ++ nl) ;;
        put (set_recording_state RECORDED) ;;
        emit (EvUnlock dev)
      else ret tt
  | _ => ret tt
  end.

(** What the [void* data] of [handle_command] points to. *)
Inductive CmdData :=
| NoData                               (* NULL *)
| KeyData (k : string)                 (* char* *)
| RecordData (param : ArgCmdRecord).   (* struct ArgCmdRecord* *)

(** The spec both devices are asked for, lines 263-269 and 284-290. *)
Definition desired_spec (cb : Callback) : SDL_AudioSpec :=
  mkSpec 44100 AUDIO_F32 2 4096 cb.

(** Lines 305-337: the buffer is sized from the spec the capture device
    was opened with, and recording starts.  The [int] products are exact
    as long as C defines them. *)
Definition size_buffer_and_record : M unit :=
  spec <- get received_recording_spec ;;
  let bytes_per_sample := channels spec * (SDL_AUDIO_BITSIZE (format spec) / 8) in
  let bytes_per_second := freq spec * bytes_per_sample in
  put (set_buffer_byte_size (to_Uint32 (RECORDING_BUFFER_SECONDS * bytes_per_second))) ;;
  put (set_buffer_byte_max_position (to_Uint32 (MAX_RECORDING_SECONDS * bytes_per_second))) ;;
  size <- get buffer_byte_size ;;
  put (set_recording_buffer (calloc size)) ;;
  PRINT ("buffer size = " ++ string_of_Z (to_int size) ++ nl) ;;
  put (set_recording_state STOPPED) ;;
  PRINT ("Device opened successfully" ++ nl) ;;
  put (set_buffer_byte_position 0) ;;
  dev <- get recording_deviceid ;;
  emit (EvPause dev false) ;;
  PRINT ("Recording..." ++ nl) ;;
  put (set_recording_state RECORDING).

(** The [CMDTYPE_RECORD] branch, lines 247-341.  Whatever SDL leaves in
    [obtained] is what the platform answers, also when the open fails. *)
Definition handle_record (P : Platform) (param : ArgCmdRecord) : M unit :=
  PRINT (": param key = " ++ key param ++ nl) ;;
  PRINT (": param device = " ++ string_of_Z (device param) ++ nl) ;;
  count <- get available_recording_device_count ;;
  if device param <? count then
    let name := SDL_GetAudioDeviceName P (device param) in
    emit (EvOpen name true) ;;
    let '(id, received) := SDL_OpenAudioDevice P name true (desired_spec recording_cb) in
    put (set_recording_deviceid id) ;;
    put (set_received_recording_spec received) ;;
    if id =? 0 then
      PERROR ("[Error] Failed to open audio device [" ++ string_of_Z (device param)
                ++ "]: " ++ SDL_GetError P ++ nl) ;;
      put (set_recording_state ERROR)
    else
      emit (EvOpen None false) ;;
      let '(pid, preceived) := SDL_OpenAudioDevice P None false (desired_spec playback_cb) in
      put (set_playback_deviceid pid) ;;
      put (set_received_playback_spec preceived) ;;
      if pid =? 0 then
        PERROR ("[Error] Failed to open playback device! " ++ SDL_GetError P ++ nl) ;;
        put (set_recording_state ERROR)
      else size_buffer_and_record
  else ret tt.

(** Lines 343-376: the key is the constant ['d'], so neither branch of
    the [RECORDED] case is taken. *)
Definition key_press : ascii := "d"%char.

Definition handle_key_press : M unit :=
  st <- get recording_state ;;
  match st with
  | RECORDED =>
      if Ascii.eqb key_press "1"%char then
        put (set_buffer_byte_position 0) ;;
        dev <- get playback_deviceid ;;
        emit (EvPause dev false) ;;
        PRINT ("Playing..." ++ nl) ;;
        put (set_recording_state PLAYBACK)
      else if Ascii.eqb key_press "2"%char then
        put (set_buffer_byte_position 0) ;;
        block <- get recording_buffer ;;
        put (set_recording_buffer (memset_zero block)) ;;
        dev <- get recording_deviceid ;;
        emit (EvPause dev false) ;;
        PRINT ("Recording..." ++ nl) ;;
        put (set_recording_state RECORDING)
      else ret tt
  | _ => ret tt
  end.

(** [handle_command], lines 231-377. *)
Definition handle_command (P : Platform) (cmd_type : CmdType) (data : CmdData) : M unit :=
  match cmd_type with
  | CMDTYPE_SHOW => print_all_available_device_names
  | CMDTYPE_HELP => print_help
  | CMDTYPE_LISTEN =>
      match data with
      | KeyData k => PRINT ("key = " ++ k ++ nl)
      | _ => emit (EvUndefined "data is not a key")
      end
  | CMDTYPE_RECORD =>
      match data with
      | RecordData param => handle_record P param
      | _ => emit (EvUndefined "data is not an ArgCmdRecord")
      end
  end ;;
  handle_key_press.

(** The two spellings of each flag of [record], as lines 454-455 and
    460-461 test them. *)
Definition is_key_flag (arg : string) : bool :=
  (strncmp_eq arg "-k" 2 || strncmp_eq arg "--key" 5)%bool.
Definition is_device_flag (arg : string) : bool :=
  (strncmp_eq arg "-d" 2 || strncmp_eq arg "--device" 8)%bool.

(** Lines 443-468 of [main]: the scan of [argv[2..4]] for the two flags.
    The result is the key, the device ([None] while the field is still
    unassigned) and [found_bitchecks]. *)
Definition parse_step (argv : list string) (acc : string * option Z * Z) (i : nat)
  : string * option Z * Z :=
  let '(k, d, found_bitchecks) := acc in
  let arg := nth i argv "" in
  let next := nth (S i) argv "" in
  if is_key_flag arg then
    (strncpy next 4, d, Z.lor found_bitchecks 1)
  else if is_device_flag arg then
    (k, Some (to_int (strtol next)), Z.lor found_bitchecks 2)
  else acc.

Definition parse_record_args (argv : list string) : string * option Z * Z :=
  fold_left (parse_step argv) [2; 3; 4]%nat ("", None, 0).

(** What the audio threads do while [main] polls: for every turn of a
    polling loop, the streams SDL delivers to the capture callback
    (resp. the lengths it asks of the playback callback) before that
    turn's call of [update]. *)
Record Schedule := mkSchedule {
  captured : list (list (list Byte.byte));
  requested : list (list nat)
}.

Fixpoint deliver (chunks : list (list Byte.byte)) : M unit :=
  match chunks with
  | [] => ret tt
  | stream :: rest => audio_recording_callback stream ;; deliver rest
  end.

Fixpoint consume (lens : list nat) : M (list (option Byte.byte)) :=
  match lens with
  | [] => ret []
  | len :: rest =>
      stream <- audio_playback_callback len ;;
      more <- consume rest ;;
      ret (stream ++ more)%list
  end.

(** The loop of lines 487-494; [false] when the schedule ends with the
    loop still turning. *)
Fixpoint recording_loop (turns : list (list (list Byte.byte))) : M bool :=
  match turns with
  | [] => ret false
  | chunks :: rest =>
      deliver chunks ;;
      update ;;
      st <- get recording_state ;;
      if RecordingState_eqb st RECORDED then ret true else recording_loop rest
  end.

(** The loop of lines 506-513. *)
Fixpoint playback_loop (turns : list (list nat)) : M bool :=
  match turns with
  | [] => ret false
  | lens :: rest =>
      stream <- consume lens ;;
      emit (EvStream stream) ;;
      update ;;
      st <- get recording_state ;;
      if RecordingState_eqb st RECORDED then ret true else playback_loop rest
  end.

(** Lines 496-505: the cursor goes back to 0 and playback starts. *)
Definition begin_playback : M unit :=
  put (set_buffer_byte_position 0) ;;
  dev <- get playback_deviceid ;;
  emit (EvPause dev false) ;;
  PRINT ("Playing..." ++ nl) ;;
  put (set_recording_state PLAYBACK).

Definition record_usage : M unit :=
  PERROR ("Not enough arguments" ++ nl) ;;
  PERROR ("Usage voicememo record -k|--key <KEY> -d|--device <INDEX>" ++ nl) ;;
  PERROR nl ;;
  PERROR ("Record voice memo with KEY by using INDEX recording device" ++ nl) ;;
  PERROR ("KEY will only be accepted up to 4 characters" ++ nl).

(** Lines 481-521 of [main]: the two polling loops, or the early exit.
    The result is the exit code, or [None] when a polling loop outlives
    the schedule. *)
Definition record_and_play (sched : Schedule) : M (option Z) :=
  st <- get recording_state ;;
  if RecordingState_eqb st RECORDING then
    recorded <- recording_loop (captured sched) ;;
    if recorded then
      begin_playback ;;
      played <- playback_loop (requested sched) ;;
      if played then close ;; ret (Some 0) else ret None
    else ret None
  else
    close ;; ret (Some (-1)).

(** The [record] branch of [main], lines 427-523. *)
Definition main_record (P : Platform) (argv : list string) (sched : Schedule)
  : M (option Z) :=
  if (Z.of_nat (List.length argv) <? 6) then
    record_usage ;; close ;; ret (Some (-1))
  else
    let '(k, d, found_bitchecks) := parse_record_args argv in
    if negb (Z.land found_bitchecks 3 =? 3) then
      record_usage ;; close ;; ret (Some (-1))
    else
      match d with
      | None => emit (EvUndefined "device is read before it is assigned") ;; ret None
      | Some dev =>
          handle_command P CMDTYPE_RECORD (RecordData (mkArgCmdRecord k dev)) ;;
          record_and_play sched
      end.

(** [main] from line 390 on, [ok] being the result of [init]. *)
Definition main_after_init (P : Platform) (argv : list string) (sched : Schedule)
  (ok : bool) : M (option Z) :=
  let argc := Z.of_nat (List.length argv) in
  if negb ok then
    PERROR ("[Error] Failed to init" ++ nl) ;;
    close ;; ret (Some 0)
  else if argc <? 2 then
    PERROR ("Usage voicememo <command> [options]" ++ nl) ;;
    PERROR ("Try voicememo help" ++ nl) ;;
    close ;; ret (Some (-1))
  else
    let cmd := nth 1 argv "" in
    if strncmp_eq cmd "show" 4 then
      handle_command P CMDTYPE_SHOW NoData ;; close ;; ret (Some 0)
    else if strncmp_eq cmd "listen" 6 then
      if argc <? 3 then
        PERROR ("Not enough arguments" ++ nl) ;;
        PERROR ("Usage voicememo listen <KEY>" ++ nl) ;;
        close ;; ret (Some (-1))
      else
        handle_command P CMDTYPE_LISTEN (KeyData (nth 2 argv "")) ;;
        close ;; ret (Some 0)
    else if strncmp_eq cmd "record" 6 then
      main_record P argv sched
    else if strncmp_eq cmd "help" 4 then
      handle_command P CMDTYPE_HELP NoData ;; close ;; ret (Some 0)
    else
      PERROR ("[Error] Unrecognized command" ++ nl) ;;
      close ;; ret (Some (-1)).

(** [main], lines 379-539.  ([putenv] has no part in what follows.) *)
Definition main (P : Platform) (argv : list string) (sched : Schedule) : M (option Z) :=
  if SDL_Init P <? 0 then
    PERROR ("[Error] Failed to init: " ++ SDL_GetError P ++ nl) ;;
    ret (Some (-1))
  else
    ok <- init P ;;
    main_after_init P argv sched ok.

(** Two platforms that differ at most in the capture devices of index 5
    and above. *)
Definition same_below_cap (P P' : Platform) : Prop :=
  SDL_Init P = SDL_Init P' /\
  SDL_GetNumAudioDevices P = SDL_GetNumAudioDevices P' /\
  (forall i, i < MAX_RECORDING_DEVICES ->
     SDL_GetAudioDeviceName P i = SDL_GetAudioDeviceName P' i) /\
  (forall name iscapture desired,
     SDL_OpenAudioDevice P name iscapture desired
     = SDL_OpenAudioDevice P' name iscapture desired) /\
  SDL_GetError P = SDL_GetError P'.

(* ------------------------------------------------------------------ *)
(** ** Properties read off the specification, where they differ from
       main.c *)

(** The offset the capture callback stores at (line 173) and the offset
    the playback callback loads from (line 182). *)
Definition writePosition (s : State) : Z := buffer_byte_position s.
Definition readPosition (s : State) : Z := buffer_byte_position s.

Definition total (chunks : list (list Byte.byte)) : Z :=
  Z.of_nat (List.length (List.concat chunks)).

Definition sum_lens (lens : list nat) : nat := fold_right Nat.add 0%nat lens.

(** The block is the allocation [buffer_byte_size] speaks of, and the
    cursor is a [Uint32] inside it. *)
Definition buffer_ok (s : State) : Prop :=
  Z.of_nat (List.length (recording_buffer s)) = buffer_byte_size s /\
  0 <= buffer_byte_position s /\
  buffer_byte_size s < 2 ^ 32.

(** The stores of a run of capture callbacks that starts at [pos]. *)
Fixpoint stores (pos : Z) (chunks : list (list Byte.byte)) : list Event :=
  match chunks with
  | [] => []
  | c :: rest =>
      EvStore pos (Z.of_nat (List.length c))
        :: stores (pos + Z.of_nat (List.length c)) rest
  end.

(** An access to the block that stays inside [size] bytes. *)
Definition inside (size : Z) (e : Event) : Prop :=
  match e with
  | EvStore offset len | EvLoad offset len => 0 <= offset /\ offset + len <= size
  | _ => True
  end.

(** Following the spec's words: the capture callback as section 4.2
    wants it, copying [min(len(chunk), capacityBytes - writePosition)]
    bytes and advancing the cursor by the copied length. *)
Definition appendFromCapture_clamped (s : State) (stream : list Byte.byte) : Prop :=
  let r := audio_recording_callback stream s in
  let copied := Z.min (Z.of_nat (List.length stream))
                      (buffer_byte_size s - writePosition s) in
  events r = [EvStore (writePosition s) copied] /\
  writePosition (globals r) = writePosition s + copied /\
  writePosition (globals r) <= buffer_byte_size (globals r).

(** Following the spec's words: the playback callback as section 4.2
    wants it, with the remainder of the stream zero-filled. *)
Definition fillForPlayback_clamped (s : State) (len : nat) : Prop :=
  let r := audio_playback_callback len s in
  let copied := Z.min (Z.of_nat len) (buffer_byte_size s - readPosition s) in
  events r = [EvLoad (readPosition s) copied] /\
  value r = (map Some (firstn (Z.to_nat copied)
                         (skipn (Z.to_nat (readPosition s)) (recording_buffer s)))
               ++ repeat (Some Byte.x00) (len - Z.to_nat copied))%list /\
  readPosition (globals r) = readPosition s + copied.

(** Following the spec's words: the round trip of section 4.2.  A
    recording pass appends [chunks] from a cursor at 0, the cursor is
    reset, and a playback pass asking in all for as many bytes as were
    appended is handed those bytes, bit for bit and in order. *)
Definition round_trip_identical (s : State) (chunks : list (list Byte.byte))
  (lens : list nat) : Prop :=
  let recorded := globals (deliver chunks s) in
  let rewound := globals (begin_playback recorded) in
  value (consume lens rewound) = map Some (List.concat chunks).

(** Whether a trace tests the completion condition between taking a
    device lock and pausing that device. *)
Fixpoint rechecks_under_lock (locked : bool) (checked : bool) (evs : list Event) : bool :=
  match evs with
  | [] => false
  | EvLock _ :: rest => rechecks_under_lock true false rest
  | EvUnlock _ :: rest => rechecks_under_lock false false rest
  | EvCompare _ _ :: rest => rechecks_under_lock locked locked rest
  | EvPause _ true :: rest =>
      if (locked && checked)%bool then true else rechecks_under_lock locked checked rest
  | _ :: rest => rechecks_under_lock locked checked rest
  end.

(* ------------------------------------------------------------------ *)
(** ** Concrete platforms and states used in examples *)

(** Three capture devices; every open succeeds and grants what was asked. *)
Definition three_mics : Platform :=
  mkPlatform 0 3
    (fun i => if (0 <=? i) && (i <? 3) then Some "mic" else None)%bool
    (fun _ iscapture desired => (if iscapture then 2 else 3, desired))
    "".

(** The same, with a device that negotiates 1 Hz, 2 channels, 8 bits:
    2 bytes per second, so a block of 12 bytes of which 10 are usable. *)
Definition slow_mics : Platform :=
  mkPlatform 0 3
    (fun i => if (0 <=? i) && (i <? 3) then Some "mic" else None)%bool
    (fun _ iscapture desired =>
       (if iscapture then 2 else 3, mkSpec 1 8 2 4096 (callback desired)))
    "".

(** No capture device at all. *)
Definition no_mics : Platform :=
  mkPlatform 0 0 (fun _ => None) (fun _ _ desired => (0, desired)) "".

(** Seven capture devices, the last two named as the caller likes. *)
Definition seven_mics (label : string) : Platform :=
  mkPlatform 0 7
    (fun i => if i <? 0 then None else if i <? 5 then Some "mic"
              else if i <? 7 then Some label else None)
    (fun _ iscapture desired => (if iscapture then 2 else 3, desired))
    "".

(** [voicememo record -k AB -d <index>]. *)
Definition record_argv (index : string) : list string :=
  ["voicememo"; "record"; "-k"; "AB"; "-d"; index].

Definition silence : Schedule := mkSchedule [] [].

(** The capture thread delivers seven chunks of 2 bytes before the
    first call of [update]. *)
Definition late_update : Schedule :=
  mkSchedule [repeat [Byte.x01; Byte.x02] 7] [].

(** The same, and the playback thread then asks for the 14 bytes in
    one request. *)
Definition late_update_played : Schedule :=
  mkSchedule [repeat [Byte.x01; Byte.x02] 7] [[14%nat]].

Definition twelve : list Byte.byte :=
  [Byte.x01; Byte.x02; Byte.x03; Byte.x04; Byte.x05; Byte.x06;
   Byte.x07; Byte.x08; Byte.x09; Byte.x0a; Byte.x0b; Byte.x0c].

(** Recording (resp. playing) on the 12-byte block, cursor at 8. *)
Definition recording_at_8 : State :=
  mkState [] 3 (mkSpec 1 8 2 4096 recording_cb) (mkSpec 1 8 2 4096 playback_cb)
    twelve 12 8 10 RECORDING 2 3.
Definition playing_at_8 : State := set_recording_state PLAYBACK recording_at_8.

(** Past the usable part: cursor at 11. *)
Definition recording_at_11 : State := set_buffer_byte_position 11 recording_at_8.
Definition playing_at_11 : State := set_buffer_byte_position 11 playing_at_8.

Definition eight : list Byte.byte :=
  [Byte.x11; Byte.x12; Byte.x13; Byte.x14; Byte.x15; Byte.x16; Byte.x17; Byte.x18].

(* ------------------------------------------------------------------ *)
(** ** Vocabulary for the properties of the whole program *)

(** What [init] stores for device [i]: the text of line 118, cut to the
    119 characters [temp_chrs] holds, or nothing when SDL has no name. *)
Definition display_name (P : Platform) (i : Z) : option string :=
  option_map
    (fun device_name => substring 0 119 ("[" ++ string_of_Z i ++ "] : " ++ device_name))
    (SDL_GetAudioDeviceName P i).

(** The table [init] builds for [count] devices. *)
Definition name_table (P : Platform) (count : nat) : list (option string) :=
  map (fun i => display_name P (Z.of_nat i)) (seq 0 count).

(** What line 157 does with entry [i] of the table. *)
Definition show_line (P : Platform) (i : nat) : Event :=
  match display_name P (Z.of_nat i) with
  | Some name => EvPrint (name ++ nl)
  | None => EvUndefined "printf of a pointer that was never assigned"
  end.

(** An argument the scan of lines 452-468 takes for the device flag:
    the key flag is tested first. *)
Definition counts_as_device_flag (arg : string) : bool :=
  (negb (is_key_flag arg) && is_device_flag arg)%bool.

(** What the scan of [argv[2..4]] comes to: the argument after the last
    key flag, cut to 4 characters; the number after the last device
    flag; and whether both flags were seen. *)
Definition scanned_key (argv : list string) : string :=
  if is_key_flag (nth 4 argv "") then strncpy (nth 5 argv "") 4
  else if is_key_flag (nth 3 argv "") then strncpy (nth 4 argv "") 4
  else if is_key_flag (nth 2 argv "") then strncpy (nth 3 argv "") 4
  else "".

Definition scanned_device (argv : list string) : option Z :=
  if counts_as_device_flag (nth 4 argv "") then Some (to_int (strtol (nth 5 argv "")))
  else if counts_as_device_flag (nth 3 argv "") then Some (to_int (strtol (nth 4 argv "")))
  else if counts_as_device_flag (nth 2 argv "") then Some (to_int (strtol (nth 3 argv "")))
  else None.

Definition record_args_complete (argv : list string) : bool :=
  ((6 <=? Z.of_nat (List.length argv))
   && (is_key_flag (nth 2 argv "") || is_key_flag (nth 3 argv "")
       || is_key_flag (nth 4 argv ""))
   && (counts_as_device_flag (nth 2 argv "") || counts_as_device_flag (nth 3 argv "")
       || counts_as_device_flag (nth 4 argv "")))%bool.

(** What [main] prints, on stderr, for a [record] it rejects. *)
Definition usage_of_record : list Event :=
  [EvPerror ("Not enough arguments" ++ nl);
   EvPerror ("Usage voicememo record -k|--key <KEY> -d|--device <INDEX>" ++ nl);
   EvPerror nl;
   EvPerror ("Record voice memo with KEY by using INDEX recording device" ++ nl);
   EvPerror ("KEY will only be accepted up to 4 characters" ++ nl)].

(** A polling loop, seen from the byte counts of its turns: whether
    the cursor gets past [max_pos], and after how many turns. *)
Fixpoint crosses (max_pos pos : Z) (sizes : list Z) : bool :=
  match sizes with
  | [] => false
  | n :: rest => if max_pos <? pos + n then true else crosses max_pos (pos + n) rest
  end.

Fixpoint turns_taken (max_pos pos : Z) (sizes : list Z) : nat :=
  match sizes with
  | [] => 0%nat
  | n :: rest => if max_pos <? pos + n then 1%nat else S (turns_taken max_pos (pos + n) rest)
  end.

(** The bytes a trace hands back to SDL, in order. *)
Fixpoint streamed (evs : list Event) : list (option Byte.byte) :=
  match evs with
  | [] => []
  | EvStream bytes :: rest => (bytes ++ streamed rest)%list
  | _ :: rest => streamed rest
  end.

(** What lines 138-142 do with slot [i] of a table: the free of a block
    of its own when the slot was assigned, the free of an indeterminate
    pointer when it was not. *)
Definition free_of_slot (names : list (option string)) (i : nat) : list Event :=
  match nth_error names i with
  | Some (Some _) => []
  | Some None => [EvUndefined "free of a pointer that was never assigned"]
  | None => [EvUndefined "read past the end of the array of names"]
  end.

(** What [close] does before [SDL_Quit], from the globals it finds. *)
Definition frees_of (s : State) : list Event :=
  match available_device_names s with
  | [] => []
  | names =>
      flat_map (free_of_slot names)
        (seq 0 (Z.to_nat (available_recording_device_count s)))
  end.

(** The same for the table [init] built: one free of an indeterminate
    pointer for every enumerated device SDL has no name for. *)
Definition free_line (P : Platform) (i : nat) : list Event :=
  match SDL_GetAudioDeviceName P (Z.of_nat i) with
  | Some _ => []
  | None => [EvUndefined "free of a pointer that was never assigned"]
  end.

Definition frees (P : Platform) (count : nat) : list Event :=
  flat_map (free_line P) (seq 0 count).

(** A computation that never calls [SDL_Quit]. *)
Definition quiet {A} (m : M A) : Prop :=
  forall s, ~ In EvQuit (events (m s)).

(** A computation that, whenever it returns an exit code, has called
    [SDL_Quit] exactly once, as the last thing it did, with the table of
    names released, and returns 0 or -1. *)
Definition closes (m : M (option Z)) : Prop :=
  forall s code,
    value (m s) = Some code ->
    (exists before,
       events (m s) = (before ++ [EvQuit])%list /\ ~ In EvQuit before) /\
    available_device_names (globals (m s)) = [] /\
    (code = 0 \/ code = -1).

(** The device that is streaming after a trace, if any, given the one
    that was before it: [SDL_PauseAudioDevice(dev, 0)] starts device
    [dev], and [SDL_PauseAudioDevice(dev, 1)] stops device [dev] and no
    other.  [None] when a device is started while one is streaming. *)
Fixpoint streaming_after (now : option Z) (evs : list Event) : option (option Z) :=
  match evs with
  | [] => Some now
  | EvPause dev false :: rest =>
      match now with
      | Some _ => None
      | None => streaming_after (Some dev) rest
      end
  | EvPause dev true :: rest =>
      match now with
      | Some d => if d =? dev then streaming_after None rest else streaming_after now rest
      | None => streaming_after None rest
      end
  | _ :: rest => streaming_after now rest
  end.

(** An event that starts and stops no device. *)
Definition pauses_nothing (e : Event) : Prop :=
  match e with
  | EvPause _ _ => False
  | _ => True
  end.

(** A computation that, run while no device streams, never starts a
    device while one streams; that leaves none streaming when it returns
    an exit code; and that, when it stops with a device streaming, is
    recording from that device or playing on it. *)
Definition orderly (m : M (option Z)) : Prop :=
  forall s, exists now,
    streaming_after None (events (m s)) = Some now /\
    (value (m s) <> None -> now = None) /\
    (forall dev, now = Some dev ->
       (recording_state (globals (m s)) = RECORDING /\
        dev = recording_deviceid (globals (m s))) \/
       (recording_state (globals (m s)) = PLAYBACK /\
        dev = playback_deviceid (globals (m s)))).

(** A computation all of whose events satisfy [Q]. *)
Definition events_all (Q : Event -> Prop) {A} (m : M A) : Prop :=
  forall s, Forall Q (events (m s)).

(* ------------------------------------------------------------------ *)
(** ** The monad *)

Lemma events_bind {A B} (m : M A) (f : A -> M B) (s : State) :
  events (bind m f s) = (events (m s) ++ events (f (value (m s)) (globals (m s))))%list.
Proof.
  unfold bind, events, value, globals.
  destruct (m s) as [[a s1] e1]; simpl.
  destruct (f a s1) as [[b s2] e2]; reflexivity.
Qed.

Lemma globals_bind {A B} (m : M A) (f : A -> M B) (s : State) :
  globals (bind m f s) = globals (f (value (m s)) (globals (m s))).
Proof.
  unfold bind, value, globals.
  destruct (m s) as [[a s1] e1]; simpl.
  destruct (f a s1) as [[b s2] e2]; reflexivity.
Qed.

Lemma value_bind {A B} (m : M A) (f : A -> M B) (s : State) :
  value (bind m f s) = value (f (value (m s)) (globals (m s))).
Proof.
  unfold bind, value, globals.
  destruct (m s) as [[a s1] e1]; simpl.
  destruct (f a s1) as [[b s2] e2]; reflexivity.
Qed.

Lemma bind_run {A B} (m : M A) (f : A -> M B) (s : State) a s1 e1 :
  m s = (a, s1, e1) ->
  bind m f s = (value (f a s1), globals (f a s1), (e1 ++ events (f a s1))%list).
Proof.
  intros H. unfold bind, value, globals, events. rewrite H.
  destruct (f a s1) as [[b s2] e2]; reflexivity.
Qed.

Lemma run_eta {A} (r : A * State * list Event) :
  r = (value r, globals r, events r).
Proof. destruct r as [[a s] e]; reflexivity. Qed.

(* ------------------------------------------------------------------ *)
(** ** [close] *)

Lemma set_names_same (s : State) :
  available_device_names s = [] -> set_available_device_names [] s = s.
Proof. destruct s; cbn; intros ->; reflexivity. Qed.

Lemma for_loop_frees (n k : nat) (s : State) :
  for_loop n (Z.of_nat k) free_device_name s
  = (tt, s, flat_map (free_of_slot (available_device_names s)) (seq k n)).
Proof.
  revert k. induction n as [| n IH]; intros k; [reflexivity |].
  cbn [for_loop seq flat_map].
  assert (Hbody : free_device_name (Z.of_nat k) s
                  = (tt, s, free_of_slot (available_device_names s) k)).
  { unfold free_device_name, free_of_slot, bind, get. rewrite Nat2Z.id.
    destruct (nth_error (available_device_names s) k) as [[name |] |]; reflexivity. }
  rewrite (bind_run _ _ _ _ _ _ Hbody).
  replace (Z.of_nat k + 1) with (Z.of_nat (S k)) by lia.
  rewrite IH. reflexivity.
Qed.

(** [close] in one step: the table is gone, and [SDL_Quit] comes after
    the frees. *)
Lemma close_run (s : State) :
  close s = (tt, set_available_device_names [] s, (frees_of s ++ [EvQuit])%list).
Proof.
  unfold close, frees_of.
  destruct (available_device_names s) as [| name names] eqn:Hnames.
  - unfold bind, get, ret, emit. rewrite Hnames. cbn.
    rewrite (set_names_same s Hnames). reflexivity.
  - assert (Hloop : bind (get available_recording_device_count)
                      (fun count =>
                         bind (for_loop (Z.to_nat count) 0 free_device_name)
                           (fun _ => put (set_available_device_names []))) s
                    = (tt, set_available_device_names [] s,
                       flat_map (free_of_slot (name :: names))
                         (seq 0 (Z.to_nat (available_recording_device_count s))))).
    { unfold bind at 1. unfold get at 1.
      pose proof (for_loop_frees (Z.to_nat (available_recording_device_count s)) 0 s)
        as Hfrees.
      change (Z.of_nat 0) with 0 in Hfrees.
      rewrite (bind_run _ _ _ _ _ _ Hfrees), Hnames. cbn. rewrite app_nil_r. reflexivity. }
    unfold bind at 1. unfold get at 1. rewrite Hnames.
    rewrite (bind_run _ _ _ _ _ _ Hloop). reflexivity.
Qed.

Lemma close_then_ret (code : Z) (s : State) :
  bind close (fun _ => ret (Some code)) s
  = (Some code, set_available_device_names [] s, (frees_of s ++ [EvQuit])%list).
Proof.
  rewrite (bind_run _ _ _ _ _ _ (close_run s)). cbn [ret value globals events fst snd].
  rewrite app_nil_r. reflexivity.
Qed.

Lemma emit_then {A} (e : Event) (k : M A) (s : State) :
  bind (emit e) (fun _ => k) s = (value (k s), globals (k s), e :: events (k s)).
Proof. exact (bind_run (emit e) (fun _ => k) s tt s [e] eq_refl). Qed.

Lemma frees_of_undefined (s : State) :
  Forall (fun e => exists what, e = EvUndefined what) (frees_of s).
Proof.
  unfold frees_of. destruct (available_device_names s) as [| name names]; [constructor |].
  apply Forall_flat_map, Forall_forall. intros i _. unfold free_of_slot.
  destruct (nth_error (name :: names) i) as [[n |] |]; repeat constructor; eexists; reflexivity.
Qed.

Lemma frees_of_no_device (s : State) :
  available_recording_device_count s < 1 -> frees_of s = [].
Proof.
  intros Hcount. unfold frees_of.
  destruct (available_device_names s); [reflexivity |].
  replace (Z.to_nat (available_recording_device_count s)) with 0%nat by lia. reflexivity.
Qed.

Lemma in_frees (P : Platform) (count : nat) (e : Event) :
  In e (frees P count)
  <-> e = EvUndefined "free of a pointer that was never assigned" /\
      exists i, (i < count)%nat /\ SDL_GetAudioDeviceName P (Z.of_nat i) = None.
Proof.
  unfold frees. rewrite in_flat_map. split.
  - intros (i & Hi & Hin). apply in_seq in Hi. unfold free_line in Hin.
    destruct (SDL_GetAudioDeviceName P (Z.of_nat i)) eqn:Hname; [destruct Hin |].
    destruct Hin as [<- | []]. split; [reflexivity |].
    exists i. split; [lia | exact Hname].
  - intros (-> & i & Hi & Hname). exists i. split; [apply in_seq; lia |].
    unfold free_line. rewrite Hname. left; reflexivity.
Qed.

(** [close] frees no indeterminate pointer exactly when SDL names every
    enumerated device. *)
Lemma frees_empty_iff (P : Platform) (count : Z) :
  frees P (Z.to_nat count) = []
  <-> forall i, 0 <= i < count -> SDL_GetAudioDeviceName P i <> None.
Proof.
  split.
  - intros Hnil i Hi Hname.
    assert (Hin : In (EvUndefined "free of a pointer that was never assigned")
                     (frees P (Z.to_nat count))).
    { apply in_frees. split; [reflexivity |]. exists (Z.to_nat i).
      split; [lia |]. rewrite Z2Nat.id by lia. exact Hname. }
    rewrite Hnil in Hin. destruct Hin.
  - intros Hnamed. destruct (frees P (Z.to_nat count)) as [| e l] eqn:Hfrees; [reflexivity |].
    assert (Hin : In e (frees P (Z.to_nat count))) by (rewrite Hfrees; left; reflexivity).
    apply in_frees in Hin. destruct Hin as (_ & i & Hi & Hname).
    exfalso. apply (Hnamed (Z.of_nat i)); [lia | exact Hname].
Qed.

Lemma frees_of_name_table (P : Platform) (count : Z) (s : State) :
  frees_of (set_available_device_names (name_table P (Z.to_nat count))
              (set_available_recording_device_count count s))
  = frees P (Z.to_nat count).
Proof.
  unfold frees_of, frees.
  cbn [available_device_names available_recording_device_count
       set_available_device_names set_available_recording_device_count].
  destruct (name_table P (Z.to_nat count)) as [| name names] eqn:Htable.
  - unfold name_table in Htable. apply map_eq_nil in Htable.
    rewrite Htable. reflexivity.
  - rewrite <- Htable. rewrite !flat_map_concat_map. f_equal.
    apply map_ext_in. intros i Hi. apply in_seq in Hi.
    unfold free_of_slot, free_line, name_table.
    rewrite nth_error_map, nth_error_seq.
    assert (Hlt : (i <? Z.to_nat count)%nat = true) by (apply Nat.ltb_lt; lia).
    rewrite Hlt. cbn [option_map Nat.add]. unfold display_name.
    destruct (SDL_GetAudioDeviceName P (Z.of_nat i)); reflexivity.
Qed.

Lemma in_close_events (s : State) (e : Event) :
  In e (frees_of s ++ [EvQuit])%list -> (exists what, e = EvUndefined what) \/ e = EvQuit.
Proof.
  intros Hin. apply in_app_or in Hin. destruct Hin as [Hin | [Hin | []]].
  - left. pose proof (frees_of_undefined s) as Hfrees.
    rewrite Forall_forall in Hfrees. exact (Hfrees _ Hin).
  - right. symmetry. exact Hin.
Qed.

Lemma frees_of_inside (size : Z) (s : State) : Forall (inside size) (frees_of s).
Proof.
  apply Forall_forall. intros e Hin.
  pose proof (frees_of_undefined s) as Hfrees. rewrite Forall_forall in Hfrees.
  destruct (Hfrees e Hin) as [what ->]. exact I.
Qed.

(** [close] on the globals [init] leaves. *)
Lemma close_after_init (P : Platform) (count code : Z) (s : State) :
  bind close (fun _ => ret (Some code))
    (set_available_device_names (name_table P (Z.to_nat count))
       (set_available_recording_device_count count s))
  = (Some code,
     set_available_device_names [] (set_available_recording_device_count count s),
     (frees P (Z.to_nat count) ++ [EvQuit])%list).
Proof. rewrite close_then_ret, frees_of_name_table. reflexivity. Qed.

(* ------------------------------------------------------------------ *)
(** ** [update] *)

Lemma update_recording_complete (s : State) :
  recording_state s = RECORDING ->
  buffer_byte_max_position s < buffer_byte_position s ->
  update s =
    (tt, set_recording_state RECORDED s,
     [EvCompare (buffer_byte_position s) (buffer_byte_max_position s);
      EvLock (recording_deviceid s); EvPause (recording_deviceid s) true;
      EvPrint ("Recorded successfully" ++ nl); EvUnlock (recording_deviceid s)]).
Proof.
  intros Hst Hlt. apply Z.ltb_lt in Hlt.
  unfold update, bind, get, isRecordingComplete. rewrite Hst. cbn.
  rewrite Hlt. reflexivity.
Qed.

Lemma update_playback_complete (s : State) :
  recording_state s = PLAYBACK ->
  buffer_byte_max_position s < buffer_byte_position s ->
  update s =
    (tt, set_recording_state RECORDED s,
     [EvCompare (buffer_byte_position s) (buffer_byte_max_position s);
      EvLock (playback_deviceid s); EvPause (playback_deviceid s) true;
      EvPrint ("Playback complete" ++ nl); EvUnlock (playback_deviceid s)]).
Proof.
  intros Hst Hlt. apply Z.ltb_lt in Hlt.
  unfold update, bind, get, isPlaybackComplete. rewrite Hst. cbn.
  rewrite Hlt. reflexivity.
Qed.

Lemma update_pending (s : State) :
  recording_state s = RECORDING \/ recording_state s = PLAYBACK ->
  buffer_byte_position s <= buffer_byte_max_position s ->
  update s =
    (tt, s, [EvCompare (buffer_byte_position s) (buffer_byte_max_position s)]).
Proof.
  intros Hst Hle. apply Z.ltb_ge in Hle.
  unfold update, bind, get, isRecordingComplete, isPlaybackComplete.
  destruct Hst as [Hst | Hst]; rewrite Hst; cbn; rewrite Hle; reflexivity.
Qed.

Lemma update_idle (s : State) :
  recording_state s <> RECORDING -> recording_state s <> PLAYBACK ->
  update s = (tt, s, []).
Proof.
  intros Hr Hp. unfold update, bind, get.
  destruct (recording_state s); try reflexivity; congruence.
Qed.

(** The cursor after a run of capture callbacks: the [Uint32] sum. *)
Lemma deliver_position (chunks : list (list Byte.byte)) :
  forall s,
    to_Uint32 (buffer_byte_position s) = buffer_byte_position s ->
    buffer_byte_position (globals (deliver chunks s))
    = to_Uint32 (buffer_byte_position s + total chunks).
Proof.
  induction chunks as [| c rest IH]; intros s Hs.
  - cbn. rewrite Z.add_0_r. symmetry. exact Hs.
  - cbn [deliver]. rewrite globals_bind.
    rewrite IH.
    + cbn. unfold total. cbn [List.concat]. rewrite length_app, Nat2Z.inj_add.
      unfold to_Uint32. rewrite Z.add_mod_idemp_l by lia. f_equal. lia.
    + cbn. unfold to_Uint32. apply Z.mod_mod. lia.
Qed.

Lemma deliver_max_position (chunks : list (list Byte.byte)) :
  forall s,
    buffer_byte_max_position (globals (deliver chunks s)) = buffer_byte_max_position s.
Proof.
  induction chunks as [| c rest IH]; intros s; [reflexivity |].
  cbn [deliver]. rewrite globals_bind, IH. reflexivity.
Qed.

(** C3: the completion tests are [cursor > buffer_byte_max_position],
    for recording and for playback alike; [update] pauses a device and
    moves to [RECORDED] under exactly these conditions, pausing the
    device of the pass that was active; and counted from a cursor at 0,
    the test turns true exactly when more than
    [buffer_byte_max_position] bytes were delivered (byte counts in the
    range of the [Uint32] cursor). *)
Theorem update_completes_iff_cursor_past_max (s : State) :
  (isRecordingComplete s = true <-> buffer_byte_max_position s < writePosition s) /\
  (isPlaybackComplete s = true <-> buffer_byte_max_position s < readPosition s) /\
  ((exists dev, In (EvPause dev true) (events (update s)))
   <-> (recording_state s = RECORDING /\ isRecordingComplete s = true) \/
       (recording_state s = PLAYBACK /\ isPlaybackComplete s = true)) /\
  (globals (update s) = set_recording_state RECORDED s /\ globals (update s) <> s
   <-> (recording_state s = RECORDING /\ isRecordingComplete s = true) \/
       (recording_state s = PLAYBACK /\ isPlaybackComplete s = true)) /\
  (recording_state s = RECORDING -> isRecordingComplete s = true ->
     In (EvPause (recording_deviceid s) true) (events (update s))) /\
  (recording_state s = PLAYBACK -> isPlaybackComplete s = true ->
     In (EvPause (playback_deviceid s) true) (events (update s))) /\
  (forall chunks,
     buffer_byte_position s = 0 -> total chunks < 2 ^ 32 ->
     (isRecordingComplete (globals (deliver chunks s)) = true
      <-> buffer_byte_max_position s < total chunks)).
Proof.
  assert (Hiff : isRecordingComplete s = true
                 <-> buffer_byte_max_position s < buffer_byte_position s)
    by (unfold isRecordingComplete; apply Z.ltb_lt).
  assert (Hcases :
    (recording_state s = RECORDING \/ recording_state s = PLAYBACK) /\
      buffer_byte_max_position s < buffer_byte_position s
    \/ (recording_state s = RECORDING \/ recording_state s = PLAYBACK) /\
      buffer_byte_position s <= buffer_byte_max_position s
    \/ recording_state s <> RECORDING /\ recording_state s <> PLAYBACK).
  { destruct (recording_state s);
      destruct (Z.lt_ge_cases (buffer_byte_max_position s) (buffer_byte_position s));
      intuition congruence. }
  unfold isPlaybackComplete, writePosition, readPosition in *.
  fold (isRecordingComplete s).
  split; [exact Hiff |]. split; [exact Hiff |].
  split; [split |]. 3: split; [split |]. 5: split; [| split].
  - (* a pause only when complete *)
    intros [dev Hin].
    destruct Hcases as [[Hst Hlt] | [[Hst Hle] | [Hr Hp]]].
    + destruct Hst; [left | right]; split; auto; apply Hiff; exact Hlt.
    + rewrite update_pending in Hin by assumption. cbn in Hin.
      destruct Hin as [Hin | []]; discriminate.
    + rewrite update_idle in Hin by assumption. destruct Hin.
  - intros [[Hst Hc] | [Hst Hc]]; apply Hiff in Hc.
    + exists (recording_deviceid s).
      rewrite update_recording_complete by assumption. cbn; auto.
    + exists (playback_deviceid s).
      rewrite update_playback_complete by assumption. cbn; auto.
  - (* a transition only when complete *)
    intros [Hg Hne].
    destruct Hcases as [[Hst Hlt] | [[Hst Hle] | [Hr Hp]]].
    + destruct Hst; [left | right]; split; auto; apply Hiff; exact Hlt.
    + rewrite update_pending in Hne by assumption. cbn in Hne. congruence.
    + rewrite update_idle in Hne by assumption. cbn in Hne. congruence.
  - intros [[Hst Hc] | [Hst Hc]]; apply Hiff in Hc.
    + rewrite update_recording_complete by assumption. cbn. split; [reflexivity |].
      intros Heq. apply (f_equal recording_state) in Heq. cbn in Heq. congruence.
    + rewrite update_playback_complete by assumption. cbn. split; [reflexivity |].
      intros Heq. apply (f_equal recording_state) in Heq. cbn in Heq. congruence.
  - intros Hst Hc. apply Hiff in Hc.
    rewrite update_recording_complete by assumption. cbn; auto.
  - intros Hst Hc. apply Hiff in Hc.
    rewrite update_playback_complete by assumption. cbn; auto.
  - intros chunks H0 Hrange.
    unfold isRecordingComplete. rewrite Z.ltb_lt.
    rewrite deliver_max_position, deliver_position
      by (rewrite H0; reflexivity).
    rewrite H0, Z.add_0_l. unfold to_Uint32.
    rewrite Z.mod_small; [reflexivity |].
    split; [unfold total; lia | assumption].
Qed.

(** C3, at a concrete input: three chunks of 4, 4 and 3 bytes delivered
    to the 12-byte block with 10 usable bytes. *)
Lemma update_completes_iff_cursor_past_max_witness :
  isRecordingComplete
    (globals (deliver [[Byte.x01; Byte.x02; Byte.x03; Byte.x04];
                       [Byte.x05; Byte.x06; Byte.x07; Byte.x08];
                       [Byte.x09; Byte.x0a; Byte.x0b]]
                (set_buffer_byte_position 0 recording_at_8))) = true.
Proof.
  apply (update_completes_iff_cursor_past_max
           (set_buffer_byte_position 0 recording_at_8)).
  - reflexivity.
  - vm_compute. reflexivity.
  - vm_compute. reflexivity.
Defined.

(** The order the specification describes would be recognised. *)
Example rechecks_under_lock_sees_a_recheck :
  rechecks_under_lock false false
    [EvCompare 11 10; EvLock 2; EvCompare 11 10; EvPause 2 true; EvUnlock 2] = true.
Proof. reflexivity. Qed.

Lemma update_never_rechecks (s : State) :
  rechecks_under_lock false false (events (update s)) = false.
Proof.
  destruct (recording_state s) eqn:Hst;
    try (rewrite update_idle by congruence; reflexivity);
    destruct (Z.lt_ge_cases (buffer_byte_max_position s) (buffer_byte_position s));
    try (rewrite update_pending by auto; reflexivity).
  - rewrite update_recording_complete by assumption. reflexivity.
  - rewrite update_playback_complete by assumption. reflexivity.
Qed.

(** C9, as the specification words it, fails: a call of [update] that
    completes a recording pass on the 12-byte block (cursor at 11, 10
    usable) tests the cursor once, before it takes the lock of device 2,
    and not again before it pauses the device. *)
Lemma update_checks_outside_lock :
  recording_state recording_at_11 = RECORDING /\
  recording_state (globals (update recording_at_11)) = RECORDED /\
  events (update recording_at_11)
  = [EvCompare 11 10; EvLock 2; EvPause 2 true;
     EvPrint ("Recorded successfully" ++ nl); EvUnlock 2] /\
  rechecks_under_lock false false (events (update recording_at_11)) <> true.
Proof. repeat split; vm_compute; congruence. Qed.

(** C9, amended: a call of [update] that completes a recording pass
    tests the completion condition once, before the lock is taken; then
    it takes the lock of the capture device, pauses the device, prints,
    sets the state to [RECORDED] and releases the lock.  The playback
    pass does the same on the playback device.  No call of [update]
    tests the condition between a lock and a pause. *)
Theorem update_checks_then_locks_pauses_unlocks (s : State) :
  (recording_state s = RECORDING -> isRecordingComplete s = true ->
     events (update s)
     = [EvCompare (buffer_byte_position s) (buffer_byte_max_position s);
        EvLock (recording_deviceid s); EvPause (recording_deviceid s) true;
        EvPrint ("Recorded successfully" ++ nl); EvUnlock (recording_deviceid s)] /\
     recording_state (globals (update s)) = RECORDED) /\
  (recording_state s = PLAYBACK -> isPlaybackComplete s = true ->
     events (update s)
     = [EvCompare (buffer_byte_position s) (buffer_byte_max_position s);
        EvLock (playback_deviceid s); EvPause (playback_deviceid s) true;
        EvPrint ("Playback complete" ++ nl); EvUnlock (playback_deviceid s)] /\
     recording_state (globals (update s)) = RECORDED) /\
  rechecks_under_lock false false (events (update s)) = false.
Proof.
  split; [| split].
  - intros Hst Hc. apply Z.ltb_lt in Hc.
    rewrite update_recording_complete by assumption. split; reflexivity.
  - intros Hst Hc. apply Z.ltb_lt in Hc.
    rewrite update_playback_complete by assumption. split; reflexivity.
  - apply update_never_rechecks.
Qed.

(** C9 amended, at the end of a recording pass and of a playback pass
    on the 12-byte block. *)
Lemma update_checks_then_locks_pauses_unlocks_witness :
  recording_state (globals (update recording_at_11)) = RECORDED /\
  recording_state (globals (update playing_at_11)) = RECORDED.
Proof.
  split.
  - destruct (update_checks_then_locks_pauses_unlocks recording_at_11) as (Hrec & _ & _).
    apply Hrec; reflexivity.
  - destruct (update_checks_then_locks_pauses_unlocks playing_at_11) as (_ & Hplay & _).
    apply Hplay; reflexivity.
Defined.

(* ------------------------------------------------------------------ *)
(** ** [memcpy] on the block *)

Lemma memcpy_to_length (block : list Byte.byte) (pos : nat) (src : list Byte.byte) :
  List.length (memcpy_to block pos src) = List.length block.
Proof.
  unfold memcpy_to.
  rewrite !length_app, !length_firstn, length_skipn. lia.
Qed.

Lemma memcpy_to_inside (block : list Byte.byte) (pos : nat) (src : list Byte.byte) :
  (pos + List.length src <= List.length block)%nat ->
  memcpy_to block pos src
  = (firstn pos block ++ src ++ skipn (pos + List.length src) block)%list.
Proof.
  intros H. unfold memcpy_to.
  rewrite (firstn_all2 (n := List.length block - pos) src) by lia. reflexivity.
Qed.

Lemma memcpy_from_cons (b : Byte.byte) (block : list Byte.byte) (pos len : nat) :
  memcpy_from (b :: block) (S pos) len = memcpy_from block pos len.
Proof.
  unfold memcpy_from. rewrite <- seq_shift, map_map. reflexivity.
Qed.

Lemma memcpy_from_start (block : list Byte.byte) :
  forall len, (len <= List.length block)%nat ->
    memcpy_from block 0 len = map Some (firstn len block).
Proof.
  induction block as [| b block IH]; intros [| len] H; try reflexivity.
  - cbn in H. lia.
  - cbn in H. change (memcpy_from (b :: block) 0 (S len))
      with (Some b :: memcpy_from (b :: block) 1 len).
    rewrite memcpy_from_cons, IH by lia. reflexivity.
Qed.

Lemma memcpy_from_inside (block : list Byte.byte) :
  forall pos len, (pos + len <= List.length block)%nat ->
    memcpy_from block pos len = map Some (firstn len (skipn pos block)).
Proof.
  induction block as [| b block IH]; intros pos len H.
  - cbn in H. assert (pos = 0 /\ len = 0)%nat as [-> ->] by lia. reflexivity.
  - destruct pos as [| pos].
    + apply memcpy_from_start. cbn [skipn]. lia.
    + rewrite memcpy_from_cons. cbn [skipn]. apply IH. cbn in H. lia.
Qed.

Lemma firstn_add_skipn {A} (a b : nat) (l : list A) :
  firstn (a + b) l = (firstn a l ++ firstn b (skipn a l))%list.
Proof.
  revert l. induction a as [| a IH]; intros l; [reflexivity |].
  destruct l as [| x l]; cbn.
  - rewrite firstn_nil. reflexivity.
  - rewrite IH. reflexivity.
Qed.

(** Two stores in a row are one store of the two chunks. *)
Lemma store_after_store (block c more : list Byte.byte) (p : nat) :
  (p + List.length c <= List.length block)%nat ->
  let block1 := (firstn p block ++ c ++ skipn (p + List.length c) block)%list in
  (firstn (p + List.length c) block1 ++ more
     ++ skipn (p + List.length c + List.length more) block1)%list
  = (firstn p block ++ (c ++ more)
       ++ skipn (p + (List.length c + List.length more)) block)%list.
Proof.
  intros H block1.
  assert (Hlen : List.length (firstn p block ++ c)%list = (p + List.length c)%nat)
    by (rewrite length_app, length_firstn; lia).
  unfold block1. rewrite (app_assoc (firstn p block) c).
  rewrite firstn_app, skipn_app, Hlen.
  rewrite (firstn_all2 (n := p + List.length c)) by lia.
  rewrite (skipn_all2 (n := p + List.length c + List.length more)) by lia.
  replace (p + List.length c - (p + List.length c))%nat with 0%nat by lia.
  replace (p + List.length c + List.length more - (p + List.length c))%nat
    with (List.length more) by lia.
  rewrite skipn_skipn. cbn [firstn app].
  rewrite app_nil_r, <- !app_assoc.
  replace (List.length more + (p + List.length c))%nat
    with (p + (List.length c + List.length more))%nat by lia.
  reflexivity.
Qed.

(* ------------------------------------------------------------------ *)
(** ** The callbacks *)

Lemma audio_recording_callback_run (stream : list Byte.byte) (s : State) :
  audio_recording_callback stream s
  = (tt,
     set_buffer_byte_position
       (to_Uint32 (buffer_byte_position s + Z.of_nat (List.length stream)))
       (set_recording_buffer
          (memcpy_to (recording_buffer s) (Z.to_nat (buffer_byte_position s)) stream) s),
     [EvStore (buffer_byte_position s) (Z.of_nat (List.length stream))]).
Proof. reflexivity. Qed.

Lemma audio_playback_callback_run (len : nat) (s : State) :
  audio_playback_callback len s
  = (memcpy_from (recording_buffer s) (Z.to_nat (buffer_byte_position s)) len,
     set_buffer_byte_position (to_Uint32 (buffer_byte_position s + Z.of_nat len)) s,
     [EvLoad (buffer_byte_position s) (Z.of_nat len)]).
Proof. reflexivity. Qed.

Lemma set_cursor_and_block_same (s : State) :
  set_buffer_byte_position (buffer_byte_position s)
    (set_recording_buffer (recording_buffer s) s) = s.
Proof. destruct s; reflexivity. Qed.

Lemma stores_inside (size : Z) (chunks : list (list Byte.byte)) :
  forall pos, 0 <= pos -> pos + total chunks <= size ->
    Forall (inside size) (stores pos chunks).
Proof.
  induction chunks as [| c rest IH]; intros pos Hpos Hfit; [constructor |].
  unfold total in *. cbn [List.concat] in Hfit.
  rewrite length_app, Nat2Z.inj_add in Hfit.
  cbn [stores]. constructor.
  - cbn. lia.
  - apply IH; lia.
Qed.

(** A run of capture callbacks that fits in the block is one store of
    all the chunks, one after the other. *)
Lemma deliver_inside (chunks : list (list Byte.byte)) :
  forall s,
    buffer_ok s ->
    buffer_byte_position s + total chunks <= buffer_byte_size s ->
    deliver chunks s
    = (tt,
       set_buffer_byte_position (buffer_byte_position s + total chunks)
         (set_recording_buffer
            (firstn (Z.to_nat (buffer_byte_position s)) (recording_buffer s)
               ++ List.concat chunks
               ++ skipn (Z.to_nat (buffer_byte_position s)
                         + List.length (List.concat chunks))
                    (recording_buffer s))%list s),
       stores (buffer_byte_position s) chunks).
Proof.
  induction chunks as [| c rest IH]; intros s (Hlen & Hpos & Hsize) Hfit.
  - cbn [deliver List.concat app stores List.length]. unfold ret, total. cbn [List.concat List.length].
    rewrite Nat.add_0_r, firstn_skipn, Z.add_0_r, set_cursor_and_block_same.
    reflexivity.
  - unfold total in Hfit. cbn [List.concat] in Hfit.
    rewrite length_app, Nat2Z.inj_add in Hfit.
    fold (total rest) in Hfit.
    assert (Hrest : 0 <= total rest) by (unfold total; lia).
    cbn [deliver].
    rewrite (bind_run _ _ _ _ _ _ (audio_recording_callback_run c s)).
    set (pos := buffer_byte_position s) in *.
    set (block := recording_buffer s) in *.
    assert (Hw : to_Uint32 (pos + Z.of_nat (List.length c)) = pos + Z.of_nat (List.length c))
      by (unfold to_Uint32; apply Z.mod_small; lia).
    assert (Hp : Z.to_nat (pos + Z.of_nat (List.length c))
                 = (Z.to_nat pos + List.length c)%nat)
      by (rewrite Z2Nat.inj_add, Nat2Z.id; lia).
    assert (Hin : (Z.to_nat pos + List.length c <= List.length block)%nat) by lia.
    rewrite Hw, (memcpy_to_inside _ _ _ Hin).
    rewrite IH.
    + cbn [value globals events fst snd buffer_byte_position recording_buffer
           set_buffer_byte_position set_recording_buffer].
      rewrite Hp, (store_after_store block c (List.concat rest) _ Hin).
      unfold total. cbn [List.concat stores].
      rewrite length_app, Nat2Z.inj_add, Z.add_assoc.
      reflexivity.
    + repeat split; cbn; [| lia | exact Hsize].
      fold block. rewrite <- (memcpy_to_inside _ _ _ Hin), memcpy_to_length. exact Hlen.
    + cbn. lia.
Qed.

(** C1, as the specification words it, fails: with the cursor at 8 in
    the 12-byte block, a chunk of 8 bytes is copied whole (a [memcpy] of
    8 bytes at offset 8, not of min(8, 12 - 8) = 4) and the cursor ends
    at 16, past the 12 bytes of the block. *)
Lemma capture_callback_does_not_clamp :
  buffer_byte_position recording_at_8 = 8 /\
  buffer_byte_size recording_at_8 = 12 /\
  events (audio_recording_callback eight recording_at_8) = [EvStore 8 8] /\
  writePosition (globals (audio_recording_callback eight recording_at_8)) = 16 /\
  ~ appendFromCapture_clamped recording_at_8 eight.
Proof.
  do 4 (split; [reflexivity |]).
  intros Hclaim. destruct Hclaim as (Hev & _). vm_compute in Hev. discriminate Hev.
Qed.

(** C1, amended: every capture callback copies the whole chunk at the
    cursor and advances the cursor by the length of the chunk (modulo
    2^32); nothing is clamped.  The cursor stays within the block, and
    every copy inside it, as long as the bytes delivered from the
    current cursor on fit in the block; in particular a callback that
    arrives while the cursor is not past [buffer_byte_max_position],
    with a chunk no longer than the padding, stays inside. *)
Theorem capture_copies_whole_chunks (s : State) (chunks : list (list Byte.byte)) :
  (forall stream,
     audio_recording_callback stream s
     = (tt,
        set_buffer_byte_position
          (to_Uint32 (writePosition s + Z.of_nat (List.length stream)))
          (set_recording_buffer
             (memcpy_to (recording_buffer s) (Z.to_nat (writePosition s)) stream) s),
        [EvStore (writePosition s) (Z.of_nat (List.length stream))])) /\
  (buffer_ok s ->
   writePosition s + total chunks <= buffer_byte_size s ->
   let r := deliver chunks s in
   events r = stores (writePosition s) chunks /\
   Forall (inside (buffer_byte_size s)) (events r) /\
   writePosition (globals r) = writePosition s + total chunks /\
   writePosition (globals r) <= buffer_byte_size (globals r) /\
   recording_buffer (globals r)
   = (firstn (Z.to_nat (writePosition s)) (recording_buffer s)
        ++ List.concat chunks
        ++ skipn (Z.to_nat (writePosition s) + List.length (List.concat chunks))
             (recording_buffer s))%list /\
   buffer_ok (globals r)) /\
  (buffer_ok s ->
   writePosition s <= buffer_byte_max_position s ->
   forall stream,
     Z.of_nat (List.length stream) <= buffer_byte_size s - buffer_byte_max_position s ->
     let r := audio_recording_callback stream s in
     Forall (inside (buffer_byte_size s)) (events r) /\
     writePosition (globals r) = writePosition s + Z.of_nat (List.length stream) /\
     writePosition (globals r) <= buffer_byte_size (globals r)).
Proof.
  unfold writePosition.
  split; [intros stream; apply audio_recording_callback_run |].
  split.
  - intros Hok Hfit. rewrite (deliver_inside chunks s Hok Hfit).
    destruct Hok as (Hlen & Hpos & Hsize).
    assert (Htot : 0 <= total chunks) by (unfold total; lia).
    cbn [events globals fst snd buffer_byte_position recording_buffer buffer_byte_size
         set_buffer_byte_position set_recording_buffer].
    split; [reflexivity |].
    split; [apply stores_inside; assumption |].
    split; [reflexivity |]. split; [exact Hfit |]. split; [reflexivity |].
    repeat split; cbn; [| lia | exact Hsize].
    rewrite !length_app, length_firstn, length_skipn.
    unfold total in Hfit. lia.
  - intros (Hlen & Hpos & Hsize) Hmax stream Hpad.
    rewrite audio_recording_callback_run.
    cbn [events globals fst snd buffer_byte_position buffer_byte_size
         set_buffer_byte_position set_recording_buffer].
    assert (Hw : to_Uint32 (buffer_byte_position s + Z.of_nat (List.length stream))
                 = buffer_byte_position s + Z.of_nat (List.length stream))
      by (unfold to_Uint32; apply Z.mod_small; lia).
    rewrite Hw. split; [| split; [reflexivity | lia]].
    constructor; [cbn; lia | constructor].
Qed.

(** C1 amended, on the 12-byte block: two chunks of 2 bytes delivered
    with the cursor at 8. *)
Lemma capture_copies_whole_chunks_witness :
  writePosition
    (globals (deliver [[Byte.x11; Byte.x12]; [Byte.x13; Byte.x14]] recording_at_8))
  = 12.
Proof.
  destruct (capture_copies_whole_chunks recording_at_8
              [[Byte.x11; Byte.x12]; [Byte.x13; Byte.x14]]) as (_ & Hrun & _).
  destruct Hrun as (_ & _ & Hpos & _).
  - repeat split; vm_compute; congruence.
  - vm_compute. congruence.
  - exact Hpos.
Defined.

(** The same in a whole run: [voicememo record -k AB -d 0] on the
    12-byte block, the capture thread delivering seven chunks of 2 bytes
    (each no longer than the padding) before [update] runs.  The seventh
    is stored at offset 12, past the block, and [update] then sees the
    cursor at 14. *)
Example late_update_lets_capture_overrun :
  let r := main slow_mics (record_argv "0") late_update initial_state in
  buffer_byte_size (globals r) = 12 /\
  In (EvStore 12 2) (events r) /\
  In (EvCompare 14 10) (events r).
Proof.
  vm_compute. split; [reflexivity |].
  split; repeat (first [left; reflexivity | right]).
Qed.

(** C2, as the specification words it, fails: asked for 8 bytes with the
    cursor at 8 in the 12-byte block, the playback callback loads 8
    bytes at offset 8 (not min(8, 12 - 8) = 4), fills nothing with
    zeros, and leaves the cursor at 16 (not 12). *)
Lemma playback_callback_does_not_clamp :
  buffer_byte_position playing_at_8 = 8 /\
  buffer_byte_size playing_at_8 = 12 /\
  events (audio_playback_callback 8 playing_at_8) = [EvLoad 8 8] /\
  value (audio_playback_callback 8 playing_at_8)
  = [Some Byte.x09; Some Byte.x0a; Some Byte.x0b; Some Byte.x0c;
     None; None; None; None] /\
  readPosition (globals (audio_playback_callback 8 playing_at_8)) = 16 /\
  ~ fillForPlayback_clamped playing_at_8 8.
Proof.
  do 5 (split; [reflexivity |]).
  intros Hclaim. destruct Hclaim as (Hev & _). vm_compute in Hev. discriminate Hev.
Qed.

(** C2, amended: every playback callback loads exactly the [len] bytes
    asked for from the block at the cursor and advances the cursor by
    [len] (modulo 2^32), leaving the stored bytes as they are; nothing
    is clamped and nothing is zero-filled.  When the request fits in
    the block, the stream is the [len] stored bytes that follow the
    cursor, and the cursor stays within the block. *)
Theorem playback_copies_whole_request (s : State) (len : nat) :
  audio_playback_callback len s
  = (memcpy_from (recording_buffer s) (Z.to_nat (readPosition s)) len,
     set_buffer_byte_position (to_Uint32 (readPosition s + Z.of_nat len)) s,
     [EvLoad (readPosition s) (Z.of_nat len)]) /\
  List.length (value (audio_playback_callback len s)) = len /\
  (buffer_ok s ->
   readPosition s + Z.of_nat len <= buffer_byte_size s ->
   let r := audio_playback_callback len s in
   value r = map Some (firstn len (skipn (Z.to_nat (readPosition s)) (recording_buffer s))) /\
   Forall (inside (buffer_byte_size s)) (events r) /\
   readPosition (globals r) = readPosition s + Z.of_nat len /\
   readPosition (globals r) <= buffer_byte_size (globals r)).
Proof.
  unfold readPosition.
  split; [apply audio_playback_callback_run |].
  split.
  - rewrite audio_playback_callback_run. unfold memcpy_from. cbn [value fst].
    rewrite length_map, length_seq. reflexivity.
  - intros (Hlen & Hpos & Hsize) Hfit.
    rewrite audio_playback_callback_run.
    cbn [value events globals fst snd buffer_byte_position buffer_byte_size
         set_buffer_byte_position].
    assert (Hw : to_Uint32 (buffer_byte_position s + Z.of_nat len)
                 = buffer_byte_position s + Z.of_nat len)
      by (unfold to_Uint32; apply Z.mod_small; lia).
    rewrite Hw. split; [apply memcpy_from_inside; lia |].
    split; [constructor; [cbn; lia | constructor] |].
    split; [reflexivity | exact Hfit].
Qed.

(** C2 amended, on the 12-byte block: 4 bytes asked for with the cursor
    at 8. *)
Lemma playback_copies_whole_request_witness :
  value (audio_playback_callback 4 playing_at_8)
  = [Some Byte.x09; Some Byte.x0a; Some Byte.x0b; Some Byte.x0c].
Proof.
  destruct (playback_copies_whole_request playing_at_8 4) as (_ & _ & Hfit).
  destruct Hfit as (Hval & _).
  - repeat split; vm_compute; congruence.
  - vm_compute. congruence.
  - exact Hval.
Defined.

(* ------------------------------------------------------------------ *)
(** ** A recording pass read back *)

(** A run of playback callbacks that fits in the block hands out the
    stored bytes that follow the cursor, in order. *)
Lemma consume_inside (lens : list nat) :
  forall s,
    buffer_ok s ->
    buffer_byte_position s + Z.of_nat (sum_lens lens) <= buffer_byte_size s ->
    value (consume lens s)
    = map Some (firstn (sum_lens lens)
                  (skipn (Z.to_nat (buffer_byte_position s)) (recording_buffer s))) /\
    globals (consume lens s)
    = set_buffer_byte_position (buffer_byte_position s + Z.of_nat (sum_lens lens)) s.
Proof.
  induction lens as [| len rest IH]; intros s (Hlen & Hpos & Hsize) Hfit.
  - cbn. rewrite Z.add_0_r. split; [reflexivity | destruct s; reflexivity].
  - cbn [sum_lens fold_right] in Hfit |- *. fold (sum_lens rest) in Hfit |- *.
    rewrite Nat2Z.inj_add in Hfit.
    cbn [consume].
    rewrite value_bind, globals_bind, value_bind, globals_bind.
    rewrite audio_playback_callback_run.
    cbn [value globals fst snd].
    assert (Hw : to_Uint32 (buffer_byte_position s + Z.of_nat len)
                 = buffer_byte_position s + Z.of_nat len)
      by (unfold to_Uint32; apply Z.mod_small; lia).
    rewrite Hw.
    set (s1 := set_buffer_byte_position (buffer_byte_position s + Z.of_nat len) s).
    destruct (IH s1) as (Hval & Hglob).
    { repeat split; cbn; [exact Hlen | lia | exact Hsize]. }
    { cbn. lia. }
    rewrite Hval, Hglob. cbn [ret value globals fst snd].
    cbn [s1 buffer_byte_position recording_buffer set_buffer_byte_position].
    split.
    + rewrite memcpy_from_inside by lia.
      rewrite firstn_add_skipn, map_app, skipn_skipn.
      rewrite Z2Nat.inj_add, Nat2Z.id by lia.
      rewrite (Nat.add_comm len). reflexivity.
    + rewrite Nat2Z.inj_add, Z.add_assoc. reflexivity.
Qed.

(** C7, as the specification words it, fails: it speaks of every
    recording pass, and a pass that runs past the block is not handed
    back.  On the 12-byte block, seven chunks of 2 bytes (each no longer
    than the padding) are appended from a cursor at 0 and the last one
    lands past the block; a playback pass asking for the same 14 bytes
    gets the 12 bytes that were stored and then two bytes from outside
    the block.  A whole run of [main] does just that, and returns 0. *)
Lemma overrun_is_not_played_back :
  let s := set_buffer_byte_position 0 recording_at_8 in
  let chunks := repeat [Byte.x01; Byte.x02] 7 in
  buffer_ok s /\
  buffer_byte_position s = 0 /\
  buffer_byte_size s = 12 /\
  total chunks = 14 /\
  sum_lens [14%nat] = List.length (List.concat chunks) /\
  value (consume [14%nat] (globals (begin_playback (globals (deliver chunks s)))))
  = (map Some (firstn 12 (List.concat chunks)) ++ [None; None])%list /\
  ~ round_trip_identical s chunks [14%nat] /\
  value (main slow_mics (record_argv "0") late_update_played initial_state) = Some 0 /\
  streamed (events (main slow_mics (record_argv "0") late_update_played initial_state))
  = (map Some (firstn 12 (List.concat chunks)) ++ [None; None])%list.
Proof.
  cbv zeta.
  split; [repeat split; vm_compute; congruence |].
  do 5 (split; [reflexivity |]).
  split; [| split; reflexivity].
  intros Hclaim. unfold round_trip_identical in Hclaim.
  vm_compute in Hclaim. discriminate Hclaim.
Qed.

(** C7, amended: what a recording pass that stays inside the block
    stored is what the playback pass hands out.  The capture callbacks
    store their chunks from a cursor at 0, and the chunks fit in the
    block; [main] puts the cursor back to 0; playback callbacks that
    ask, in all, for as many bytes as were stored get exactly those
    bytes, in order. *)
Theorem playback_returns_recorded_bytes
  (s : State) (chunks : list (list Byte.byte)) (lens : list nat) :
  buffer_ok s ->
  buffer_byte_position s = 0 ->
  total chunks <= buffer_byte_size s ->
  sum_lens lens = List.length (List.concat chunks) ->
  let recorded := globals (deliver chunks s) in
  let rewound := globals (begin_playback recorded) in
  value (consume lens rewound) = map Some (List.concat chunks) /\
  readPosition (globals (consume lens rewound)) = total chunks.
Proof.
  intros Hok H0 Hfit Hsum.
  assert (Hfit' : buffer_byte_position s + total chunks <= buffer_byte_size s)
    by (rewrite H0; exact Hfit).
  cbv zeta. rewrite (deliver_inside chunks s Hok Hfit').
  destruct Hok as (Hlen & Hpos & Hsize).
  rewrite H0. cbn [Z.to_nat firstn app Nat.add globals fst snd].
  set (block := (List.concat chunks
                   ++ skipn (List.length (List.concat chunks)) (recording_buffer s))%list).
  set (rewound := globals (begin_playback _)).
  assert (Hblock : recording_buffer rewound = block) by reflexivity.
  assert (Hcur : buffer_byte_position rewound = 0) by reflexivity.
  assert (Hsz : buffer_byte_size rewound = buffer_byte_size s) by reflexivity.
  assert (Hblen : List.length block = List.length (recording_buffer s)).
  { unfold block. rewrite length_app, length_skipn. unfold total in Hfit. lia. }
  destruct (consume_inside lens rewound) as (Hval & Hglob).
  { repeat split; [rewrite Hblock, Hblen, Hsz; exact Hlen | rewrite Hcur; lia
                   | rewrite Hsz; exact Hsize]. }
  { rewrite Hcur, Hsz, Hsum. exact Hfit. }
  rewrite Hval, Hglob, Hblock, Hcur, Hsum. unfold readPosition.
  cbn [Z.to_nat skipn buffer_byte_position set_buffer_byte_position].
  split; [| reflexivity].
  unfold block. rewrite firstn_app, Nat.sub_diag, firstn_all. cbn [firstn].
  rewrite app_nil_r. reflexivity.
Qed.

(** C7, on the 12-byte block: chunks of 3 and 2 bytes, read back as 1
    and 4 bytes. *)
Lemma playback_returns_recorded_bytes_witness :
  value (consume [1; 4]%nat
           (globals (begin_playback
              (globals (deliver [[Byte.x11; Byte.x12; Byte.x13]; [Byte.x14; Byte.x15]]
                          (set_buffer_byte_position 0 recording_at_8))))))
  = [Some Byte.x11; Some Byte.x12; Some Byte.x13; Some Byte.x14; Some Byte.x15].
Proof.
  apply (playback_returns_recorded_bytes
           (set_buffer_byte_position 0 recording_at_8)
           [[Byte.x11; Byte.x12; Byte.x13]; [Byte.x14; Byte.x15]] [1; 4]%nat).
  - repeat split; vm_compute; congruence.
  - reflexivity.
  - vm_compute. congruence.
  - reflexivity.
Defined.

(* ------------------------------------------------------------------ *)
(** ** One cursor *)

Lemma consume_block (lens : list nat) :
  forall s, recording_buffer (globals (consume lens s)) = recording_buffer s.
Proof.
  induction lens as [| len rest IH]; intros s; [reflexivity |].
  cbn [consume]. rewrite globals_bind, globals_bind.
  cbn [ret globals fst snd]. rewrite IH. reflexivity.
Qed.

(** C8, as the specification words it, fails: there is one cursor.  A
    capture callback of 8 bytes moves the offset the playback callback
    loads from (8 to 16), a playback callback of 8 bytes moves the
    offset the capture callback stores at, and the reset before
    playback leaves the capture offset at 0, not at 8. *)
Lemma cursors_are_not_independent :
  readPosition recording_at_8 = 8 /\
  readPosition (globals (audio_recording_callback eight recording_at_8)) = 16 /\
  writePosition (globals (audio_playback_callback 8 playing_at_8)) = 16 /\
  writePosition (globals (begin_playback recording_at_8)) = 0 /\
  ~ (readPosition (globals (audio_recording_callback eight recording_at_8))
       = readPosition recording_at_8 /\
     writePosition (globals (audio_playback_callback 8 playing_at_8))
       = writePosition playing_at_8 /\
     writePosition (globals (begin_playback recording_at_8))
       = writePosition recording_at_8).
Proof.
  do 4 (split; [reflexivity |]).
  intros (Hread & _). vm_compute in Hread. discriminate Hread.
Qed.

(** C8, amended: the buffer has one cursor, which is the store offset
    of capture and the load offset of playback.  A capture callback
    changes the cursor (advanced by the chunk length) and the stored
    bytes, and nothing else; a playback callback changes the cursor
    (advanced by the length asked for) and nothing else, so that no run
    of playback callbacks changes the stored bytes and every run of
    capture callbacks moves the offset playback loads from; the reset
    before playback zeroes the cursor, so the offset recording reached
    is not kept, and preserves the stored bytes and the sizes. *)
Theorem one_cursor_shared_by_capture_and_playback
  (s : State) (stream : list Byte.byte) (len : nat) :
  writePosition s = readPosition s /\
  globals (audio_recording_callback stream s)
  = set_buffer_byte_position
      (to_Uint32 (buffer_byte_position s + Z.of_nat (List.length stream)))
      (set_recording_buffer
         (memcpy_to (recording_buffer s) (Z.to_nat (buffer_byte_position s)) stream) s) /\
  globals (audio_playback_callback len s)
  = set_buffer_byte_position (to_Uint32 (buffer_byte_position s + Z.of_nat len)) s /\
  recording_buffer (globals (audio_playback_callback len s)) = recording_buffer s /\
  globals (begin_playback s)
  = set_recording_state PLAYBACK (set_buffer_byte_position 0 s) /\
  writePosition (globals (begin_playback s)) = 0 /\
  readPosition (globals (begin_playback s)) = 0 /\
  recording_buffer (globals (begin_playback s)) = recording_buffer s /\
  buffer_byte_size (globals (begin_playback s)) = buffer_byte_size s /\
  buffer_byte_max_position (globals (begin_playback s)) = buffer_byte_max_position s /\
  (forall lens, recording_buffer (globals (consume lens s)) = recording_buffer s) /\
  (forall chunks,
     to_Uint32 (buffer_byte_position s) = buffer_byte_position s ->
     readPosition (globals (deliver chunks s))
     = to_Uint32 (buffer_byte_position s + total chunks)).
Proof.
  do 10 (split; [reflexivity |]).
  split; [intros lens; apply consume_block |].
  intros chunks Hs. apply deliver_position. exact Hs.
Qed.

(** C8 amended, on the 12-byte block: two chunks of 2 bytes delivered
    with the cursor at 8 leave the offset playback loads from at 12. *)
Lemma one_cursor_shared_by_capture_and_playback_witness :
  readPosition
    (globals (deliver [[Byte.x11; Byte.x12]; [Byte.x13; Byte.x14]] recording_at_8))
  = 12.
Proof.
  destruct (one_cursor_shared_by_capture_and_playback recording_at_8 [] 0)
    as (_ & _ & _ & _ & _ & _ & _ & _ & _ & _ & _ & Hdeliver).
  apply (Hdeliver [[Byte.x11; Byte.x12]; [Byte.x13; Byte.x14]]). reflexivity.
Defined.

(* ------------------------------------------------------------------ *)
(** ** Enumeration *)

Lemma store_device_name_run (P : Platform) (i : Z) (s : State) :
  exists names,
    store_device_name P i s = (tt, set_available_device_names names s, []).
Proof.
  unfold store_device_name.
  destruct (SDL_GetAudioDeviceName P i) as [device_name |].
  - eexists. reflexivity.
  - exists (available_device_names s). destruct s; reflexivity.
Qed.

Lemma for_loop_store_names (P : Platform) (n : nat) :
  forall lo s,
  exists names,
    for_loop n lo (store_device_name P) s
    = (tt, set_available_device_names names s, []).
Proof.
  induction n as [| n IH]; intros lo s.
  - exists (available_device_names s). destruct s; reflexivity.
  - cbn [for_loop].
    destruct (store_device_name_run P lo s) as [names1 H1].
    rewrite (bind_run _ _ _ _ _ _ H1).
    destruct (IH (lo + 1) (set_available_device_names names1 s)) as [names2 H2].
    rewrite H2. exists names2. reflexivity.
Qed.

Lemma for_loop_ext (n : nat) :
  forall lo (body body' : Z -> M unit),
    (forall i s, lo <= i < lo + Z.of_nat n -> body i s = body' i s) ->
    forall s, for_loop n lo body s = for_loop n lo body' s.
Proof.
  induction n as [| n IH]; intros lo body body' Hext s; [reflexivity |].
  cbn [for_loop]. unfold bind.
  rewrite (Hext lo s) by lia.
  destruct (body' lo s) as [[[] s1] e1].
  rewrite (IH (lo + 1) body body') by (intros; apply Hext; lia).
  reflexivity.
Qed.

Lemma init_fails (P : Platform) (s : State) :
  SDL_GetNumAudioDevices P < 1 ->
  init P s
  = (false, set_available_recording_device_count (SDL_GetNumAudioDevices P) s,
     [EvPerror ("[Error] Unable to get audio capture device! " ++ SDL_GetError P ++ nl)]).
Proof.
  intros Hn. apply Z.ltb_lt in Hn.
  unfold init, bind, put, get. cbn. rewrite Hn. reflexivity.
Qed.

Lemma init_loop (P : Platform) (s : State) :
  1 <= SDL_GetNumAudioDevices P ->
  let count := Z.min (SDL_GetNumAudioDevices P) MAX_RECORDING_DEVICES in
  let loop :=
    for_loop (Z.to_nat count) 0 (store_device_name P)
      (set_available_device_names (repeat None (Z.to_nat count))
         (set_available_recording_device_count count s)) in
  init P s = (true, globals loop, events loop).
Proof.
  intros Hn count loop. unfold loop, count. clear loop count.
  apply Z.ltb_ge in Hn.
  unfold init, bind, put, get. cbn -[Z.min Z.to_nat]. rewrite Hn.
  unfold MAX_RECORDING_DEVICES.
  destruct (5 <? SDL_GetNumAudioDevices P) eqn:Hcap.
  - apply Z.ltb_lt in Hcap. rewrite Z.min_r by lia.
    cbn -[Z.to_nat].
    destruct (for_loop _ _ _ _) as [[[] s2] e2]. cbn. rewrite app_nil_r. reflexivity.
  - apply Z.ltb_ge in Hcap. rewrite Z.min_l by lia.
    cbn -[Z.to_nat].
    destruct (for_loop _ _ _ _) as [[[] s2] e2]. cbn. rewrite app_nil_r. reflexivity.
Qed.

Lemma init_succeeds (P : Platform) (s : State) :
  1 <= SDL_GetNumAudioDevices P ->
  exists names,
    init P s
    = (true,
       set_available_device_names names
         (set_available_recording_device_count
            (Z.min (SDL_GetNumAudioDevices P) MAX_RECORDING_DEVICES) s),
       []).
Proof.
  intros Hn. rewrite (init_loop P s Hn).
  destruct (for_loop_store_names P
              (Z.to_nat (Z.min (SDL_GetNumAudioDevices P) MAX_RECORDING_DEVICES)) 0
              (set_available_device_names
                 (repeat None
                    (Z.to_nat (Z.min (SDL_GetNumAudioDevices P) MAX_RECORDING_DEVICES)))
                 (set_available_recording_device_count
                    (Z.min (SDL_GetNumAudioDevices P) MAX_RECORDING_DEVICES) s)))
    as [names Hloop].
  rewrite Hloop. exists names. reflexivity.
Qed.

Lemma init_count (P : Platform) (s : State) :
  available_recording_device_count (globals (init P s))
  = Z.min (SDL_GetNumAudioDevices P) MAX_RECORDING_DEVICES.
Proof.
  destruct (Z.lt_ge_cases (SDL_GetNumAudioDevices P) 1) as [Hn | Hn].
  - rewrite (init_fails P s Hn). cbn -[Z.min].
    unfold MAX_RECORDING_DEVICES. lia.
  - destruct (init_succeeds P s Hn) as [names H]. rewrite H. reflexivity.
Qed.

Lemma init_same_below_cap (P P' : Platform) (s : State) :
  same_below_cap P P' -> init P s = init P' s.
Proof.
  intros (_ & Hnum & Hname & _ & Herr).
  destruct (Z.lt_ge_cases (SDL_GetNumAudioDevices P) 1) as [Hn | Hn].
  - rewrite (init_fails P s Hn), (init_fails P' s) by (rewrite <- Hnum; exact Hn).
    rewrite Hnum, Herr. reflexivity.
  - rewrite (init_loop P s Hn), (init_loop P' s) by (rewrite <- Hnum; exact Hn).
    rewrite <- Hnum.
    rewrite (for_loop_ext _ 0 (store_device_name P) (store_device_name P'));
      [reflexivity |].
    intros i s1 Hi. unfold store_device_name. rewrite Hname; [reflexivity |].
    unfold MAX_RECORDING_DEVICES in *. lia.
Qed.

(* ------------------------------------------------------------------ *)
(** ** The [record] command *)

Lemma handle_key_press_idle (s : State) : handle_key_press s = (tt, s, []).
Proof.
  unfold handle_key_press, bind, get. cbn.
  destruct (recording_state s); reflexivity.
Qed.

Lemma handle_record_out_of_range (P : Platform) (param : ArgCmdRecord) (s : State) :
  available_recording_device_count s <= device param ->
  handle_record P param s
  = (tt, s,
     [EvPrint (": param key = " ++ key param ++ nl);
      EvPrint (": param device = " ++ string_of_Z (device param) ++ nl)]).
Proof.
  intros Hge. apply Z.ltb_ge in Hge.
  unfold handle_record, bind, get, PRINT, emit. cbn -[string_of_Z append].
  rewrite Hge. reflexivity.
Qed.

Lemma handle_command_record_out_of_range
  (P : Platform) (param : ArgCmdRecord) (s : State) :
  available_recording_device_count s <= device param ->
  handle_command P CMDTYPE_RECORD (RecordData param) s
  = (tt, s,
     [EvPrint (": param key = " ++ key param ++ nl);
      EvPrint (": param device = " ++ string_of_Z (device param) ++ nl)]).
Proof.
  intros Hge. unfold handle_command.
  rewrite (bind_run _ _ _ _ _ _ (handle_record_out_of_range P param s Hge)).
  rewrite handle_key_press_idle. reflexivity.
Qed.

Lemma handle_record_opens (P : Platform) (param : ArgCmdRecord) (s : State) :
  device param < available_recording_device_count s ->
  In (EvOpen (SDL_GetAudioDeviceName P (device param)) true)
     (events (handle_record P param s)).
Proof.
  intros Hlt. apply Z.ltb_lt in Hlt.
  unfold handle_record. rewrite !events_bind.
  apply in_or_app; right. apply in_or_app; right. apply in_or_app; right.
  cbn [value globals get PRINT emit fst snd]. rewrite Hlt.
  rewrite events_bind. apply in_or_app; left. left. reflexivity.
Qed.

Lemma handle_record_leaves_selecting (P : Platform) (param : ArgCmdRecord) (s : State) :
  device param < available_recording_device_count s ->
  recording_state (globals (handle_record P param s)) = ERROR \/
  recording_state (globals (handle_record P param s)) = RECORDING.
Proof.
  intros Hlt. apply Z.ltb_lt in Hlt.
  unfold handle_record, bind, get, put, PRINT, PERROR, emit.
  cbn -[string_of_Z append]. rewrite Hlt.
  destruct (SDL_OpenAudioDevice P _ true _) as [id received].
  cbn -[string_of_Z append].
  destruct (id =? 0); [left; reflexivity |].
  cbn -[string_of_Z append].
  destruct (SDL_OpenAudioDevice P None false _) as [pid preceived].
  cbn -[string_of_Z append].
  destruct (pid =? 0); [left; reflexivity | right; reflexivity].
Qed.

Lemma handle_record_same_below_cap (P P' : Platform) (param : ArgCmdRecord) (s : State) :
  same_below_cap P P' ->
  available_recording_device_count s <= MAX_RECORDING_DEVICES ->
  handle_record P param s = handle_record P' param s.
Proof.
  intros (_ & _ & Hname & Hopen & Herr) Hcap.
  destruct (Z.lt_ge_cases (device param) (available_recording_device_count s))
    as [Hlt | Hge].
  - unfold handle_record.
    rewrite (Hname (device param)) by lia.
    rewrite !Hopen, Herr. reflexivity.
  - rewrite !handle_record_out_of_range by assumption. reflexivity.
Qed.

Lemma handle_command_same_below_cap
  (P P' : Platform) (cmd_type : CmdType) (data : CmdData) (s : State) :
  same_below_cap P P' ->
  available_recording_device_count s <= MAX_RECORDING_DEVICES ->
  handle_command P cmd_type data s = handle_command P' cmd_type data s.
Proof.
  intros Hsame Hcap. unfold handle_command.
  destruct cmd_type; try reflexivity.
  destruct data; try reflexivity.
  unfold bind. rewrite (handle_record_same_below_cap P P' param s Hsame Hcap).
  reflexivity.
Qed.

Lemma main_after_init_same_below_cap
  (P P' : Platform) (argv : list string) (sched : Schedule) (ok : bool) (s : State) :
  same_below_cap P P' ->
  available_recording_device_count s <= MAX_RECORDING_DEVICES ->
  main_after_init P argv sched ok s = main_after_init P' argv sched ok s.
Proof.
  intros Hsame Hcap. unfold main_after_init, main_record.
  destruct (negb ok); [reflexivity |].
  destruct (Z.of_nat (List.length argv) <? 2); [reflexivity |].
  destruct (strncmp_eq (nth 1 argv "") "show" 4).
  { unfold bind. rewrite (handle_command_same_below_cap P P' _ _ s Hsame Hcap).
    reflexivity. }
  destruct (strncmp_eq (nth 1 argv "") "listen" 6).
  { destruct (Z.of_nat (List.length argv) <? 3); [reflexivity |].
    unfold bind. rewrite (handle_command_same_below_cap P P' _ _ s Hsame Hcap).
    reflexivity. }
  destruct (strncmp_eq (nth 1 argv "") "record" 6).
  { destruct (Z.of_nat (List.length argv) <? 6); [reflexivity |].
    destruct (parse_record_args argv) as [[k d] found_bitchecks].
    destruct (negb (Z.land found_bitchecks 3 =? 3)); [reflexivity |].
    destruct d as [dev |]; [| reflexivity].
    unfold bind. rewrite (handle_command_same_below_cap P P' _ _ s Hsame Hcap).
    reflexivity. }
  destruct (strncmp_eq (nth 1 argv "") "help" 4); [| reflexivity].
  unfold bind. rewrite (handle_command_same_below_cap P P' _ _ s Hsame Hcap).
  reflexivity.
Qed.

Lemma main_same_below_cap
  (P P' : Platform) (argv : list string) (sched : Schedule) (s : State) :
  same_below_cap P P' ->
  main P argv sched s = main P' argv sched s.
Proof.
  intros Hsame. pose proof Hsame as (Hinit & _ & _ & _ & Herr).
  unfold main. rewrite Hinit, Herr.
  destruct (SDL_Init P' <? 0); [reflexivity |].
  pose proof (init_count P' s) as Hcount.
  unfold bind. rewrite (init_same_below_cap P P' s Hsame).
  destruct (init P' s) as [[ok s1] e1]. cbn [globals fst snd] in Hcount.
  rewrite (main_after_init_same_below_cap P P' argv sched ok s1 Hsame);
    [reflexivity |].
  rewrite Hcount. apply Z.le_min_r.
Qed.

Lemma main_without_capture_device
  (P : Platform) (argv : list string) (sched : Schedule) (s : State) :
  0 <= SDL_Init P ->
  SDL_GetNumAudioDevices P < 1 ->
  main P argv sched s
  = (Some 0,
     set_available_device_names []
       (set_available_recording_device_count (SDL_GetNumAudioDevices P) s),
     [EvPerror ("[Error] Unable to get audio capture device! " ++ SDL_GetError P ++ nl);
      EvPerror ("[Error] Failed to init" ++ nl);
      EvQuit]).
Proof.
  intros Hinit Hn. apply Z.ltb_ge in Hinit.
  unfold main. rewrite Hinit.
  rewrite (bind_run _ _ _ _ _ _ (init_fails P s Hn)).
  unfold main_after_init, PERROR. cbn [negb].
  rewrite emit_then, close_then_ret, frees_of_no_device by exact Hn.
  reflexivity.
Qed.

Lemma for_loop_one_event (body : Z -> M unit) :
  (forall i s, exists e, body i s = (tt, s, [e])) ->
  forall n lo s,
    globals (for_loop n lo body s) = s /\
    List.length (events (for_loop n lo body s)) = n.
Proof.
  intros Hbody. induction n as [| n IH]; intros lo s; [split; reflexivity |].
  cbn [for_loop]. destruct (Hbody lo s) as [e He].
  rewrite (bind_run _ _ _ _ _ _ He). cbn [globals events fst snd].
  destruct (IH (lo + 1) s) as (Hg & Hl). rewrite Hg.
  cbn [app List.length]. rewrite Hl. split; reflexivity.
Qed.

Lemma print_all_available_device_names_lines (s : State) :
  List.length (events (print_all_available_device_names s))
  = Z.to_nat (available_recording_device_count s).
Proof.
  unfold print_all_available_device_names.
  rewrite events_bind. cbn [get events value globals fst snd app].
  apply for_loop_one_event. intros i s1.
  unfold bind, get.
  destruct (nth_error (available_device_names s1) (Z.to_nat i)) as [[name |] |];
    eexists; reflexivity.
Qed.

(** C5: [init] stores min(count, 5) as the number of capture devices,
    whatever count SDL reports, and fails exactly when SDL reports
    fewer than one.  Nothing after it sees a device of index 5 or
    above: [show] prints as many lines as the stored count, a [record]
    with such an index opens nothing and changes nothing, and a whole
    run of [main] is the same on two platforms that differ only in the
    devices from index 5 on.  When [init] fails, [main] handles no
    command: it reports the failure, closes and returns. *)
Theorem enumeration_capped_at_five (P : Platform) (s : State) :
  MAX_RECORDING_DEVICES = 5 /\
  available_recording_device_count (globals (init P s))
  = Z.min (SDL_GetNumAudioDevices P) 5 /\
  available_recording_device_count (globals (init P s)) <= 5 /\
  (value (init P s) = false <-> SDL_GetNumAudioDevices P < 1) /\
  List.length (events (print_all_available_device_names (globals (init P s))))
  = Z.to_nat (Z.min (SDL_GetNumAudioDevices P) 5) /\
  (forall param,
     5 <= device param ->
     globals (handle_command P CMDTYPE_RECORD (RecordData param) (globals (init P s)))
     = globals (init P s) /\
     forall name iscapture,
       ~ In (EvOpen name iscapture)
            (events (handle_command P CMDTYPE_RECORD (RecordData param)
                       (globals (init P s))))) /\
  (forall P' argv sched,
     same_below_cap P P' -> main P argv sched s = main P' argv sched s) /\
  (0 <= SDL_Init P -> SDL_GetNumAudioDevices P < 1 ->
   forall argv sched,
     value (main P argv sched s) = Some 0 /\
     events (main P argv sched s)
     = [EvPerror ("[Error] Unable to get audio capture device! " ++ SDL_GetError P ++ nl);
        EvPerror ("[Error] Failed to init" ++ nl);
        EvQuit]).
Proof.
  pose proof (init_count P s) as Hcount. unfold MAX_RECORDING_DEVICES in Hcount.
  split; [reflexivity |]. split; [exact Hcount |].
  split; [rewrite Hcount; apply Z.le_min_r |].
  split.
  { destruct (Z.lt_ge_cases (SDL_GetNumAudioDevices P) 1) as [Hn | Hn].
    - rewrite (init_fails P s Hn). cbn. tauto.
    - destruct (init_succeeds P s Hn) as [names H]. rewrite H. cbn.
      split; [discriminate | lia]. }
  split; [rewrite print_all_available_device_names_lines, Hcount; reflexivity |].
  split.
  { intros param Hdev.
    rewrite handle_command_record_out_of_range by (rewrite Hcount; lia).
    split; [reflexivity |].
    intros name iscapture [Hin | [Hin | []]]; discriminate. }
  split; [intros P' argv sched Hsame; apply main_same_below_cap; exact Hsame |].
  intros Hinit Hn argv sched.
  rewrite (main_without_capture_device P argv sched s Hinit Hn). split; reflexivity.
Qed.

(** C5, on concrete platforms: with no capture device [main] returns
    without handling the command; with seven devices, [show] does not
    depend on the names of the sixth and seventh. *)
Lemma enumeration_capped_at_five_witness :
  value (main no_mics ["voicememo"; "show"] silence initial_state) = Some 0 /\
  main (seven_mics "left") ["voicememo"; "show"] silence initial_state
  = main (seven_mics "right") ["voicememo"; "show"] silence initial_state.
Proof.
  split.
  - destruct (enumeration_capped_at_five no_mics initial_state)
      as (_ & _ & _ & _ & _ & _ & _ & Hfail).
    apply Hfail; vm_compute; congruence.
  - destruct (enumeration_capped_at_five (seven_mics "left") initial_state)
      as (_ & _ & _ & _ & _ & _ & Hsame & _).
    apply Hsame. repeat split.
    intros i Hi. cbn. unfold MAX_RECORDING_DEVICES in Hi.
    apply Z.ltb_lt in Hi. rewrite Hi. reflexivity.
Defined.

(** A [record] command whose index is at or past the stored count:
    nothing is opened or allocated, the state is left as it was, and
    [main] exits with -1. *)
Lemma record_index_past_count_is_rejected
  (P : Platform) (param : ArgCmdRecord) (sched : Schedule) (s : State) :
  available_recording_device_count s <= device param ->
  recording_state s = SELECTING_DEVICE ->
  let r := bind (handle_command P CMDTYPE_RECORD (RecordData param))
             (fun _ => record_and_play sched) s in
  value r = Some (-1) /\
  globals r = set_available_device_names [] s /\
  recording_state (globals r) = SELECTING_DEVICE /\
  events r
  = (EvPrint (": param key = " ++ key param ++ nl)
       :: EvPrint (": param device = " ++ string_of_Z (device param) ++ nl)
       :: frees_of s ++ [EvQuit])%list.
Proof.
  intros Hge Hst. cbv zeta.
  rewrite (bind_run _ _ _ _ _ _ (handle_command_record_out_of_range P param s Hge)).
  assert (Hrun : record_and_play sched s
                 = (Some (-1), set_available_device_names [] s,
                    (frees_of s ++ [EvQuit])%list)).
  { unfold record_and_play. unfold bind at 1. unfold get at 1. rewrite Hst.
    cbn [RecordingState_eqb]. rewrite close_then_ret. reflexivity. }
  rewrite Hrun. cbn [value globals events fst snd app].
  split; [reflexivity |]. split; [reflexivity |]. split; [exact Hst | reflexivity].
Qed.

(** A [record] command whose index is negative passes the test of line
    259: the device SDL names for that index is opened, and the state
    leaves [SELECTING_DEVICE]. *)
Lemma record_negative_index_is_accepted
  (P : Platform) (param : ArgCmdRecord) (s : State) :
  device param < 0 ->
  0 <= available_recording_device_count s ->
  In (EvOpen (SDL_GetAudioDeviceName P (device param)) true)
     (events (handle_command P CMDTYPE_RECORD (RecordData param) s)) /\
  (recording_state (globals (handle_command P CMDTYPE_RECORD (RecordData param) s))
   = ERROR \/
   recording_state (globals (handle_command P CMDTYPE_RECORD (RecordData param) s))
   = RECORDING).
Proof.
  intros Hneg Hcount.
  assert (Hlt : device param < available_recording_device_count s) by lia.
  unfold handle_command. rewrite events_bind, globals_bind, handle_key_press_idle.
  cbn [events globals fst snd]. rewrite app_nil_r.
  split; [apply handle_record_opens | apply handle_record_leaves_selecting]; exact Hlt.
Qed.

(** C6, where main.c departs from it: [voicememo record -k AB -d -1]
    with three capture devices.  The index -1 is outside [0, 3), yet
    the default capture device and the playback device are opened, the
    12-byte block is allocated, the state becomes [RECORDING] and
    [main] enters its polling loop instead of exiting with -1. *)
Theorem negative_index_is_not_rejected :
  let r := main slow_mics (record_argv "-1") silence initial_state in
  available_recording_device_count (globals r) = 3 /\
  events r
  = [EvPrint (": param key = AB" ++ nl);
     EvPrint (": param device = -1" ++ nl);
     EvOpen None true; EvOpen None false;
     EvPrint ("buffer size = 12" ++ nl);
     EvPrint ("Device opened successfully" ++ nl);
     EvPause 2 false;
     EvPrint ("Recording..." ++ nl)] /\
  recording_state (globals r) = RECORDING /\
  List.length (recording_buffer (globals r)) = 12%nat /\
  value r = None.
Proof. vm_compute. repeat split. Qed.

(* ------------------------------------------------------------------ *)
(** ** The arguments of [record] *)

Lemma strtol_unparseable (v : string) : parseable v = false -> strtol v = 0.
Proof.
  unfold parseable, strtol. intros H.
  destruct (take_sign (skip_spaces v)) as [neg body]. cbn in H.
  rewrite H. reflexivity.
Qed.

Lemma parse_step_key (argv : list string) (acc : string * option Z * Z) (i : nat) :
  is_key_flag (nth i argv "") = true ->
  parse_step argv acc i
  = (strncpy (nth (S i) argv "") 4, snd (fst acc), Z.lor (snd acc) 1).
Proof.
  intros H. unfold parse_step. destruct acc as [[k d] found]. rewrite H. reflexivity.
Qed.

Lemma parse_step_device (argv : list string) (acc : string * option Z * Z) (i : nat) :
  is_key_flag (nth i argv "") = false ->
  is_device_flag (nth i argv "") = true ->
  parse_step argv acc i
  = (fst (fst acc), Some (to_int (strtol (nth (S i) argv ""))), Z.lor (snd acc) 2).
Proof.
  intros Hk Hd. unfold parse_step. destruct acc as [[k d] found].
  rewrite Hk, Hd. reflexivity.
Qed.

Lemma parse_step_other (argv : list string) (acc : string * option Z * Z) (i : nat) :
  is_key_flag (nth i argv "") = false ->
  is_device_flag (nth i argv "") = false ->
  parse_step argv acc i = acc.
Proof.
  intros Hk Hd. unfold parse_step. destruct acc as [[k d] found].
  rewrite Hk, Hd. reflexivity.
Qed.

Lemma key_flag_spelling (kflag : string) :
  kflag = "-k" \/ kflag = "--key" ->
  is_key_flag kflag = true /\ to_int (strtol kflag) = 0.
Proof. intros [-> | ->]; split; reflexivity. Qed.

Lemma device_flag_spelling (dflag : string) :
  dflag = "-d" \/ dflag = "--device" ->
  is_key_flag dflag = false /\ is_device_flag dflag = true.
Proof. intros [-> | ->]; split; reflexivity. Qed.

(** [record -k KEY -d VALUE]: whatever KEY looks like, the device is 0
    and both flags are found. *)
Lemma parse_key_then_device (prog cmd kflag k dflag v : string) (rest : list string) :
  kflag = "-k" \/ kflag = "--key" ->
  dflag = "-d" \/ dflag = "--device" ->
  parseable v = false ->
  exists k',
    parse_record_args (prog :: cmd :: kflag :: k :: dflag :: v :: rest)
    = (k', Some 0, 3).
Proof.
  intros Hkf Hdf Hv.
  destruct (key_flag_spelling kflag Hkf) as (Hk & _).
  destruct (device_flag_spelling dflag Hdf) as (Hd1 & Hd2).
  unfold parse_record_args. cbn [fold_left].
  rewrite (parse_step_key _ _ 2) by exact Hk.
  rewrite (parse_step_device _ _ 4) by assumption.
  cbn [nth]. rewrite (strtol_unparseable v Hv).
  destruct (is_key_flag k) eqn:Hkk; [| destruct (is_device_flag k) eqn:Hkd].
  - rewrite (parse_step_key _ _ 3) by exact Hkk. eexists. reflexivity.
  - rewrite (parse_step_device _ _ 3) by assumption. eexists. reflexivity.
  - rewrite (parse_step_other _ _ 3) by assumption. eexists. reflexivity.
Qed.

(** [record -d VALUE -k KEY]: the same, whatever VALUE looks like. *)
Lemma parse_device_then_key (prog cmd kflag k dflag v : string) (rest : list string) :
  kflag = "-k" \/ kflag = "--key" ->
  dflag = "-d" \/ dflag = "--device" ->
  parseable v = false ->
  exists k',
    parse_record_args (prog :: cmd :: dflag :: v :: kflag :: k :: rest)
    = (k', Some 0, 3).
Proof.
  intros Hkf Hdf Hv.
  destruct (key_flag_spelling kflag Hkf) as (Hk & Hk0).
  destruct (device_flag_spelling dflag Hdf) as (Hd1 & Hd2).
  unfold parse_record_args. cbn [fold_left].
  rewrite (parse_step_device _ _ 2) by assumption.
  rewrite (parse_step_key _ _ 4) by exact Hk.
  cbn [nth]. rewrite (strtol_unparseable v Hv).
  destruct (is_key_flag v) eqn:Hvk; [| destruct (is_device_flag v) eqn:Hvd].
  - rewrite (parse_step_key _ _ 3) by exact Hvk. eexists. reflexivity.
  - rewrite (parse_step_device _ _ 3) by assumption. cbn [nth].
    rewrite Hk0. eexists. reflexivity.
  - rewrite (parse_step_other _ _ 3) by assumption. eexists. reflexivity.
Qed.

(** A [record] command line whose scan finds both flags is handed to
    [handle_command], and the polling follows. *)
Lemma main_record_accepted
  (P : Platform) (prog a2 a3 a4 a5 : string) (rest : list string)
  (sched : Schedule) (s : State) (k : string) (dev : Z) :
  0 <= SDL_Init P ->
  1 <= SDL_GetNumAudioDevices P ->
  parse_record_args (prog :: "record" :: a2 :: a3 :: a4 :: a5 :: rest) = (k, Some dev, 3) ->
  main P (prog :: "record" :: a2 :: a3 :: a4 :: a5 :: rest) sched s
  = bind (handle_command P CMDTYPE_RECORD (RecordData (mkArgCmdRecord k dev)))
      (fun _ => record_and_play sched) (globals (init P s)).
Proof.
  intros Hinit Hn Hparse. apply Z.ltb_ge in Hinit.
  unfold main. rewrite Hinit.
  destruct (init_succeeds P s Hn) as [names Hrun].
  rewrite (bind_run _ _ _ _ _ _ Hrun), Hrun. cbn [globals fst snd app].
  unfold main_after_init, main_record. cbn [negb nth].
  assert (Hlen : forall n, n <= 6 ->
            (Z.of_nat (List.length (prog :: "record" :: a2 :: a3 :: a4 :: a5 :: rest))
               <? n) = false)
    by (intros n Hle; apply Z.ltb_ge; cbn [List.length]; lia).
  rewrite (Hlen 2), (Hlen 6) by lia.
  change (strncmp_eq "record" "show" 4) with false.
  change (strncmp_eq "record" "listen" 6) with false.
  change (strncmp_eq "record" "record" 6) with true.
  cbv iota. rewrite Hparse. cbn [Z.land Z.eqb Pos.land Pos.eqb negb].
  symmetry. apply run_eta.
Qed.

(** An event of [handle_record] is an event of the whole run that
    starts with [handle_command] on a [record] command. *)
Ltac first_event_of_record param :=
  rewrite events_bind; apply in_or_app; left;
  unfold handle_command; rewrite events_bind; apply in_or_app; left;
  apply (handle_record_opens _ param).

(** C10: when the value after [-d] or [--device] holds no decimal
    number for [strtol] to convert, the command is not rejected:
    [strtol] gives 0, both flags count as found, [handle_command] is
    called with device 0, and the first enumerated device is opened for
    recording.  This holds with the key flag before or after the device
    flag. *)
Theorem unparseable_device_index_selects_device_zero
  (P : Platform) (prog kflag k dflag v : string) (rest : list string)
  (sched : Schedule) (s : State) :
  kflag = "-k" \/ kflag = "--key" ->
  dflag = "-d" \/ dflag = "--device" ->
  parseable v = false ->
  0 <= SDL_Init P ->
  1 <= SDL_GetNumAudioDevices P ->
  strtol v = 0 /\
  forall argv,
    argv = prog :: "record" :: kflag :: k :: dflag :: v :: rest \/
    argv = prog :: "record" :: dflag :: v :: kflag :: k :: rest ->
    exists k',
      parse_record_args argv = (k', Some 0, 3) /\
      main P argv sched s
      = bind (handle_command P CMDTYPE_RECORD (RecordData (mkArgCmdRecord k' 0)))
          (fun _ => record_and_play sched) (globals (init P s)) /\
      In (EvOpen (SDL_GetAudioDeviceName P 0) true) (events (main P argv sched s)).
Proof.
  intros Hkf Hdf Hv Hinit Hn.
  split; [apply strtol_unparseable; exact Hv |].
  assert (Hcount : 0 < available_recording_device_count (globals (init P s))).
  { rewrite init_count. unfold MAX_RECORDING_DEVICES. lia. }
  intros argv [-> | ->].
  - destruct (parse_key_then_device prog "record" kflag k dflag v rest Hkf Hdf Hv)
      as [k' Hparse].
    exists k'. split; [exact Hparse |].
    rewrite (main_record_accepted P _ _ _ _ _ _ sched s k' 0 Hinit Hn Hparse).
    split; [reflexivity | first_event_of_record (mkArgCmdRecord k' 0); exact Hcount].
  - destruct (parse_device_then_key prog "record" kflag k dflag v rest Hkf Hdf Hv)
      as [k' Hparse].
    exists k'. split; [exact Hparse |].
    rewrite (main_record_accepted P _ _ _ _ _ _ sched s k' 0 Hinit Hn Hparse).
    split; [reflexivity | first_event_of_record (mkArgCmdRecord k' 0); exact Hcount].
Qed.

(** C10, for [voicememo record -k AB -d xyz] with three capture
    devices. *)
Lemma unparseable_device_index_selects_device_zero_witness :
  strtol "xyz" = 0 /\
  In (EvOpen (Some "mic") true)
     (events (main slow_mics (record_argv "xyz") silence initial_state)).
Proof.
  destruct (unparseable_device_index_selects_device_zero
              slow_mics "voicememo" "-k" "AB" "-d" "xyz" [] silence initial_state)
    as (Hzero & Hrun).
  - left; reflexivity.
  - left; reflexivity.
  - reflexivity.
  - vm_compute. congruence.
  - vm_compute. congruence.
  - split; [exact Hzero |].
    destruct (Hrun (record_argv "xyz")) as (k' & _ & _ & Hopen).
    + left; reflexivity.
    + exact Hopen.
Defined.

(* ------------------------------------------------------------------ *)
(** ** Sizing the buffer *)

Lemma size_buffer_and_record_globals (s : State) :
  let spec := received_recording_spec s in
  let bytes_per_second :=
    freq spec * (channels spec * (SDL_AUDIO_BITSIZE (format spec) / 8)) in
  let size := to_Uint32 (RECORDING_BUFFER_SECONDS * bytes_per_second) in
  globals (size_buffer_and_record s)
  = set_recording_state RECORDING
      (set_buffer_byte_position 0
         (set_recording_buffer (calloc size)
            (set_buffer_byte_max_position
               (to_Uint32 (MAX_RECORDING_SECONDS * bytes_per_second))
               (set_buffer_byte_size size s)))).
Proof. reflexivity. Qed.

(** The sizes lines 305-318 compute, where the [int] products are
    defined and fit the [Uint32] globals. *)
Lemma size_buffer_and_record_sizes (s : State) :
  let spec := received_recording_spec s in
  let bitsPerSample := SDL_AUDIO_BITSIZE (format spec) in
  let bytesPerSecond := freq spec * channels spec * (bitsPerSample / 8) in
  let s' := globals (size_buffer_and_record s) in
  0 <= bytesPerSecond ->
  (MAX_RECORDING_SECONDS + 1) * bytesPerSecond < 2 ^ 32 ->
  MAX_RECORDING_SECONDS = 5 /\
  RECORDING_BUFFER_SECONDS = MAX_RECORDING_SECONDS + 1 /\
  buffer_byte_max_position s' = MAX_RECORDING_SECONDS * bytesPerSecond /\
  buffer_byte_size s' = (MAX_RECORDING_SECONDS + 1) * bytesPerSecond /\
  recording_buffer s' = repeat Byte.x00 (Z.to_nat (buffer_byte_size s')) /\
  Z.of_nat (List.length (recording_buffer s')) = buffer_byte_size s' /\
  buffer_byte_position s' = 0 /\
  (freq spec = 44100 -> channels spec = 2 -> bitsPerSample = 32 ->
   bytesPerSecond = 352800 /\
   buffer_byte_max_position s' = 1764000 /\
   buffer_byte_size s' = 2116800).
Proof.
  intros spec bits bps s' Hnonneg Hrange.
  assert (Hbps : freq spec * (channels spec * (SDL_AUDIO_BITSIZE (format spec) / 8)) = bps)
    by (unfold bps, bits; ring).
  assert (Hmax : buffer_byte_max_position s' = MAX_RECORDING_SECONDS * bps).
  { unfold s'. rewrite size_buffer_and_record_globals. cbn -[Z.mul Z.add Z.pow].
    fold spec. rewrite Hbps. unfold to_Uint32. apply Z.mod_small.
    unfold MAX_RECORDING_SECONDS in *. lia. }
  assert (Hsize : buffer_byte_size s' = (MAX_RECORDING_SECONDS + 1) * bps).
  { unfold s'. rewrite size_buffer_and_record_globals. cbn -[Z.mul Z.add Z.pow].
    fold spec. rewrite Hbps. unfold to_Uint32, RECORDING_BUFFER_SECONDS.
    apply Z.mod_small. unfold MAX_RECORDING_SECONDS in *. lia. }
  assert (Hblock : recording_buffer s' = repeat Byte.x00 (Z.to_nat (buffer_byte_size s'))).
  { unfold s'. rewrite size_buffer_and_record_globals. reflexivity. }
  split; [reflexivity |]. split; [reflexivity |].
  split; [exact Hmax |]. split; [exact Hsize |]. split; [exact Hblock |].
  split.
  { rewrite Hblock, repeat_length, Z2Nat.id; [reflexivity |].
    rewrite Hsize. unfold MAX_RECORDING_SECONDS. lia. }
  split.
  { unfold s'. rewrite size_buffer_and_record_globals. reflexivity. }
  intros Hf Hc Hb.
  assert (Hv : bps = 352800) by (unfold bps; rewrite Hf, Hc, Hb; reflexivity).
  rewrite Hmax, Hsize, Hv. repeat split; reflexivity.
Qed.

(** When both devices open, [handle_record] goes on to size the buffer
    from the spec of the capture device. *)
Lemma handle_record_sizes_buffer
  (P : Platform) (param : ArgCmdRecord) (s : State)
  (id pid : Z) (received preceived : SDL_AudioSpec) :
  device param < available_recording_device_count s ->
  SDL_OpenAudioDevice P (SDL_GetAudioDeviceName P (device param)) true
    (desired_spec recording_cb) = (id, received) ->
  id <> 0 ->
  SDL_OpenAudioDevice P None false (desired_spec playback_cb) = (pid, preceived) ->
  pid <> 0 ->
  globals (handle_record P param s)
  = globals (size_buffer_and_record
               (set_received_playback_spec preceived
                  (set_playback_deviceid pid
                     (set_received_recording_spec received
                        (set_recording_deviceid id s))))).
Proof.
  intros Hlt Hrec Hid Hplay Hpid.
  apply Z.ltb_lt in Hlt. apply Z.eqb_neq in Hid, Hpid.
  unfold handle_record, bind, get, put, PRINT, PERROR, emit.
  cbn -[string_of_Z append size_buffer_and_record]. rewrite Hlt, Hrec.
  cbn -[string_of_Z append size_buffer_and_record]. rewrite Hid.
  cbn -[string_of_Z append size_buffer_and_record]. rewrite Hplay.
  cbn -[string_of_Z append size_buffer_and_record]. rewrite Hpid.
  destruct (size_buffer_and_record _) as [[[] s2] e2]. reflexivity.
Qed.

(** C4: when both devices open, [handle_command] sizes the buffer from
    the spec the capture device was opened with: bytes per second is
    rate * channels * (bits / 8), the usable part is 5 seconds of it
    and the block 5 + 1 seconds, allocated zeroed; for 44100 Hz, 2
    channels and 32-bit samples that is 352800, 1764000 and 2116800
    bytes.  (The products are taken where C defines them: non-negative
    and within [Uint32].) *)
Theorem buffer_sized_from_negotiated_format
  (P : Platform) (param : ArgCmdRecord) (s : State)
  (id pid : Z) (received preceived : SDL_AudioSpec) :
  device param < available_recording_device_count s ->
  SDL_OpenAudioDevice P (SDL_GetAudioDeviceName P (device param)) true
    (desired_spec recording_cb) = (id, received) ->
  id <> 0 ->
  SDL_OpenAudioDevice P None false (desired_spec playback_cb) = (pid, preceived) ->
  pid <> 0 ->
  let bitsPerSample := SDL_AUDIO_BITSIZE (format received) in
  let bytesPerSecond := freq received * channels received * (bitsPerSample / 8) in
  let s' := globals (handle_command P CMDTYPE_RECORD (RecordData param) s) in
  0 <= bytesPerSecond ->
  (MAX_RECORDING_SECONDS + 1) * bytesPerSecond < 2 ^ 32 ->
  received_recording_spec s' = received /\
  MAX_RECORDING_SECONDS = 5 /\
  RECORDING_BUFFER_SECONDS = MAX_RECORDING_SECONDS + 1 /\
  buffer_byte_max_position s' = MAX_RECORDING_SECONDS * bytesPerSecond /\
  buffer_byte_size s' = (MAX_RECORDING_SECONDS + 1) * bytesPerSecond /\
  recording_buffer s' = repeat Byte.x00 (Z.to_nat (buffer_byte_size s')) /\
  Z.of_nat (List.length (recording_buffer s')) = buffer_byte_size s' /\
  buffer_byte_position s' = 0 /\
  (freq received = 44100 -> channels received = 2 -> bitsPerSample = 32 ->
   bytesPerSecond = 352800 /\
   buffer_byte_max_position s' = 1764000 /\
   buffer_byte_size s' = 2116800).
Proof.
  intros Hlt Hrec Hid Hplay Hpid bits bps s' Hnonneg Hrange.
  assert (Hs' : s' = globals (size_buffer_and_record
                  (set_received_playback_spec preceived
                     (set_playback_deviceid pid
                        (set_received_recording_spec received
                           (set_recording_deviceid id s)))))).
  { unfold s', handle_command. rewrite globals_bind, handle_key_press_idle.
    cbn [globals fst snd].
    apply (handle_record_sizes_buffer P param s id pid received preceived);
      assumption. }
  rewrite Hs'. split; [reflexivity |].
  apply (size_buffer_and_record_sizes
           (set_received_playback_spec preceived
              (set_playback_deviceid pid
                 (set_received_recording_spec received
                    (set_recording_deviceid id s)))));
    assumption.
Qed.

(** C4, for [record -d 0] on a platform that grants the spec the
    program asks for (44100 Hz, [AUDIO_F32], 2 channels). *)
Lemma buffer_sized_from_negotiated_format_witness :
  buffer_byte_size
    (globals (handle_command three_mics CMDTYPE_RECORD
                (RecordData (mkArgCmdRecord "AB" 0))
                (set_available_recording_device_count 3 initial_state)))
  = 2116800.
Proof.
  destruct (buffer_sized_from_negotiated_format
              three_mics (mkArgCmdRecord "AB" 0)
              (set_available_recording_device_count 3 initial_state)
              2 3 (desired_spec recording_cb) (desired_spec playback_cb))
    as (_ & _ & _ & _ & _ & _ & _ & _ & Hscenario).
  - reflexivity.
  - reflexivity.
  - discriminate.
  - reflexivity.
  - discriminate.
  - vm_compute. congruence.
  - vm_compute. reflexivity.
  - apply Hscenario; reflexivity.
Defined.

(* ------------------------------------------------------------------ *)
(** ** The table of device names *)

Lemma substring_length_le (n : nat) :
  forall s, (String.length (substring 0 n s) <= n)%nat.
Proof.
  induction n as [| n IH]; intros [| c s]; cbn; try lia.
  specialize (IH s). lia.
Qed.

Lemma set_names_twice (a b : list (option string)) (s : State) :
  set_available_device_names a (set_available_device_names b s)
  = set_available_device_names a s.
Proof. reflexivity. Qed.

(** One turn of the loop of lines 109-125 fills slot [k] of a table
    whose first [k] slots are filled and whose other slots are still
    unassigned. *)
Lemma store_device_name_fills_slot (P : Platform) (k m : nat) (s : State) :
  available_device_names s = (name_table P k ++ repeat None (S m))%list ->
  store_device_name P (Z.of_nat k) s
  = (tt,
     set_available_device_names (name_table P (S k) ++ repeat None m)%list s,
     []).
Proof.
  intros Hnames.
  assert (Hlen : List.length (name_table P k) = k)
    by (unfold name_table; rewrite length_map, length_seq; reflexivity).
  assert (Htable : name_table P (S k)
                   = (name_table P k ++ [display_name P (Z.of_nat k)])%list).
  { unfold name_table. rewrite seq_S, map_app. reflexivity. }
  rewrite Htable, <- app_assoc. cbn [app].
  unfold store_device_name, display_name.
  destruct (SDL_GetAudioDeviceName P (Z.of_nat k)) as [device_name |]; cbn [option_map].
  - unfold bind, get, put. cbn [fst snd app]. rewrite Hnames, Nat2Z.id.
    rewrite firstn_app, Hlen, Nat.sub_diag, firstn_all2 by lia.
    cbn [firstn]. rewrite app_nil_r.
    rewrite skipn_app, Hlen, skipn_all2 by lia.
    replace (S k - k)%nat with 1%nat by lia. reflexivity.
  - unfold ret. cbn [repeat] in Hnames. rewrite <- Hnames. destruct s; reflexivity.
Qed.

Lemma for_loop_fills_table (P : Platform) (n : nat) :
  forall k m s,
    available_device_names s = (name_table P k ++ repeat None (n + m))%list ->
    for_loop n (Z.of_nat k) (store_device_name P) s
    = (tt,
       set_available_device_names (name_table P (k + n) ++ repeat None m)%list s,
       []).
Proof.
  induction n as [| n IH]; intros k m s Hnames.
  - cbn [for_loop]. unfold ret. rewrite Nat.add_0_r.
    cbn [Nat.add] in Hnames. rewrite <- Hnames. destruct s; reflexivity.
  - cbn [for_loop].
    rewrite (bind_run _ _ _ _ _ _ (store_device_name_fills_slot P k (n + m) s Hnames)).
    replace (Z.of_nat k + 1) with (Z.of_nat (S k)) by lia.
    rewrite (IH (S k) m) by reflexivity.
    cbn [value globals events fst snd app]. rewrite set_names_twice.
    replace (S k + n)%nat with (k + S n)%nat by lia. reflexivity.
Qed.

Lemma init_table_run (P : Platform) (s : State) :
  1 <= SDL_GetNumAudioDevices P ->
  init P s
  = (true,
     set_available_device_names
       (name_table P (Z.to_nat (Z.min (SDL_GetNumAudioDevices P) MAX_RECORDING_DEVICES)))
       (set_available_recording_device_count
          (Z.min (SDL_GetNumAudioDevices P) MAX_RECORDING_DEVICES) s),
     []).
Proof.
  intros Hn. rewrite (init_loop P s Hn).
  rewrite (for_loop_fills_table P _ 0 0)
    by (cbn; rewrite Nat.add_0_r; reflexivity).
  cbn [globals events fst snd Nat.add]. rewrite set_names_twice, app_nil_r.
  reflexivity.
Qed.

(** X1: after a successful [init] the table of names has one entry per
    enumerated device, in index order: the text "[i] : name" cut to 119
    characters where SDL names device [i], and a slot that was never
    assigned where it does not; nothing else but the count is changed
    and nothing is printed. *)
Theorem init_builds_name_table (P : Platform) (s : State) :
  1 <= SDL_GetNumAudioDevices P ->
  let count := Z.min (SDL_GetNumAudioDevices P) MAX_RECORDING_DEVICES in
  init P s
  = (true,
     set_available_device_names (name_table P (Z.to_nat count))
       (set_available_recording_device_count count s),
     []) /\
  List.length (available_device_names (globals (init P s))) = Z.to_nat count /\
  (forall i, 0 <= i < count ->
     nth_error (available_device_names (globals (init P s))) (Z.to_nat i)
     = Some (display_name P i)) /\
  (forall name, In (Some name) (available_device_names (globals (init P s))) ->
     (String.length name <= 119)%nat).
Proof.
  intros Hn count.
  pose proof (init_table_run P s Hn) as Hrun. fold count in Hrun.
  rewrite Hrun. cbn [globals fst snd available_device_names set_available_device_names].
  split; [reflexivity |]. split; [| split].
  - unfold name_table. rewrite length_map, length_seq. reflexivity.
  - intros i Hi. unfold name_table.
    rewrite nth_error_map, nth_error_seq.
    assert (Hlt : (Z.to_nat i <? Z.to_nat count)%nat = true)
      by (apply Nat.ltb_lt; lia).
    rewrite Hlt. cbn. rewrite Z2Nat.id by lia. reflexivity.
  - intros name Hin. unfold name_table in Hin. apply in_map_iff in Hin.
    destruct Hin as (i & Hi & _). unfold display_name in Hi.
    destruct (SDL_GetAudioDeviceName P (Z.of_nat i)) as [device_name |];
      [| discriminate].
    cbn [option_map] in Hi. injection Hi as <-.
    exact (substring_length_le 119
             ("[" ++ string_of_Z (Z.of_nat i) ++ "] : " ++ device_name)).
Qed.

(** X1, for three devices called "mic". *)
Lemma init_builds_name_table_witness :
  available_device_names (globals (init three_mics initial_state))
  = [Some "[0] : mic"; Some "[1] : mic"; Some "[2] : mic"].
Proof.
  destruct (init_builds_name_table three_mics initial_state) as (Hrun & _).
  - vm_compute. congruence.
  - rewrite Hrun. reflexivity.
Defined.

(* ------------------------------------------------------------------ *)
(** ** The commands other than [record] *)

(** After a successful start, [main] is the dispatch on the command
    line, run on the globals [init] leaves. *)
Lemma main_after_successful_init
  (P : Platform) (argv : list string) (sched : Schedule) (s : State) :
  0 <= SDL_Init P ->
  1 <= SDL_GetNumAudioDevices P ->
  main P argv sched s
  = main_after_init P argv sched true
      (set_available_device_names
         (name_table P (Z.to_nat (Z.min (SDL_GetNumAudioDevices P) MAX_RECORDING_DEVICES)))
         (set_available_recording_device_count
            (Z.min (SDL_GetNumAudioDevices P) MAX_RECORDING_DEVICES) s)).
Proof.
  intros Hinit Hn. apply Z.ltb_ge in Hinit.
  unfold main. rewrite Hinit.
  rewrite (bind_run _ _ _ _ _ _ (init_table_run P s Hn)).
  cbn [app]. symmetry. apply run_eta.
Qed.

Lemma print_loop_lines (P : Platform) (count : nat) (n : nat) :
  forall k s,
    available_device_names s = name_table P count ->
    (k + n <= count)%nat ->
    for_loop n (Z.of_nat k)
      (fun i =>
         names <- get available_device_names ;;
         match nth_error names (Z.to_nat i) with
         | Some (Some name) => PRINT (name ++ nl)
         | _ => emit (EvUndefined "printf of a pointer that was never assigned")
         end) s
    = (tt, s, map (show_line P) (seq k n)).
Proof.
  induction n as [| n IH]; intros k s Hnames Hk; [reflexivity |].
  cbn [for_loop seq map].
  assert (Hentry : nth_error (name_table P count) k = Some (display_name P (Z.of_nat k))).
  { unfold name_table. rewrite nth_error_map, nth_error_seq.
    assert (Hlt : (k <? count)%nat = true) by (apply Nat.ltb_lt; lia).
    rewrite Hlt. reflexivity. }
  unfold bind at 1. unfold bind at 1. unfold get at 1. cbn [fst snd].
  rewrite Hnames, Nat2Z.id, Hentry.
  replace (Z.of_nat k + 1) with (Z.of_nat (S k)) by lia.
  unfold show_line at 1.
  destruct (display_name P (Z.of_nat k)) as [name |];
    cbn [PRINT emit app]; rewrite (IH (S k) s Hnames) by lia; reflexivity.
Qed.

Lemma show_runs (P : Platform) (s : State) (count : nat) :
  available_device_names s = name_table P count ->
  available_recording_device_count s = Z.of_nat count ->
  handle_command P CMDTYPE_SHOW NoData s = (tt, s, map (show_line P) (seq 0 count)).
Proof.
  intros Hnames Hcount.
  unfold handle_command, print_all_available_device_names.
  unfold bind at 1. unfold bind at 1. unfold get at 1. cbn [fst snd app].
  rewrite Hcount, Nat2Z.id.
  pose proof (print_loop_lines P count count 0%nat s Hnames (le_n _)) as Hloop.
  change (Z.of_nat 0) with 0 in Hloop. rewrite Hloop.
  rewrite handle_key_press_idle. rewrite app_nil_r. reflexivity.
Qed.

(** X2: [show] prints one line per enumerated device, in index order,
    then closes and returns 0.  The line is the stored text "[i] :
    name"; for an index SDL gave no name for, it is what a pointer that
    was never assigned points to, and [close] then hands that pointer
    to [free]: the run has undefined behaviour exactly when such an
    index exists.  Only the first four characters of the command are
    compared, and whatever follows the command is ignored. *)
Theorem show_prints_one_line_per_device
  (P : Platform) (prog cmd : string) (rest : list string)
  (sched : Schedule) (s : State) :
  0 <= SDL_Init P ->
  1 <= SDL_GetNumAudioDevices P ->
  strncmp_eq cmd "show" 4 = true ->
  let count := Z.min (SDL_GetNumAudioDevices P) MAX_RECORDING_DEVICES in
  main P (prog :: cmd :: rest) sched s
  = (Some 0,
     set_available_device_names [] (set_available_recording_device_count count s),
     (map (show_line P) (seq 0 (Z.to_nat count))
        ++ frees P (Z.to_nat count) ++ [EvQuit])%list) /\
  ((exists what, In (EvUndefined what) (events (main P (prog :: cmd :: rest) sched s)))
   <-> exists i, 0 <= i < count /\ SDL_GetAudioDeviceName P i = None).
Proof.
  intros Hinit Hn Hcmd count.
  assert (Hrun : main P (prog :: cmd :: rest) sched s
                 = (Some 0,
                    set_available_device_names []
                      (set_available_recording_device_count count s),
                    (map (show_line P) (seq 0 (Z.to_nat count))
                       ++ frees P (Z.to_nat count) ++ [EvQuit])%list)).
  { rewrite (main_after_successful_init P _ sched s Hinit Hn). fold count.
    unfold main_after_init. cbn [negb nth].
    assert (Hargc : (Z.of_nat (List.length (prog :: cmd :: rest)) <? 2) = false)
      by (apply Z.ltb_ge; cbn [List.length]; lia).
    rewrite Hargc, Hcmd.
    assert (Hshow : handle_command P CMDTYPE_SHOW NoData
                      (set_available_device_names (name_table P (Z.to_nat count))
                         (set_available_recording_device_count count s))
                    = (tt,
                       set_available_device_names (name_table P (Z.to_nat count))
                         (set_available_recording_device_count count s),
                       map (show_line P) (seq 0 (Z.to_nat count)))).
    { apply show_runs; [reflexivity |].
      cbn. rewrite Z2Nat.id; [reflexivity |].
      unfold count, MAX_RECORDING_DEVICES. lia. }
    rewrite (bind_run _ _ _ _ _ _ Hshow), close_after_init. reflexivity. }
  split; [exact Hrun |].
  rewrite Hrun. cbn [events snd]. split.
  - intros [what Hin]. apply in_app_or in Hin. destruct Hin as [Hin | Hin].
    + apply in_map_iff in Hin. destruct Hin as (i & Hline & Hi).
      apply in_seq in Hi. exists (Z.of_nat i). split; [lia |].
      unfold show_line, display_name in Hline.
      destruct (SDL_GetAudioDeviceName P (Z.of_nat i)); [discriminate | reflexivity].
    + apply in_app_or in Hin. destruct Hin as [Hin | [Hin | []]]; [| discriminate].
      apply in_frees in Hin. destruct Hin as (_ & i & Hi & Hname).
      exists (Z.of_nat i). split; [lia | exact Hname].
  - intros (i & Hi & Hname).
    exists "printf of a pointer that was never assigned".
    apply in_or_app; left. apply in_map_iff. exists (Z.to_nat i). split.
    + unfold show_line, display_name. rewrite Z2Nat.id by lia.
      rewrite Hname. reflexivity.
    + apply in_seq. lia.
Qed.

(** X2, for [voicememo showall extra] with three devices. *)
Lemma show_prints_one_line_per_device_witness :
  events (main three_mics ["voicememo"; "showall"; "extra"] silence initial_state)
  = [EvPrint ("[0] : mic" ++ nl); EvPrint ("[1] : mic" ++ nl);
     EvPrint ("[2] : mic" ++ nl); EvQuit].
Proof.
  destruct (show_prints_one_line_per_device
              three_mics "voicememo" "showall" ["extra"] silence initial_state)
    as (Hrun & _).
  - vm_compute. congruence.
  - vm_compute. congruence.
  - reflexivity.
  - rewrite Hrun. reflexivity.
Defined.

Lemma listen_is_not_show (cmd : string) :
  strncmp_eq cmd "listen" 6 = true -> strncmp_eq cmd "show" 4 = false.
Proof.
  unfold strncmp_eq. destruct cmd as [| c cmd]; [discriminate |].
  cbn [substring String.eqb].
  destruct (Ascii.eqb c "l") eqn:Hc; [| discriminate].
  apply Ascii.eqb_eq in Hc. subst c. reflexivity.
Qed.

Lemma listen_runs (P : Platform) (k : string) (s : State) :
  handle_command P CMDTYPE_LISTEN (KeyData k) s
  = (tt, s, [EvPrint ("key = " ++ k ++ nl)]).
Proof.
  unfold handle_command.
  rewrite (bind_run _ _ s tt s [EvPrint ("key = " ++ k ++ nl)] eq_refl).
  rewrite handle_key_press_idle. reflexivity.
Qed.

(** X3: [listen] plays nothing and opens nothing.  With a key it prints
    "key = KEY", closes and returns 0, leaving every global but the
    device table as [init] set it; without a key it prints its usage
    and returns -1.  Only the first six characters of the command are
    compared.  Between the output and [SDL_Quit], [close] frees the
    table: for every enumerated device SDL has no name for it hands
    [free] a pointer that was never assigned, so the run is free of
    undefined behaviour exactly when every enumerated device has a
    name. *)
Theorem listen_only_echoes_the_key
  (P : Platform) (prog cmd : string) (sched : Schedule) (s : State) :
  0 <= SDL_Init P ->
  1 <= SDL_GetNumAudioDevices P ->
  strncmp_eq cmd "listen" 6 = true ->
  let count := Z.min (SDL_GetNumAudioDevices P) MAX_RECORDING_DEVICES in
  let closed :=
    set_available_device_names [] (set_available_recording_device_count count s) in
  main P [prog; cmd] sched s
  = (Some (-1), closed,
     (EvPerror ("Not enough arguments" ++ nl)
        :: EvPerror ("Usage voicememo listen <KEY>" ++ nl)
        :: frees P (Z.to_nat count) ++ [EvQuit])%list) /\
  (forall k rest,
     main P (prog :: cmd :: k :: rest) sched s
     = (Some 0, closed,
        (EvPrint ("key = " ++ k ++ nl) :: frees P (Z.to_nat count) ++ [EvQuit])%list)) /\
  (frees P (Z.to_nat count) = []
   <-> forall i, 0 <= i < count -> SDL_GetAudioDeviceName P i <> None).
Proof.
  intros Hinit Hn Hcmd count closed.
  pose proof (listen_is_not_show cmd Hcmd) as Hshow.
  split; [| split; [intros k rest | apply frees_empty_iff]];
    rewrite (main_after_successful_init P _ sched s Hinit Hn);
    unfold main_after_init; cbn [negb nth List.length];
    rewrite Hshow, Hcmd.
  - change (Z.of_nat 2 <? 2) with false. change (Z.of_nat 2 <? 3) with true.
    unfold PERROR. rewrite !emit_then, close_after_init. reflexivity.
  - assert (Hargc : forall n, n <= 3 ->
              (Z.of_nat (S (S (S (List.length rest)))) <? n) = false)
      by (intros n Hle; apply Z.ltb_ge; lia).
    rewrite (Hargc 2), (Hargc 3) by lia.
    rewrite (bind_run _ _ _ _ _ _ (listen_runs P k _)), close_after_init. reflexivity.
Qed.

(** X3, for [voicememo listening AB] with three named devices, and with
    three devices of which the second has no name. *)
Lemma listen_only_echoes_the_key_witness :
  events (main three_mics ["voicememo"; "listening"; "AB"] silence initial_state)
  = [EvPrint ("key = AB" ++ nl); EvQuit] /\
  events (main (mkPlatform 0 3 (fun i => if i =? 1 then None else Some "mic")
                  (fun _ _ d => (0, d)) "")
            ["voicememo"; "listening"; "AB"] silence initial_state)
  = [EvPrint ("key = AB" ++ nl);
     EvUndefined "free of a pointer that was never assigned"; EvQuit].
Proof.
  split.
  - destruct (listen_only_echoes_the_key
                three_mics "voicememo" "listening" silence initial_state)
      as (_ & Hkey & _).
    + vm_compute. congruence.
    + vm_compute. congruence.
    + reflexivity.
    + rewrite (Hkey "AB" []). reflexivity.
  - destruct (listen_only_echoes_the_key
                (mkPlatform 0 3 (fun i => if i =? 1 then None else Some "mic")
                   (fun _ _ d => (0, d)) "")
                "voicememo" "listening" silence initial_state)
      as (_ & Hkey & _).
    + vm_compute. congruence.
    + vm_compute. congruence.
    + reflexivity.
    + rewrite (Hkey "AB" []). reflexivity.
Defined.

(** X4: a command line without a command, or with a command that begins
    with none of "show", "listen", "record" and "help", is answered on
    stderr and with exit code -1, after [init] and with no device
    touched; and when [SDL_Init] fails [main] returns -1 at once,
    without [init] and without [SDL_Quit].  Where [main] closes, the
    free of the table comes between the message and [SDL_Quit]: a
    pointer that was never assigned is handed to [free] for every
    enumerated device without a name, and for none when all have one. *)
Theorem unknown_command_exits_with_minus_one
  (P : Platform) (prog cmd : string) (rest : list string)
  (sched : Schedule) (s : State) :
  (SDL_Init P < 0 ->
   forall argv,
     main P argv sched s
     = (Some (-1), s, [EvPerror ("[Error] Failed to init: " ++ SDL_GetError P ++ nl)])) /\
  (0 <= SDL_Init P ->
   1 <= SDL_GetNumAudioDevices P ->
   let count := Z.min (SDL_GetNumAudioDevices P) MAX_RECORDING_DEVICES in
   let closed :=
     set_available_device_names [] (set_available_recording_device_count count s) in
   main P [prog] sched s
   = (Some (-1), closed,
      (EvPerror ("Usage voicememo <command> [options]" ++ nl)
         :: EvPerror ("Try voicememo help" ++ nl)
         :: frees P (Z.to_nat count) ++ [EvQuit])%list) /\
   (strncmp_eq cmd "show" 4 = false ->
    strncmp_eq cmd "listen" 6 = false ->
    strncmp_eq cmd "record" 6 = false ->
    strncmp_eq cmd "help" 4 = false ->
    main P (prog :: cmd :: rest) sched s
    = (Some (-1), closed,
       (EvPerror ("[Error] Unrecognized command" ++ nl)
          :: frees P (Z.to_nat count) ++ [EvQuit])%list)) /\
   (frees P (Z.to_nat count) = []
    <-> forall i, 0 <= i < count -> SDL_GetAudioDeviceName P i <> None)).
Proof.
  split.
  - intros Hinit argv. apply Z.ltb_lt in Hinit.
    unfold main. rewrite Hinit. reflexivity.
  - intros Hinit Hn count closed. split; [| split; [| apply frees_empty_iff]].
    + rewrite (main_after_successful_init P _ sched s Hinit Hn).
      unfold main_after_init. cbn [negb List.length].
      change (Z.of_nat 1 <? 2) with true.
      unfold PERROR. rewrite !emit_then, close_after_init. reflexivity.
    + intros Hshow Hlisten Hrecord Hhelp.
      rewrite (main_after_successful_init P _ sched s Hinit Hn).
      unfold main_after_init. cbn [negb nth].
      assert (Hargc : (Z.of_nat (List.length (prog :: cmd :: rest)) <? 2) = false)
        by (apply Z.ltb_ge; cbn [List.length]; lia).
      rewrite Hargc, Hshow, Hlisten, Hrecord, Hhelp.
      unfold PERROR. rewrite !emit_then, close_after_init. reflexivity.
Qed.

(** X4, for [voicememo play] with three named devices, for
    [voicememo play] with a device without a name, and for a platform
    on which SDL does not start. *)
Lemma unknown_command_exits_with_minus_one_witness :
  events (main three_mics ["voicememo"; "play"] silence initial_state)
  = [EvPerror ("[Error] Unrecognized command" ++ nl); EvQuit] /\
  events (main (mkPlatform 0 3 (fun i => if i =? 1 then None else Some "mic")
                  (fun _ _ d => (0, d)) "")
            ["voicememo"; "play"] silence initial_state)
  = [EvPerror ("[Error] Unrecognized command" ++ nl);
     EvUndefined "free of a pointer that was never assigned"; EvQuit] /\
  value (main (mkPlatform (-1) 3 (fun _ => None) (fun _ _ d => (0, d)) "no audio")
           ["voicememo"; "show"] silence initial_state) = Some (-1).
Proof.
  split; [| split].
  - destruct (unknown_command_exits_with_minus_one
                three_mics "voicememo" "play" [] silence initial_state)
      as (_ & Hstarted).
    destruct Hstarted as (_ & Hunknown & _).
    + vm_compute. congruence.
    + vm_compute. congruence.
    + rewrite Hunknown; reflexivity.
  - destruct (unknown_command_exits_with_minus_one
                (mkPlatform 0 3 (fun i => if i =? 1 then None else Some "mic")
                   (fun _ _ d => (0, d)) "")
                "voicememo" "play" [] silence initial_state)
      as (_ & Hstarted).
    destruct Hstarted as (_ & Hunknown & _).
    + vm_compute. congruence.
    + vm_compute. congruence.
    + rewrite Hunknown; reflexivity.
  - destruct (unknown_command_exits_with_minus_one
                (mkPlatform (-1) 3 (fun _ => None) (fun _ _ d => (0, d)) "no audio")
                "voicememo" "show" [] silence initial_state)
      as (Hfail & _).
    rewrite Hfail; [reflexivity | reflexivity].
Defined.

(* ------------------------------------------------------------------ *)
(** ** The command line of [record] *)

(** The scan of lines 452-468 in closed form: for each flag the last
    occurrence among [argv[2..4]] wins. *)
Lemma parse_record_args_scan (argv : list string) :
  exists found_bitchecks,
    parse_record_args argv = (scanned_key argv, scanned_device argv, found_bitchecks) /\
    (Z.land found_bitchecks 3 =? 3)
    = ((is_key_flag (nth 2 argv "") || is_key_flag (nth 3 argv "")
        || is_key_flag (nth 4 argv ""))
       && (counts_as_device_flag (nth 2 argv "") || counts_as_device_flag (nth 3 argv "")
           || counts_as_device_flag (nth 4 argv "")))%bool.
Proof.
  unfold parse_record_args, scanned_key, scanned_device, counts_as_device_flag.
  cbn [fold_left]. unfold parse_step.
  destruct (is_key_flag (nth 2 argv "")), (is_device_flag (nth 2 argv ""));
    destruct (is_key_flag (nth 3 argv "")), (is_device_flag (nth 3 argv ""));
    destruct (is_key_flag (nth 4 argv "")), (is_device_flag (nth 4 argv ""));
    eexists; split; reflexivity.
Qed.

Lemma to_int_range (z : Z) : - 2 ^ 31 <= to_int z < 2 ^ 31.
Proof.
  unfold to_int.
  pose proof (Z.mod_pos_bound (z + 2 ^ 31) (2 ^ 32) ltac:(lia)). lia.
Qed.

Lemma record_is_not_show_or_listen (cmd : string) :
  strncmp_eq cmd "record" 6 = true ->
  strncmp_eq cmd "show" 4 = false /\ strncmp_eq cmd "listen" 6 = false.
Proof.
  unfold strncmp_eq. destruct cmd as [| c cmd]; [discriminate |].
  cbn [substring String.eqb].
  destruct (Ascii.eqb c "r") eqn:Hc; [| discriminate].
  apply Ascii.eqb_eq in Hc. subst c. split; reflexivity.
Qed.

Lemma main_record_rejects (P : Platform) (argv : list string) (sched : Schedule) (s : State) :
  record_args_complete argv = false ->
  main_record P argv sched s
  = (Some (-1), set_available_device_names [] s,
     (usage_of_record ++ frees_of s ++ [EvQuit])%list).
Proof.
  intros Hincomplete.
  assert (Hreject : bind record_usage (fun _ => bind close (fun _ => ret (Some (-1)))) s
                    = (Some (-1), set_available_device_names [] s,
                       (usage_of_record ++ frees_of s ++ [EvQuit])%list)).
  { rewrite (bind_run record_usage _ s tt s usage_of_record eq_refl), close_then_ret.
    reflexivity. }
  unfold main_record, record_args_complete in *.
  destruct (Z.of_nat (List.length argv) <? 6) eqn:Hargc; [exact Hreject |].
  assert (Hle : (6 <=? Z.of_nat (List.length argv)) = true)
    by (apply Z.leb_le; apply Z.ltb_ge in Hargc; exact Hargc).
  rewrite Hle in Hincomplete. cbn [andb] in Hincomplete.
  destruct (parse_record_args_scan argv) as (found & Hparse & Hfound).
  rewrite Hparse, Hfound, Hincomplete. exact Hreject.
Qed.

Lemma main_record_accepts (P : Platform) (argv : list string) (sched : Schedule) (s : State) :
  record_args_complete argv = true ->
  exists dev,
    scanned_device argv = Some dev /\
    main_record P argv sched s
    = bind (handle_command P CMDTYPE_RECORD
              (RecordData (mkArgCmdRecord (scanned_key argv) dev)))
        (fun _ => record_and_play sched) s.
Proof.
  intros Hcomplete. unfold record_args_complete in Hcomplete.
  apply andb_prop in Hcomplete. destruct Hcomplete as (Hrest & Hdev).
  apply andb_prop in Hrest. destruct Hrest as (Hargc & Hkey).
  assert (Hsome : exists dev, scanned_device argv = Some dev).
  { unfold scanned_device.
    destruct (counts_as_device_flag (nth 4 argv "")); [eexists; reflexivity |].
    destruct (counts_as_device_flag (nth 3 argv "")); [eexists; reflexivity |].
    destruct (counts_as_device_flag (nth 2 argv "")); [eexists; reflexivity |].
    discriminate Hdev. }
  destruct Hsome as [dev Hscan]. exists dev. split; [exact Hscan |].
  unfold main_record.
  assert (Hlt : (Z.of_nat (List.length argv) <? 6) = false)
    by (apply Z.ltb_ge; apply Z.leb_le in Hargc; exact Hargc).
  rewrite Hlt.
  destruct (parse_record_args_scan argv) as (found & Hparse & Hfound).
  rewrite Hparse, Hfound, Hkey, Hdev, Hscan. reflexivity.
Qed.

(** X5: a [record] command line with fewer than six arguments, or with
    no key flag or no device flag among [argv[2]], [argv[3]] and
    [argv[4]], is rejected whatever else it holds: the usage goes to
    stderr, no device is opened, the globals stay as [init] set them
    (but for the freed table) and the exit code is -1.  Flags from
    [argv[5]] on are not looked at.  Between the usage and [SDL_Quit],
    [close] frees the table, handing [free] a pointer that was never
    assigned for every enumerated device without a name, and for none
    when all have one. *)
Theorem incomplete_record_is_rejected
  (P : Platform) (prog cmd : string) (rest : list string)
  (sched : Schedule) (s : State) :
  0 <= SDL_Init P ->
  1 <= SDL_GetNumAudioDevices P ->
  strncmp_eq cmd "record" 6 = true ->
  record_args_complete (prog :: cmd :: rest) = false ->
  let count := Z.min (SDL_GetNumAudioDevices P) MAX_RECORDING_DEVICES in
  main P (prog :: cmd :: rest) sched s
  = (Some (-1),
     set_available_device_names [] (set_available_recording_device_count count s),
     (usage_of_record ++ frees P (Z.to_nat count) ++ [EvQuit])%list) /\
  (frees P (Z.to_nat count) = []
   <-> forall i, 0 <= i < count -> SDL_GetAudioDeviceName P i <> None).
Proof.
  intros Hinit Hn Hcmd Hincomplete count. split; [| apply frees_empty_iff].
  destruct (record_is_not_show_or_listen cmd Hcmd) as (Hshow & Hlisten).
  rewrite (main_after_successful_init P _ sched s Hinit Hn).
  unfold main_after_init. cbn [negb nth].
  assert (Hargc : (Z.of_nat (List.length (prog :: cmd :: rest)) <? 2) = false)
    by (apply Z.ltb_ge; cbn [List.length]; lia).
  rewrite Hargc, Hshow, Hlisten, Hcmd.
  rewrite (main_record_rejects P _ sched _ Hincomplete), frees_of_name_table.
  reflexivity.
Qed.

(** X5, for [voicememo record a b c -k AB -d 0]: both flags are there,
    but past [argv[4]]; with three named devices, and with three
    devices of which the second has no name. *)
Lemma incomplete_record_is_rejected_witness :
  main three_mics
    ["voicememo"; "record"; "a"; "b"; "c"; "-k"; "AB"; "-d"; "0"]
    silence initial_state
  = (Some (-1), set_available_recording_device_count 3 initial_state,
     (usage_of_record ++ [EvQuit])%list) /\
  events (main (mkPlatform 0 3 (fun i => if i =? 1 then None else Some "mic")
                  (fun _ _ d => (0, d)) "")
            ["voicememo"; "record"; "a"; "b"; "c"; "-k"; "AB"; "-d"; "0"]
            silence initial_state)
  = (usage_of_record
       ++ [EvUndefined "free of a pointer that was never assigned"; EvQuit])%list.
Proof.
  split.
  - destruct (incomplete_record_is_rejected
                three_mics "voicememo" "record" ["a"; "b"; "c"; "-k"; "AB"; "-d"; "0"]
                silence initial_state) as (Hrun & _).
    + vm_compute. congruence.
    + vm_compute. congruence.
    + reflexivity.
    + reflexivity.
    + rewrite Hrun. reflexivity.
  - destruct (incomplete_record_is_rejected
                (mkPlatform 0 3 (fun i => if i =? 1 then None else Some "mic")
                   (fun _ _ d => (0, d)) "")
                "voicememo" "record" ["a"; "b"; "c"; "-k"; "AB"; "-d"; "0"]
                silence initial_state) as (Hrun & _).
    + vm_compute. congruence.
    + vm_compute. congruence.
    + reflexivity.
    + reflexivity.
    + rewrite Hrun. reflexivity.
Defined.

Lemma main_on_complete_record
  (P : Platform) (prog cmd : string) (rest : list string)
  (sched : Schedule) (s : State) :
  0 <= SDL_Init P ->
  1 <= SDL_GetNumAudioDevices P ->
  strncmp_eq cmd "record" 6 = true ->
  record_args_complete (prog :: cmd :: rest) = true ->
  exists dev,
    scanned_device (prog :: cmd :: rest) = Some dev /\
    main P (prog :: cmd :: rest) sched s
    = bind (handle_command P CMDTYPE_RECORD
              (RecordData (mkArgCmdRecord (scanned_key (prog :: cmd :: rest)) dev)))
        (fun _ => record_and_play sched)
        (set_available_device_names
           (name_table P
              (Z.to_nat (Z.min (SDL_GetNumAudioDevices P) MAX_RECORDING_DEVICES)))
           (set_available_recording_device_count
              (Z.min (SDL_GetNumAudioDevices P) MAX_RECORDING_DEVICES) s)).
Proof.
  intros Hinit Hn Hcmd Hcomplete.
  destruct (record_is_not_show_or_listen cmd Hcmd) as (Hshow & Hlisten).
  destruct (main_record_accepts P (prog :: cmd :: rest) sched
              (set_available_device_names
                 (name_table P
                    (Z.to_nat (Z.min (SDL_GetNumAudioDevices P) MAX_RECORDING_DEVICES)))
                 (set_available_recording_device_count
                    (Z.min (SDL_GetNumAudioDevices P) MAX_RECORDING_DEVICES) s))
              Hcomplete)
    as (dev & Hscan & Hrun).
  exists dev. split; [exact Hscan |].
  rewrite (main_after_successful_init P _ sched s Hinit Hn).
  unfold main_after_init. cbn [negb nth].
  assert (Hargc : (Z.of_nat (List.length (prog :: cmd :: rest)) <? 2) = false)
    by (apply Z.ltb_ge; cbn [List.length]; lia).
  rewrite Hargc, Hshow, Hlisten, Hcmd. exact Hrun.
Qed.

(** X6: a [record] command line with six arguments or more and both
    flags among [argv[2..4]] is handed to [handle_command], and the
    polling follows.  The key it hands over is the argument after the
    last key flag, cut to 4 characters; the device is what [strtol]
    reads in the argument after the last device flag, an [int]; the
    device field is never read unassigned. *)
Theorem complete_record_is_handled
  (P : Platform) (prog cmd : string) (rest : list string)
  (sched : Schedule) (s : State) :
  0 <= SDL_Init P ->
  1 <= SDL_GetNumAudioDevices P ->
  strncmp_eq cmd "record" 6 = true ->
  record_args_complete (prog :: cmd :: rest) = true ->
  exists dev,
    scanned_device (prog :: cmd :: rest) = Some dev /\
    - 2 ^ 31 <= dev < 2 ^ 31 /\
    (String.length (scanned_key (prog :: cmd :: rest)) <= 4)%nat /\
    main P (prog :: cmd :: rest) sched s
    = bind (handle_command P CMDTYPE_RECORD
              (RecordData (mkArgCmdRecord (scanned_key (prog :: cmd :: rest)) dev)))
        (fun _ => record_and_play sched)
        (set_available_device_names
           (name_table P
              (Z.to_nat (Z.min (SDL_GetNumAudioDevices P) MAX_RECORDING_DEVICES)))
           (set_available_recording_device_count
              (Z.min (SDL_GetNumAudioDevices P) MAX_RECORDING_DEVICES) s)).
Proof.
  intros Hinit Hn Hcmd Hcomplete.
  destruct (main_on_complete_record P prog cmd rest sched s Hinit Hn Hcmd Hcomplete)
    as (dev & Hscan & Hrun).
  exists dev. split; [exact Hscan |]. split; [| split].
  - unfold scanned_device in Hscan.
    repeat match type of Hscan with
           | (if ?c then _ else _) = _ => destruct c
           end;
      try discriminate; injection Hscan as <-; apply to_int_range.
  - unfold scanned_key, strncpy.
    repeat match goal with
           | |- context [if ?c then _ else _] => destruct c
           end;
      try apply substring_length_le; cbn; lia.
  - exact Hrun.
Qed.

(** X6, for [voicememo record --key -k -d 2]: the second key flag wins,
    and the key it takes is the device flag that follows it. *)
Lemma complete_record_is_handled_witness :
  exists dev,
    scanned_device ["voicememo"; "record"; "--key"; "-k"; "-d"; "2"] = Some dev /\
    dev = 2 /\
    scanned_key ["voicememo"; "record"; "--key"; "-k"; "-d"; "2"] = "-d".
Proof.
  destruct (complete_record_is_handled
              three_mics "voicememo" "record" ["--key"; "-k"; "-d"; "2"]
              silence initial_state)
    as (dev & Hscan & _).
  - vm_compute. congruence.
  - vm_compute. congruence.
  - reflexivity.
  - reflexivity.
  - exists dev. split; [exact Hscan |].
    vm_compute in Hscan. injection Hscan as <-. split; reflexivity.
Defined.

(* ------------------------------------------------------------------ *)
(** ** Decimal device indices *)

Lemma digits_value_stops (junk : string) (acc : Z) :
  starts_with_digit junk = false -> digits_value junk acc = acc.
Proof.
  destruct junk as [| c junk]; [reflexivity |]. cbn.
  destruct (digit_value c); [discriminate | reflexivity].
Qed.

Lemma digits_value_of_uint_acc (d : Decimal.uint) :
  forall (acc : positive) (junk : string),
    starts_with_digit junk = false ->
    digits_value (NilEmpty.string_of_uint d ++ junk) (Z.pos acc)
    = Z.pos (Pos.of_uint_acc d acc).
Proof.
  induction d; intros acc junk Hjunk;
    try (cbn [NilEmpty.string_of_uint append digits_value Pos.of_uint_acc];
         change (digit_value _) with (Some 0) || change (digit_value _) with (Some 1)
         || change (digit_value _) with (Some 2) || change (digit_value _) with (Some 3)
         || change (digit_value _) with (Some 4) || change (digit_value _) with (Some 5)
         || change (digit_value _) with (Some 6) || change (digit_value _) with (Some 7)
         || change (digit_value _) with (Some 8) || change (digit_value _) with (Some 9);
         rewrite <- (IHd _ junk Hjunk); f_equal; lia).
  cbn [NilEmpty.string_of_uint append Pos.of_uint_acc].
  apply digits_value_stops. exact Hjunk.
Qed.

Lemma digits_value_of_uint (d : Decimal.uint) :
  forall junk,
    starts_with_digit junk = false ->
    digits_value (NilEmpty.string_of_uint d ++ junk) 0 = Z.of_N (Pos.of_uint d).
Proof.
  induction d; intros junk Hjunk;
    cbn [NilEmpty.string_of_uint append digits_value Pos.of_uint];
    try (change (digit_value _) with (Some 1) || change (digit_value _) with (Some 2)
         || change (digit_value _) with (Some 3) || change (digit_value _) with (Some 4)
         || change (digit_value _) with (Some 5) || change (digit_value _) with (Some 6)
         || change (digit_value _) with (Some 7) || change (digit_value _) with (Some 8)
         || change (digit_value _) with (Some 9);
         cbn [Z.mul Z.add Z.of_N];
         apply (digits_value_of_uint_acc d _ junk Hjunk)).
  - apply digits_value_stops. exact Hjunk.
  - change (digit_value _) with (Some 0). cbn [Z.mul Z.add]. apply IHd. exact Hjunk.
Qed.

(** The first character of a decimal numeral is a digit: no white
    space, no sign. *)
Lemma string_of_uint_head (d : Decimal.uint) :
  d <> Decimal.Nil ->
  exists c tail,
    NilEmpty.string_of_uint d = String c tail /\
    isspace c = false /\ c <> "-"%char /\ c <> "+"%char /\ digit_value c <> None.
Proof.
  intros Hd. destruct d; [congruence | ..];
    eexists; eexists; (split; [reflexivity |]);
    repeat split; discriminate.
Qed.

Lemma strtol_of_numeral (d : Decimal.uint) (junk : string) :
  d <> Decimal.Nil ->
  starts_with_digit junk = false ->
  strtol (NilEmpty.string_of_uint d ++ junk)
  = Z.max LONG_MIN (Z.min LONG_MAX (Z.of_N (Pos.of_uint d))) /\
  strtol (String "-" (NilEmpty.string_of_uint d ++ junk))
  = Z.max LONG_MIN (Z.min LONG_MAX (- Z.of_N (Pos.of_uint d))).
Proof.
  intros Hd Hjunk.
  pose proof (digits_value_of_uint d junk Hjunk) as Hvalue.
  destruct (string_of_uint_head d Hd) as (c & tail & Hstr & Hspace & Hminus & Hplus & Hdigit).
  rewrite Hstr in *. cbn [append] in *.
  assert (Hstart : starts_with_digit (String c (tail ++ junk)) = true)
    by (cbn; destruct (digit_value c); [reflexivity | congruence]).
  assert (Hsign : take_sign (String c (tail ++ junk)) = (false, String c (tail ++ junk))).
  { unfold take_sign.
    destruct (Ascii.eqb c "-") eqn:E1; [apply Ascii.eqb_eq in E1; congruence |].
    destruct (Ascii.eqb c "+") eqn:E2; [apply Ascii.eqb_eq in E2; congruence |].
    destruct c as [[] [] [] [] [] [] [] []]; try reflexivity; discriminate. }
  split.
  - unfold strtol. cbn [skip_spaces]. rewrite Hspace, Hsign, Hstart, Hvalue. reflexivity.
  - unfold strtol. cbn [skip_spaces]. change (isspace "-") with false.
    cbn [take_sign]. rewrite Hstart, Hvalue. reflexivity.
Qed.

(** [strtol] reads back what [%d] prints, whatever follows the number
    as long as it is no digit. *)
Lemma strtol_string_of_Z (n : Z) (junk : string) :
  LONG_MIN <= n <= LONG_MAX ->
  starts_with_digit junk = false ->
  strtol (string_of_Z n ++ junk) = n.
Proof.
  intros Hrange Hjunk. unfold string_of_Z, Z.to_int.
  destruct n as [| p | p].
  - cbn [NilZero.string_of_int NilZero.string_of_uint].
    destruct (strtol_of_numeral (Decimal.D0 Decimal.Nil) junk ltac:(discriminate) Hjunk)
      as (Hpos & _).
    rewrite Hpos. reflexivity.
  - cbn [NilZero.string_of_int]. unfold NilZero.string_of_uint.
    pose proof (Unsigned.to_uint_nonnil p) as Hnonnil.
    destruct (strtol_of_numeral (Pos.to_uint p) junk Hnonnil Hjunk) as (Hpos & _).
    destruct (Pos.to_uint p) eqn:Hd; [congruence | ..];
      rewrite Hpos, <- Hd, Unsigned.of_to; cbn [Z.of_N]; lia.
  - cbn [NilZero.string_of_int]. unfold NilZero.string_of_uint.
    pose proof (Unsigned.to_uint_nonnil p) as Hnonnil.
    destruct (strtol_of_numeral (Pos.to_uint p) junk Hnonnil Hjunk) as (_ & Hneg).
    cbn [append].
    destruct (Pos.to_uint p) eqn:Hd; [congruence | ..];
      rewrite Hneg, <- Hd, Unsigned.of_to; cbn [Z.of_N]; lia.
Qed.

Lemma to_int_small (n : Z) : - 2 ^ 31 <= n < 2 ^ 31 -> to_int n = n.
Proof. intros Hn. unfold to_int. rewrite Z.mod_small; lia. Qed.

Lemma canonical_record_is_complete
  (prog kflag k dflag v : string) (rest : list string) :
  kflag = "-k" \/ kflag = "--key" ->
  dflag = "-d" \/ dflag = "--device" ->
  record_args_complete (prog :: "record" :: kflag :: k :: dflag :: v :: rest) = true /\
  scanned_device (prog :: "record" :: kflag :: k :: dflag :: v :: rest)
  = Some (to_int (strtol v)).
Proof.
  intros Hkf Hdf.
  destruct (key_flag_spelling kflag Hkf) as (Hk & _).
  destruct (device_flag_spelling dflag Hdf) as (Hd1 & Hd2).
  unfold record_args_complete, scanned_device, counts_as_device_flag.
  cbn [nth List.length]. rewrite Hk, Hd1, Hd2. cbn [negb andb orb].
  split; [| reflexivity].
  rewrite !orb_true_r, !andb_true_r. apply Z.leb_le. lia.
Qed.

(** X7: the device index on the command line is read in decimal and
    selects that device.  For every [int] n, [record -k KEY -d] followed
    by the decimal text of n (and by any characters that do not begin
    with a digit) hands device n to [handle_command]; when n is below
    the enumerated count, the device SDL names for index n is opened
    for capture; when n is at or past the count nothing is opened and
    the exit code is -1. *)
Theorem decimal_index_selects_that_device
  (P : Platform) (prog kflag k dflag junk : string) (n : Z) (rest : list string)
  (sched : Schedule) (s : State) :
  kflag = "-k" \/ kflag = "--key" ->
  dflag = "-d" \/ dflag = "--device" ->
  - 2 ^ 31 <= n < 2 ^ 31 ->
  starts_with_digit junk = false ->
  0 <= SDL_Init P ->
  1 <= SDL_GetNumAudioDevices P ->
  recording_state s = SELECTING_DEVICE ->
  let argv := prog :: "record" :: kflag :: k :: dflag :: (string_of_Z n ++ junk) :: rest in
  let count := Z.min (SDL_GetNumAudioDevices P) MAX_RECORDING_DEVICES in
  strtol (string_of_Z n ++ junk) = n /\
  scanned_device argv = Some n /\
  (n < count ->
   In (EvOpen (SDL_GetAudioDeviceName P n) true) (events (main P argv sched s))) /\
  (count <= n ->
   value (main P argv sched s) = Some (-1) /\
   forall name iscapture, ~ In (EvOpen name iscapture) (events (main P argv sched s))).
Proof.
  intros Hkf Hdf Hn Hjunk Hinit Hnum Hst argv count.
  assert (Hstrtol : strtol (string_of_Z n ++ junk) = n)
    by (apply strtol_string_of_Z; [unfold LONG_MIN, LONG_MAX; lia | exact Hjunk]).
  destruct (canonical_record_is_complete prog kflag k dflag (string_of_Z n ++ junk) rest
              Hkf Hdf) as (Hcomplete & Hscan).
  rewrite Hstrtol, (to_int_small n Hn) in Hscan.
  destruct (main_on_complete_record P prog "record" _ sched s Hinit Hnum eq_refl Hcomplete)
    as (dev & Hscan' & Hrun).
  rewrite Hscan in Hscan'. injection Hscan' as <-.
  fold argv in Hrun, Hscan. fold count in Hrun.
  split; [exact Hstrtol |]. split; [exact Hscan |]. split.
  - intros Hlt. rewrite Hrun.
    rewrite events_bind. apply in_or_app; left.
    unfold handle_command. rewrite events_bind. apply in_or_app; left.
    apply (handle_record_opens P (mkArgCmdRecord (scanned_key argv) n)). exact Hlt.
  - intros Hge. rewrite Hrun.
    destruct (record_index_past_count_is_rejected P
                (mkArgCmdRecord (scanned_key argv) n) sched
                (set_available_device_names (name_table P (Z.to_nat count))
                   (set_available_recording_device_count count s)) Hge Hst)
      as (Hvalue & _ & _ & Hevents).
    split; [exact Hvalue |].
    intros name iscapture Hin. rewrite Hevents in Hin.
    destruct Hin as [Hin | [Hin | Hin]]; [discriminate | discriminate |].
    apply in_app_or in Hin. destruct Hin as [Hin | [Hin | []]]; [| discriminate].
    pose proof (frees_of_undefined
                  (set_available_device_names (name_table P (Z.to_nat count))
                     (set_available_recording_device_count count s))) as Hfrees.
    rewrite Forall_forall in Hfrees. destruct (Hfrees _ Hin) as [what Hwhat].
    discriminate Hwhat.
Qed.

(** X7, for [voicememo record -k AB -d 2nd] with three devices. *)
Lemma decimal_index_selects_that_device_witness :
  scanned_device ["voicememo"; "record"; "-k"; "AB"; "-d"; "2nd"] = Some 2 /\
  In (EvOpen (Some "mic") true)
     (events (main slow_mics ["voicememo"; "record"; "-k"; "AB"; "-d"; "2nd"]
                silence initial_state)).
Proof.
  destruct (decimal_index_selects_that_device
              slow_mics "voicememo" "-k" "AB" "-d" "nd" 2 [] silence initial_state)
    as (_ & Hscan & Hopen & _).
  - left; reflexivity.
  - left; reflexivity.
  - vm_compute. split; congruence.
  - reflexivity.
  - vm_compute. congruence.
  - vm_compute. congruence.
  - reflexivity.
  - split; [exact Hscan |]. apply Hopen. vm_compute. reflexivity.
Defined.

(* ------------------------------------------------------------------ *)
(** ** Devices that do not open *)

Lemma handle_record_capture_fails
  (P : Platform) (param : ArgCmdRecord) (s : State) (received : SDL_AudioSpec) :
  device param < available_recording_device_count s ->
  SDL_OpenAudioDevice P (SDL_GetAudioDeviceName P (device param)) true
    (desired_spec recording_cb) = (0, received) ->
  handle_record P param s
  = (tt,
     set_recording_state ERROR
       (set_received_recording_spec received (set_recording_deviceid 0 s)),
     [EvPrint (": param key = " ++ key param ++ nl);
      EvPrint (": param device = " ++ string_of_Z (device param) ++ nl);
      EvOpen (SDL_GetAudioDeviceName P (device param)) true;
      EvPerror ("[Error] Failed to open audio device [" ++ string_of_Z (device param)
                  ++ "]: " ++ SDL_GetError P ++ nl)]).
Proof.
  intros Hlt Hrec. apply Z.ltb_lt in Hlt.
  unfold handle_record, bind, get, put, PRINT, PERROR, emit.
  cbn -[string_of_Z append]. rewrite Hlt, Hrec. reflexivity.
Qed.

Lemma handle_record_playback_fails
  (P : Platform) (param : ArgCmdRecord) (s : State)
  (id : Z) (received preceived : SDL_AudioSpec) :
  device param < available_recording_device_count s ->
  SDL_OpenAudioDevice P (SDL_GetAudioDeviceName P (device param)) true
    (desired_spec recording_cb) = (id, received) ->
  id <> 0 ->
  SDL_OpenAudioDevice P None false (desired_spec playback_cb) = (0, preceived) ->
  handle_record P param s
  = (tt,
     set_recording_state ERROR
       (set_received_playback_spec preceived
          (set_playback_deviceid 0
             (set_received_recording_spec received (set_recording_deviceid id s)))),
     [EvPrint (": param key = " ++ key param ++ nl);
      EvPrint (": param device = " ++ string_of_Z (device param) ++ nl);
      EvOpen (SDL_GetAudioDeviceName P (device param)) true;
      EvOpen None false;
      EvPerror ("[Error] Failed to open playback device! " ++ SDL_GetError P ++ nl)]).
Proof.
  intros Hlt Hrec Hid Hplay. apply Z.ltb_lt in Hlt. apply Z.eqb_neq in Hid.
  unfold handle_record, bind, get, put, PRINT, PERROR, emit.
  cbn -[string_of_Z append]. rewrite Hlt, Hrec.
  cbn -[string_of_Z append]. rewrite Hid.
  cbn -[string_of_Z append]. rewrite Hplay. reflexivity.
Qed.

Lemma record_and_play_after_error (sched : Schedule) (s : State) :
  recording_state s = ERROR ->
  record_and_play sched s
  = (Some (-1), set_available_device_names [] s, (frees_of s ++ [EvQuit])%list).
Proof.
  intros Hst. unfold record_and_play. unfold bind at 1. unfold get at 1. rewrite Hst.
  cbn [RecordingState_eqb]. rewrite close_then_ret. reflexivity.
Qed.

(** X8: a device that does not open ends the command with the state
    [ERROR] and exit code -1, whatever the schedule.  When the capture
    device fails, the playback device is not asked for; when the
    playback device fails, the capture device stays open but is never
    started.  In both cases no block is allocated, the sizes and the
    cursor are left alone, and the only output after the two echo lines
    is the error on stderr. *)
Theorem failed_open_ends_in_error
  (P : Platform) (param : ArgCmdRecord) (sched : Schedule) (s : State)
  (id : Z) (received : SDL_AudioSpec) :
  device param < available_recording_device_count s ->
  SDL_OpenAudioDevice P (SDL_GetAudioDeviceName P (device param)) true
    (desired_spec recording_cb) = (id, received) ->
  id = 0 \/ fst (SDL_OpenAudioDevice P None false (desired_spec playback_cb)) = 0 ->
  let r := bind (handle_command P CMDTYPE_RECORD (RecordData param))
             (fun _ => record_and_play sched) s in
  value r = Some (-1) /\
  recording_state (globals r) = ERROR /\
  recording_buffer (globals r) = recording_buffer s /\
  buffer_byte_size (globals r) = buffer_byte_size s /\
  buffer_byte_max_position (globals r) = buffer_byte_max_position s /\
  buffer_byte_position (globals r) = buffer_byte_position s /\
  (forall dev pause_on, ~ In (EvPause dev pause_on) (events r)) /\
  (id = 0 -> ~ In (EvOpen None false) (events r)) /\
  (id <> 0 ->
   In (EvOpen None false) (events r) /\ recording_deviceid (globals r) = id).
Proof.
  intros Hlt Hrec Hfail. cbv zeta.
  destruct (Z.eq_dec id 0) as [-> | Hid].
  - pose proof (handle_record_capture_fails P param s received Hlt Hrec) as Hrun.
    unfold handle_command.
    rewrite (bind_run _ _ _ _ _ _
               (bind_run _ (fun _ => handle_key_press) _ _ _ _ Hrun)).
    rewrite handle_key_press_idle.
    cbn [value globals events fst snd app].
    rewrite record_and_play_after_error by reflexivity.
    cbn [value globals events fst snd app].
    do 6 (split; [reflexivity |]). split; [| split].
    + intros dev pause_on Hin.
      repeat (destruct Hin as [Hin | Hin]; [discriminate |]).
      apply in_close_events in Hin. destruct Hin as [[what Hin] | Hin]; discriminate.
    + intros _ Hin.
      repeat (destruct Hin as [Hin | Hin]; [discriminate |]).
      apply in_close_events in Hin. destruct Hin as [[what Hin] | Hin]; discriminate.
    + congruence.
  - destruct Hfail as [Hfail | Hfail]; [congruence |].
    destruct (SDL_OpenAudioDevice P None false (desired_spec playback_cb))
      as [pid preceived] eqn:Hplay.
    cbn [fst] in Hfail. subst pid.
    pose proof (handle_record_playback_fails P param s id received preceived
                  Hlt Hrec Hid Hplay) as Hrun.
    unfold handle_command.
    rewrite (bind_run _ _ _ _ _ _
               (bind_run _ (fun _ => handle_key_press) _ _ _ _ Hrun)).
    rewrite handle_key_press_idle.
    cbn [value globals events fst snd app].
    rewrite record_and_play_after_error by reflexivity.
    cbn [value globals events fst snd app].
    do 6 (split; [reflexivity |]). split; [| split].
    + intros dev pause_on Hin.
      repeat (destruct Hin as [Hin | Hin]; [discriminate |]).
      apply in_close_events in Hin. destruct Hin as [[what Hin] | Hin]; discriminate.
    + congruence.
    + intros _. split; [| reflexivity].
      right; right; right; left; reflexivity.
Qed.

(** X8, with three devices of which none opens, and with three devices
    and no playback device. *)
Lemma failed_open_ends_in_error_witness :
  value (bind (handle_command
                 (mkPlatform 0 3 (fun _ => Some "mic") (fun _ _ d => (0, d)) "busy")
                 CMDTYPE_RECORD (RecordData (mkArgCmdRecord "AB" 1)))
           (fun _ => record_and_play silence)
           (set_available_recording_device_count 3 initial_state))
  = Some (-1) /\
  recording_state
    (globals (bind (handle_command
                      (mkPlatform 0 3 (fun _ => Some "mic")
                         (fun _ iscapture d => (if iscapture then 2 else 0, d)) "busy")
                      CMDTYPE_RECORD (RecordData (mkArgCmdRecord "AB" 1)))
                (fun _ => record_and_play silence)
                (set_available_recording_device_count 3 initial_state)))
  = ERROR.
Proof.
  split.
  - destruct (failed_open_ends_in_error
                (mkPlatform 0 3 (fun _ => Some "mic") (fun _ _ d => (0, d)) "busy")
                (mkArgCmdRecord "AB" 1) silence
                (set_available_recording_device_count 3 initial_state)
                0 (desired_spec recording_cb))
      as (Hvalue & _).
    + reflexivity.
    + reflexivity.
    + left; reflexivity.
    + exact Hvalue.
  - destruct (failed_open_ends_in_error
                (mkPlatform 0 3 (fun _ => Some "mic")
                   (fun _ iscapture d => (if iscapture then 2 else 0, d)) "busy")
                (mkArgCmdRecord "AB" 1) silence
                (set_available_recording_device_count 3 initial_state)
                2 (desired_spec recording_cb))
      as (_ & Hstate & _).
    + reflexivity.
    + reflexivity.
    + right; reflexivity.
    + exact Hstate.
Defined.

(* ------------------------------------------------------------------ *)
(** ** [update], again *)

(** X9: [update] changes nothing but the state, and that only to
    [RECORDED]; calling it again changes nothing more, and after a call
    that moved to [RECORDED] the next call does and prints nothing.  It
    never starts a device, and outside [RECORDING] and [PLAYBACK] it has
    no effect at all. *)
Theorem update_changes_only_the_state (s : State) :
  (globals (update s) = s \/ globals (update s) = set_recording_state RECORDED s) /\
  globals (update (globals (update s))) = globals (update s) /\
  (globals (update s) <> s -> update (globals (update s)) = (tt, globals (update s), [])) /\
  (forall dev, ~ In (EvPause dev false) (events (update s))) /\
  (recording_state s <> RECORDING -> recording_state s <> PLAYBACK ->
   update s = (tt, s, [])).
Proof.
  assert (Hcases :
    (recording_state s = RECORDING /\
       buffer_byte_max_position s < buffer_byte_position s)
    \/ (recording_state s = PLAYBACK /\
       buffer_byte_max_position s < buffer_byte_position s)
    \/ ((recording_state s = RECORDING \/ recording_state s = PLAYBACK) /\
       buffer_byte_position s <= buffer_byte_max_position s)
    \/ (recording_state s <> RECORDING /\ recording_state s <> PLAYBACK)).
  { destruct (recording_state s);
      destruct (Z.lt_ge_cases (buffer_byte_max_position s) (buffer_byte_position s));
      intuition congruence. }
  assert (Hdone : update (set_recording_state RECORDED s)
                  = (tt, set_recording_state RECORDED s, []))
    by (apply update_idle; cbn; discriminate).
  split; [| split; [| split; [| split]]].
  - destruct Hcases as [[Hst Hlt] | [[Hst Hlt] | [[Hst Hle] | [Hr Hp]]]].
    + right. rewrite (update_recording_complete s) by assumption. reflexivity.
    + right. rewrite (update_playback_complete s) by assumption. reflexivity.
    + left. rewrite (update_pending s) by assumption. reflexivity.
    + left. rewrite (update_idle s) by assumption. reflexivity.
  - destruct Hcases as [[Hst Hlt] | [[Hst Hlt] | [[Hst Hle] | [Hr Hp]]]].
    + rewrite (update_recording_complete s) by assumption. cbn [globals fst snd].
      rewrite Hdone. reflexivity.
    + rewrite (update_playback_complete s) by assumption. cbn [globals fst snd].
      rewrite Hdone. reflexivity.
    + rewrite (update_pending s) by assumption. cbn [globals fst snd].
      rewrite (update_pending s) by assumption. reflexivity.
    + rewrite (update_idle s) by assumption. cbn [globals fst snd].
      rewrite (update_idle s) by assumption. reflexivity.
  - destruct Hcases as [[Hst Hlt] | [[Hst Hlt] | [[Hst Hle] | [Hr Hp]]]].
    + rewrite (update_recording_complete s) by assumption. cbn [globals fst snd].
      intros _. exact Hdone.
    + rewrite (update_playback_complete s) by assumption. cbn [globals fst snd].
      intros _. exact Hdone.
    + rewrite (update_pending s) by assumption. cbn [globals fst snd]. congruence.
    + rewrite (update_idle s) by assumption. cbn [globals fst snd]. congruence.
  - intros dev Hin.
    destruct Hcases as [[Hst Hlt] | [[Hst Hlt] | [[Hst Hle] | [Hr Hp]]]].
    + rewrite (update_recording_complete s) in Hin by assumption.
      repeat (destruct Hin as [Hin | Hin]; [discriminate |]). exact Hin.
    + rewrite (update_playback_complete s) in Hin by assumption.
      repeat (destruct Hin as [Hin | Hin]; [discriminate |]). exact Hin.
    + rewrite (update_pending s) in Hin by assumption.
      repeat (destruct Hin as [Hin | Hin]; [discriminate |]). exact Hin.
    + rewrite (update_idle s) in Hin by assumption. exact Hin.
  - apply update_idle.
Qed.

(** X9, at the end of a pass on the 12-byte block: the second call of
    [update] does nothing. *)
Lemma update_changes_only_the_state_witness :
  update (globals (update recording_at_11)) = (tt, globals (update recording_at_11), []).
Proof.
  destruct (update_changes_only_the_state recording_at_11) as (_ & _ & Hagain & _).
  apply Hagain. vm_compute. discriminate.
Defined.

(* ------------------------------------------------------------------ *)
(** ** The polling loops *)

Lemma total_app (a b : list (list Byte.byte)) : total (a ++ b) = total a + total b.
Proof. unfold total. rewrite concat_app, length_app. lia. Qed.

Lemma total_nonneg (chunks : list (list Byte.byte)) : 0 <= total chunks.
Proof. unfold total. lia. Qed.

Lemma restore_same (s : State) (st : RecordingState) :
  recording_state s = st ->
  set_recording_state st
    (set_buffer_byte_position (buffer_byte_position s)
       (set_recording_buffer (recording_buffer s) s)) = s.
Proof. intros <-. destruct s; reflexivity. Qed.

(** One turn of the loop of lines 487-494. *)
Lemma recording_loop_turn (chunks : list (list Byte.byte))
  (rest : list (list (list Byte.byte))) (s : State) :
  recording_loop (chunks :: rest) s
  = let r1 := deliver chunks s in
    let r2 := update (globals r1) in
    if RecordingState_eqb (recording_state (globals r2)) RECORDED
    then (true, globals r2, (events r1 ++ events r2)%list)
    else
      let r3 := recording_loop rest (globals r2) in
      (value r3, globals r3, (events r1 ++ events r2 ++ events r3)%list).
Proof.
  cbn [recording_loop]. unfold bind, get, value, globals, events.
  destruct (deliver chunks s) as [[[] s1] e1]. cbn [fst snd].
  destruct (update s1) as [[[] s2] e2]. cbn [fst snd].
  destruct (RecordingState_eqb (recording_state s2) RECORDED).
  - cbn. rewrite app_nil_r. reflexivity.
  - destruct (recording_loop rest s2) as [[b s3] e3]. cbn. reflexivity.
Qed.

(** The recording loop, turn by turn, when no turn brings more bytes
    than the padding holds. *)
Lemma recording_loop_run (turns : list (list (list Byte.byte))) :
  forall s,
    recording_state s = RECORDING ->
    buffer_ok s ->
    buffer_byte_position s <= buffer_byte_max_position s ->
    buffer_byte_max_position s <= buffer_byte_size s ->
    Forall (fun chunks =>
              total chunks <= buffer_byte_size s - buffer_byte_max_position s) turns ->
    let max_pos := buffer_byte_max_position s in
    let pos := buffer_byte_position s in
    let done := crosses max_pos pos (map total turns) in
    let run := List.concat (firstn (turns_taken max_pos pos (map total turns)) turns) in
    value (recording_loop turns s) = done /\
    globals (recording_loop turns s)
    = set_recording_state (if done then RECORDED else RECORDING)
        (set_buffer_byte_position (pos + total run)
           (set_recording_buffer
              (firstn (Z.to_nat pos) (recording_buffer s)
                 ++ List.concat run
                 ++ skipn (Z.to_nat pos + List.length (List.concat run))
                      (recording_buffer s))%list s)) /\
    Forall (inside (buffer_byte_size s)) (events (recording_loop turns s)) /\
    (if done then max_pos < pos + total run else pos + total run <= max_pos) /\
    pos + total run <= buffer_byte_size s.
Proof.
  induction turns as [| chunks rest IH]; intros s Hst Hok Hpos Hmax Hturns; cbv zeta.
  - cbn [recording_loop map crosses turns_taken firstn List.concat app List.length].
    unfold ret, total. cbn [value globals events fst snd List.concat List.length Z.of_nat].
    rewrite Nat.add_0_r, Z.add_0_r, firstn_skipn, (restore_same s RECORDING Hst).
    destruct Hok as (Hlen & H0 & Hsize).
    split; [reflexivity |]. split; [reflexivity |]. split; [constructor |].
    split; lia.
  - inversion Hturns as [| ? ? Hfit Hrest]; subst.
    pose proof Hok as (Hlen & H0 & Hsize).
    pose proof (total_nonneg chunks) as Hnonneg.
    assert (Hfit' : buffer_byte_position s + total chunks <= buffer_byte_size s) by lia.
    rewrite recording_loop_turn. cbv zeta.
    rewrite (deliver_inside chunks s Hok Hfit').
    cbn [globals events fst snd].
    set (block1 := (firstn (Z.to_nat (buffer_byte_position s)) (recording_buffer s)
                      ++ List.concat chunks
                      ++ skipn (Z.to_nat (buffer_byte_position s)
                                + List.length (List.concat chunks))
                           (recording_buffer s))%list).
    set (s1 := set_buffer_byte_position (buffer_byte_position s + total chunks)
                 (set_recording_buffer block1 s)).
    assert (Hin : (Z.to_nat (buffer_byte_position s) + List.length (List.concat chunks)
                   <= List.length (recording_buffer s))%nat)
      by (unfold total in Hfit'; lia).
    assert (Hok1 : buffer_ok s1).
    { repeat split; cbn; [| lia | exact Hsize].
      unfold block1. rewrite <- (memcpy_to_inside _ _ _ Hin), memcpy_to_length.
      exact Hlen. }
    assert (Hstores : Forall (inside (buffer_byte_size s))
                        (stores (buffer_byte_position s) chunks))
      by (apply stores_inside; assumption).
    cbn [map crosses turns_taken].
    destruct (buffer_byte_max_position s <? buffer_byte_position s + total chunks)
      eqn:Hcross.
    + apply Z.ltb_lt in Hcross.
      rewrite (update_recording_complete s1) by (cbn; assumption).
      cbn [globals events fst snd recording_state set_recording_state RecordingState_eqb].
      cbn [firstn List.concat]. rewrite app_nil_r.
      split; [reflexivity |]. split; [reflexivity |].
      split; [| split; assumption].
      apply Forall_app. split; [exact Hstores |].
      repeat constructor.
    + apply Z.ltb_ge in Hcross.
      rewrite (update_pending s1) by (cbn; auto).
      cbn [globals events fst snd]. change (recording_state s1) with (recording_state s).
      rewrite Hst. cbn [RecordingState_eqb].
      destruct (IH s1 Hst Hok1) as (Hval & Hglob & Hev & Hdone & Hend).
      { cbn. exact Hcross. }
      { exact Hmax. }
      { exact Hrest. }
      change (buffer_byte_max_position s1) with (buffer_byte_max_position s) in *.
      change (buffer_byte_position s1) with (buffer_byte_position s + total chunks) in *.
      change (buffer_byte_size s1) with (buffer_byte_size s) in *.
      change (recording_buffer s1) with block1 in *.
      cbn [value globals events fst snd firstn List.concat].
      set (run' := List.concat
                     (firstn (turns_taken (buffer_byte_max_position s)
                                (buffer_byte_position s + total chunks) (map total rest))
                        rest)) in *.
      assert (Hp : Z.to_nat (buffer_byte_position s + total chunks)
                   = (Z.to_nat (buffer_byte_position s)
                      + List.length (List.concat chunks))%nat)
        by (unfold total; rewrite Z2Nat.inj_add, Nat2Z.id; lia).
      rewrite Hp in Hglob.
      unfold block1 in Hglob.
      rewrite (store_after_store (recording_buffer s) (List.concat chunks)
                 (List.concat run') _ Hin) in Hglob.
      rewrite total_app, concat_app, length_app, Z.add_assoc.
      split; [exact Hval |]. split; [rewrite Hglob; reflexivity |].
      split; [| split; assumption].
      apply Forall_app. split; [exact Hstores |].
      constructor; [exact I | exact Hev].
Qed.

Lemma sum_lens_app (a b : list nat) : sum_lens (a ++ b) = (sum_lens a + sum_lens b)%nat.
Proof.
  unfold sum_lens. induction a as [| n a IH]; [reflexivity |].
  cbn [app fold_right]. rewrite IH. lia.
Qed.

Lemma streamed_app (a b : list Event) : streamed (a ++ b) = (streamed a ++ streamed b)%list.
Proof.
  induction a as [| e a IH]; [reflexivity |].
  destruct e; cbn [app streamed]; rewrite ?IH, ?app_assoc; reflexivity.
Qed.

(** The playback callbacks hand nothing to SDL by themselves, and their
    loads are inside the block when the request fits. *)
Lemma consume_events (lens : list nat) :
  forall s,
    buffer_ok s ->
    buffer_byte_position s + Z.of_nat (sum_lens lens) <= buffer_byte_size s ->
    streamed (events (consume lens s)) = [] /\
    Forall (inside (buffer_byte_size s)) (events (consume lens s)).
Proof.
  induction lens as [| len rest IH]; intros s (Hlen & Hpos & Hsize) Hfit.
  - split; [reflexivity | constructor].
  - cbn [sum_lens fold_right] in Hfit. fold (sum_lens rest) in Hfit.
    rewrite Nat2Z.inj_add in Hfit.
    cbn [consume]. rewrite events_bind, audio_playback_callback_run.
    cbn [value globals events fst snd]. rewrite events_bind.
    assert (Hw : to_Uint32 (buffer_byte_position s + Z.of_nat len)
                 = buffer_byte_position s + Z.of_nat len)
      by (unfold to_Uint32; apply Z.mod_small; lia).
    rewrite Hw.
    destruct (IH (set_buffer_byte_position (buffer_byte_position s + Z.of_nat len) s))
      as (Hstream & Hinside).
    { repeat split; cbn; [exact Hlen | lia | exact Hsize]. }
    { cbn. lia. }
    cbn [buffer_byte_size set_buffer_byte_position] in Hinside.
    cbn [ret events snd]. rewrite app_nil_r. split.
    + cbn [app streamed]. exact Hstream.
    + constructor; [cbn; lia | exact Hinside].
Qed.

(** One turn of the loop of lines 506-513. *)
Lemma playback_loop_turn (lens : list nat) (rest : list (list nat)) (s : State) :
  playback_loop (lens :: rest) s
  = let r1 := consume lens s in
    let r2 := update (globals r1) in
    if RecordingState_eqb (recording_state (globals r2)) RECORDED
    then (true, globals r2, (events r1 ++ EvStream (value r1) :: events r2)%list)
    else
      let r3 := playback_loop rest (globals r2) in
      (value r3, globals r3,
       (events r1 ++ EvStream (value r1) :: events r2 ++ events r3)%list).
Proof.
  cbn [playback_loop]. unfold bind, get, emit, value, globals, events.
  destruct (consume lens s) as [[stream s1] e1]. cbn [fst snd].
  destruct (update s1) as [[[] s2] e2]. cbn [fst snd].
  destruct (RecordingState_eqb (recording_state s2) RECORDED).
  - cbn. rewrite app_nil_r. reflexivity.
  - destruct (playback_loop rest s2) as [[b s3] e3]. cbn. reflexivity.
Qed.

Lemma set_cursor_same (s : State) (st : RecordingState) :
  recording_state s = st ->
  set_recording_state st (set_buffer_byte_position (buffer_byte_position s) s) = s.
Proof. intros <-. destruct s; reflexivity. Qed.

(** The playback loop, turn by turn, when no turn asks for more bytes
    than the padding holds. *)
Lemma playback_loop_run (turns : list (list nat)) :
  forall s,
    recording_state s = PLAYBACK ->
    buffer_ok s ->
    buffer_byte_position s <= buffer_byte_max_position s ->
    buffer_byte_max_position s <= buffer_byte_size s ->
    Forall (fun lens =>
              Z.of_nat (sum_lens lens)
              <= buffer_byte_size s - buffer_byte_max_position s) turns ->
    let max_pos := buffer_byte_max_position s in
    let pos := buffer_byte_position s in
    let sizes := map (fun lens => Z.of_nat (sum_lens lens)) turns in
    let done := crosses max_pos pos sizes in
    let asked := sum_lens (List.concat (firstn (turns_taken max_pos pos sizes) turns)) in
    value (playback_loop turns s) = done /\
    globals (playback_loop turns s)
    = set_recording_state (if done then RECORDED else PLAYBACK)
        (set_buffer_byte_position (pos + Z.of_nat asked) s) /\
    Forall (inside (buffer_byte_size s)) (events (playback_loop turns s)) /\
    streamed (events (playback_loop turns s))
    = map Some (firstn asked (skipn (Z.to_nat pos) (recording_buffer s))) /\
    (if done then max_pos < pos + Z.of_nat asked else pos + Z.of_nat asked <= max_pos) /\
    pos + Z.of_nat asked <= buffer_byte_size s.
Proof.
  induction turns as [| lens rest IH]; intros s Hst Hok Hpos Hmax Hturns; cbv zeta.
  - cbn [playback_loop map crosses turns_taken firstn List.concat sum_lens fold_right].
    unfold ret. cbn [value globals events fst snd Z.of_nat streamed map].
    rewrite Z.add_0_r, (set_cursor_same s PLAYBACK Hst).
    split; [reflexivity |]. split; [reflexivity |]. split; [constructor |].
    split; [reflexivity |]. split; lia.
  - inversion Hturns as [| ? ? Hfit Hrest]; subst.
    pose proof Hok as (Hlen & H0 & Hsize).
    assert (Hfit' : buffer_byte_position s + Z.of_nat (sum_lens lens)
                    <= buffer_byte_size s) by lia.
    rewrite playback_loop_turn. cbv zeta.
    destruct (consume_inside lens s Hok Hfit') as (Hval1 & Hglob1).
    destruct (consume_events lens s Hok Hfit') as (Hstream1 & Hinside1).
    rewrite Hval1, Hglob1.
    set (s1 := set_buffer_byte_position
                 (buffer_byte_position s + Z.of_nat (sum_lens lens)) s).
    assert (Hok1 : buffer_ok s1) by (repeat split; cbn; [exact Hlen | lia | exact Hsize]).
    cbn [map crosses turns_taken].
    destruct (buffer_byte_max_position s
              <? buffer_byte_position s + Z.of_nat (sum_lens lens)) eqn:Hcross.
    + apply Z.ltb_lt in Hcross.
      rewrite (update_playback_complete s1) by (cbn; assumption).
      cbn [globals events fst snd recording_state set_recording_state RecordingState_eqb].
      cbn [firstn List.concat]. rewrite app_nil_r.
      split; [reflexivity |]. split; [reflexivity |].
      split; [| split; [| split; assumption]].
      * apply Forall_app. split; [exact Hinside1 |]. repeat constructor.
      * rewrite streamed_app, Hstream1. cbn [app streamed]. rewrite app_nil_r.
        reflexivity.
    + apply Z.ltb_ge in Hcross.
      rewrite (update_pending s1) by (cbn; auto).
      cbn [globals events fst snd]. change (recording_state s1) with (recording_state s).
      rewrite Hst. cbn [RecordingState_eqb].
      destruct (IH s1 Hst Hok1) as (Hval & Hglob & Hev & Hstr & Hdone & Hend).
      { cbn. exact Hcross. }
      { exact Hmax. }
      { exact Hrest. }
      change (buffer_byte_max_position s1) with (buffer_byte_max_position s) in *.
      change (buffer_byte_position s1)
        with (buffer_byte_position s + Z.of_nat (sum_lens lens)) in *.
      change (buffer_byte_size s1) with (buffer_byte_size s) in *.
      change (recording_buffer s1) with (recording_buffer s) in *.
      cbn [value globals events fst snd firstn List.concat].
      set (asked' := sum_lens
                       (List.concat
                          (firstn (turns_taken (buffer_byte_max_position s)
                                     (buffer_byte_position s + Z.of_nat (sum_lens lens))
                                     (map (fun lens0 => Z.of_nat (sum_lens lens0)) rest))
                             rest))) in *.
      rewrite sum_lens_app, Nat2Z.inj_add, Z.add_assoc.
      split; [exact Hval |]. split; [rewrite Hglob; reflexivity |].
      split; [| split; [| split; assumption]].
      * apply Forall_app. split; [exact Hinside1 |].
        constructor; [exact I |]. constructor; [exact I | exact Hev].
      * rewrite streamed_app, Hstream1. cbn [app streamed]. rewrite Hstr.
        rewrite firstn_add_skipn, map_app, skipn_skipn.
        rewrite Z2Nat.inj_add, Nat2Z.id by lia.
        rewrite (Nat.add_comm (sum_lens lens)). reflexivity.
Qed.

(** X10: the recording loop of [main] and the padding.  From a state
    that records with the cursor not past [buffer_byte_max_position],
    if no turn of the loop brings more bytes than the block holds past
    that mark, then every store of the capture callback is inside the
    block; the loop ends at the first turn at which the bytes delivered
    pass the mark, in state [RECORDED] with the cursor past the mark
    and within the block, and keeps turning in state [RECORDING] with
    the cursor not past the mark when no turn does; and the block holds
    the delivered chunks, in order, from the first cursor on. *)
Theorem recording_loop_stays_inside_the_block
  (turns : list (list (list Byte.byte))) (s : State) :
  recording_state s = RECORDING ->
  buffer_ok s ->
  buffer_byte_position s <= buffer_byte_max_position s ->
  buffer_byte_max_position s <= buffer_byte_size s ->
  Forall (fun chunks =>
            total chunks <= buffer_byte_size s - buffer_byte_max_position s) turns ->
  let max_pos := buffer_byte_max_position s in
  let pos := buffer_byte_position s in
  let done := crosses max_pos pos (map total turns) in
  let run := List.concat (firstn (turns_taken max_pos pos (map total turns)) turns) in
  let r := recording_loop turns s in
  value r = done /\
  recording_state (globals r) = (if done then RECORDED else RECORDING) /\
  buffer_byte_position (globals r) = pos + total run /\
  (if done then max_pos < buffer_byte_position (globals r)
   else buffer_byte_position (globals r) <= max_pos) /\
  buffer_byte_position (globals r) <= buffer_byte_size s /\
  Forall (inside (buffer_byte_size s)) (events r) /\
  recording_buffer (globals r)
  = (firstn (Z.to_nat pos) (recording_buffer s)
       ++ List.concat run
       ++ skipn (Z.to_nat pos + List.length (List.concat run)) (recording_buffer s))%list.
Proof.
  intros Hst Hok Hpos Hmax Hturns. cbv zeta.
  destruct (recording_loop_run turns s Hst Hok Hpos Hmax Hturns)
    as (Hval & Hglob & Hev & Hdone & Hend).
  rewrite Hglob.
  cbn [recording_state buffer_byte_position recording_buffer
       set_recording_state set_buffer_byte_position set_recording_buffer].
  repeat split; assumption.
Qed.

(** X10, on the 12-byte block: six turns of one chunk of 2 bytes; the
    sixth passes the mark of 10. *)
Lemma recording_loop_stays_inside_the_block_witness :
  value (recording_loop (repeat [[Byte.x01; Byte.x02]] 6)
           (set_buffer_byte_position 0 recording_at_8)) = true /\
  Forall (inside 12)
    (events (recording_loop (repeat [[Byte.x01; Byte.x02]] 6)
               (set_buffer_byte_position 0 recording_at_8))).
Proof.
  destruct (recording_loop_stays_inside_the_block
              (repeat [[Byte.x01; Byte.x02]] 6)
              (set_buffer_byte_position 0 recording_at_8))
    as (Hval & _ & _ & _ & _ & Hinside & _).
  - reflexivity.
  - repeat split; vm_compute; congruence.
  - vm_compute. congruence.
  - vm_compute. congruence.
  - repeat constructor; vm_compute; congruence.
  - split; [rewrite Hval; reflexivity | exact Hinside].
Defined.

(** X11: the playback loop of [main] and the padding.  From a state
    that plays with the cursor not past [buffer_byte_max_position], if
    no turn asks for more bytes than the block holds past that mark,
    then every load is inside the block, the stored bytes are not
    changed, and what is handed to SDL is, in order and without gap,
    the stored bytes from the first cursor on; the loop ends at the
    first turn at which the bytes asked for pass the mark, in state
    [RECORDED]. *)
Theorem playback_loop_streams_the_block (turns : list (list nat)) (s : State) :
  recording_state s = PLAYBACK ->
  buffer_ok s ->
  buffer_byte_position s <= buffer_byte_max_position s ->
  buffer_byte_max_position s <= buffer_byte_size s ->
  Forall (fun lens =>
            Z.of_nat (sum_lens lens)
            <= buffer_byte_size s - buffer_byte_max_position s) turns ->
  let max_pos := buffer_byte_max_position s in
  let pos := buffer_byte_position s in
  let sizes := map (fun lens => Z.of_nat (sum_lens lens)) turns in
  let done := crosses max_pos pos sizes in
  let asked := sum_lens (List.concat (firstn (turns_taken max_pos pos sizes) turns)) in
  let r := playback_loop turns s in
  value r = done /\
  recording_state (globals r) = (if done then RECORDED else PLAYBACK) /\
  buffer_byte_position (globals r) = pos + Z.of_nat asked /\
  (if done then max_pos < buffer_byte_position (globals r)
   else buffer_byte_position (globals r) <= max_pos) /\
  recording_buffer (globals r) = recording_buffer s /\
  Forall (inside (buffer_byte_size s)) (events r) /\
  streamed (events r)
  = map Some (firstn asked (skipn (Z.to_nat pos) (recording_buffer s))).
Proof.
  intros Hst Hok Hpos Hmax Hturns. cbv zeta.
  destruct (playback_loop_run turns s Hst Hok Hpos Hmax Hturns)
    as (Hval & Hglob & Hev & Hstr & Hdone & Hend).
  rewrite Hglob.
  cbn [recording_state buffer_byte_position recording_buffer
       set_recording_state set_buffer_byte_position].
  repeat split; assumption.
Qed.

(** X11, on the 12-byte block: turns asking for 2, 1+1, 2, ... bytes
    from the cursor at 0. *)
Lemma playback_loop_streams_the_block_witness :
  streamed (events (playback_loop [[2]; [1; 1]; [2]; [2]; [2]; [2]; [2]]%nat
                      (set_buffer_byte_position 0 playing_at_8)))
  = map Some twelve.
Proof.
  destruct (playback_loop_streams_the_block
              [[2]; [1; 1]; [2]; [2]; [2]; [2]; [2]]%nat
              (set_buffer_byte_position 0 playing_at_8))
    as (_ & _ & _ & _ & _ & _ & Hstream).
  - reflexivity.
  - repeat split; vm_compute; congruence.
  - vm_compute. congruence.
  - vm_compute. congruence.
  - repeat constructor; vm_compute; congruence.
  - rewrite Hstream. reflexivity.
Defined.

(* ------------------------------------------------------------------ *)
(** ** A recording played back *)

Lemma update_streams_nothing (s : State) : streamed (events (update s)) = [].
Proof.
  unfold update, bind, get, isRecordingComplete, isPlaybackComplete.
  destruct (recording_state s); try reflexivity; cbn;
    destruct (buffer_byte_max_position s <? buffer_byte_position s); reflexivity.
Qed.

Lemma deliver_streams_nothing (chunks : list (list Byte.byte)) :
  forall s, streamed (events (deliver chunks s)) = [].
Proof.
  induction chunks as [| c rest IH]; intros s; [reflexivity |].
  cbn [deliver]. rewrite events_bind, streamed_app, IH. reflexivity.
Qed.

Lemma recording_loop_streams_nothing (turns : list (list (list Byte.byte))) :
  forall s, streamed (events (recording_loop turns s)) = [].
Proof.
  induction turns as [| chunks rest IH]; intros s; [reflexivity |].
  rewrite recording_loop_turn. cbv zeta.
  destruct (RecordingState_eqb _ RECORDED); cbn [events snd];
    rewrite ?streamed_app, ?IH, deliver_streams_nothing, update_streams_nothing;
    reflexivity.
Qed.

(** Lines 481-514, stage by stage, when recording has started. *)
Lemma record_and_play_stages (sched : Schedule) (s : State) :
  recording_state s = RECORDING ->
  record_and_play sched s
  = let r1 := recording_loop (captured sched) s in
    if value r1 then
      let r2 := begin_playback (globals r1) in
      let r3 := playback_loop (requested sched) (globals r2) in
      if value r3
      then (Some 0, set_available_device_names [] (globals r3),
            (events r1 ++ events r2 ++ events r3
               ++ frees_of (globals r3) ++ [EvQuit])%list)
      else (None, globals r3, (events r1 ++ events r2 ++ events r3)%list)
    else (None, globals r1, events r1).
Proof.
  intros Hst. unfold record_and_play, value, globals, events.
  unfold bind at 1. unfold get at 1. cbn [fst snd]. rewrite Hst. cbn [RecordingState_eqb].
  unfold bind at 1.
  destruct (recording_loop (captured sched) s) as [[[] s1] e1]; cbn [fst snd app].
  - unfold bind at 1.
    destruct (begin_playback s1) as [[[] s2] e2]. cbn [fst snd].
    unfold bind at 1.
    destruct (playback_loop (requested sched) s2) as [[[] s3] e3]; cbn [fst snd].
    + rewrite close_then_ret. reflexivity.
    + cbn. rewrite ?app_nil_r. reflexivity.
  - cbn. rewrite ?app_nil_r. reflexivity.
Qed.

Lemma frees_of_streams_nothing (s : State) : streamed (frees_of s) = [].
Proof.
  pose proof (frees_of_undefined s) as Hfrees.
  induction Hfrees as [| e l [what ->] _ IH]; [reflexivity | exact IH].
Qed.

Lemma record_and_play_run (sched : Schedule) (s : State) :
  recording_state s = RECORDING ->
  buffer_ok s ->
  buffer_byte_position s = 0 ->
  0 <= buffer_byte_max_position s <= buffer_byte_size s ->
  Forall (fun chunks =>
            total chunks <= buffer_byte_size s - buffer_byte_max_position s)
    (captured sched) ->
  Forall (fun lens =>
            Z.of_nat (sum_lens lens)
            <= buffer_byte_size s - buffer_byte_max_position s)
    (requested sched) ->
  let max_pos := buffer_byte_max_position s in
  let rec_sizes := map total (captured sched) in
  let recorded :=
    List.concat (List.concat (firstn (turns_taken max_pos 0 rec_sizes) (captured sched))) in
  let block := (recorded ++ skipn (List.length recorded) (recording_buffer s))%list in
  let play_sizes := map (fun lens => Z.of_nat (sum_lens lens)) (requested sched) in
  let asked :=
    sum_lens (List.concat (firstn (turns_taken max_pos 0 play_sizes) (requested sched))) in
  let r := record_and_play sched s in
  value r
  = (if crosses max_pos 0 rec_sizes
     then if crosses max_pos 0 play_sizes then Some 0 else None
     else None) /\
  recording_state (globals r)
  = (if crosses max_pos 0 rec_sizes
     then if crosses max_pos 0 play_sizes then RECORDED else PLAYBACK
     else RECORDING) /\
  recording_buffer (globals r) = block /\
  Forall (inside (buffer_byte_size s)) (events r) /\
  streamed (events r)
  = (if crosses max_pos 0 rec_sizes then map Some (firstn asked block) else []).
Proof.
  intros Hst Hok H0 (Hmax0 & Hmax) Hcap Hreq. cbv zeta.
  rewrite (record_and_play_stages sched s Hst). cbv zeta.
  destruct (recording_loop_run (captured sched) s Hst Hok) as (Hval & Hglob & Hev & Hdone & Hend);
    [rewrite H0; exact Hmax0 | exact Hmax | exact Hcap |].
  rewrite H0 in *. cbn [Z.to_nat firstn app Nat.add] in Hglob.
  set (rec_sizes := map total (captured sched)) in *.
  set (run := List.concat (firstn (turns_taken (buffer_byte_max_position s) 0 rec_sizes)
                             (captured sched))) in *.
  set (block := (List.concat run ++ skipn (List.length (List.concat run))
                                      (recording_buffer s))%list) in *.
  rewrite Hval.
  destruct (crosses (buffer_byte_max_position s) 0 rec_sizes).
  - (* recording is over: playback *)
    rewrite Hglob.
    set (s2 := globals (begin_playback _)).
    assert (Hs2 : s2 = set_recording_state PLAYBACK
                         (set_buffer_byte_position 0 (set_recording_buffer block s)))
      by reflexivity.
    assert (Hblock : List.length block = List.length (recording_buffer s)).
    { unfold block. rewrite length_app, length_skipn.
      destruct Hok as (Hlen & _). unfold total in Hend. fold run in Hend. lia. }
    assert (Hok2 : buffer_ok s2).
    { destruct Hok as (Hlen & _ & Hsize). rewrite Hs2.
      repeat split; cbn; [rewrite Hblock; exact Hlen | lia | exact Hsize]. }
    destruct (playback_loop_run (requested sched) s2) as (Hval3 & Hglob3 & Hev3 & Hstr3 & _);
      [rewrite Hs2; reflexivity | exact Hok2 | rewrite Hs2; cbn; exact Hmax0
       | rewrite Hs2; cbn; exact Hmax | rewrite Hs2; cbn; exact Hreq |].
    change (buffer_byte_max_position s2) with (buffer_byte_max_position s) in *.
    change (buffer_byte_position s2) with 0 in *.
    change (buffer_byte_size s2) with (buffer_byte_size s) in *.
    change (recording_buffer s2) with block in *.
    cbn [Z.to_nat skipn] in Hstr3.
    rewrite Hval3.
    assert (Hbegin : Forall (inside (buffer_byte_size s))
                       (events (begin_playback
                                  (set_recording_state RECORDED
                                     (set_buffer_byte_position (0 + total run)
                                        (set_recording_buffer block s))))))
      by (repeat constructor).
    assert (Hquiet : streamed
                       (events (begin_playback
                                  (set_recording_state RECORDED
                                     (set_buffer_byte_position (0 + total run)
                                        (set_recording_buffer block s))))) = [])
      by reflexivity.
    destruct (crosses (buffer_byte_max_position s) 0
                (map (fun lens => Z.of_nat (sum_lens lens)) (requested sched)));
      cbn [value globals events fst snd]; rewrite Hglob3;
      (split; [reflexivity |]); (split; [reflexivity |]); (split; [reflexivity |]);
      rewrite ?streamed_app, recording_loop_streams_nothing, Hquiet, Hstr3,
        ?frees_of_streams_nothing;
      cbn [app streamed]; rewrite ?app_nil_r;
      (split; [| reflexivity]);
      repeat (apply Forall_app; split); try assumption; try apply frees_of_inside;
      repeat constructor.
  - cbn [value globals events fst snd]. rewrite Hglob.
    split; [reflexivity |]. split; [reflexivity |]. split; [reflexivity |].
    split; [exact Hev | apply recording_loop_streams_nothing].
Qed.

Lemma size_buffer_and_record_events (s : State) :
  events (size_buffer_and_record s)
  = [EvPrint ("buffer size = "
              ++ string_of_Z
                   (to_int (to_Uint32
                              (RECORDING_BUFFER_SECONDS
                               * (freq (received_recording_spec s)
                                  * (channels (received_recording_spec s)
                                     * (SDL_AUDIO_BITSIZE
                                          (format (received_recording_spec s)) / 8))))))
              ++ nl);
     EvPrint ("Device opened successfully" ++ nl);
     EvPause (recording_deviceid s) false;
     EvPrint ("Recording..." ++ nl)].
Proof. reflexivity. Qed.

Lemma handle_command_record_succeeds
  (P : Platform) (param : ArgCmdRecord) (s : State)
  (id pid : Z) (received preceived : SDL_AudioSpec) :
  device param < available_recording_device_count s ->
  SDL_OpenAudioDevice P (SDL_GetAudioDeviceName P (device param)) true
    (desired_spec recording_cb) = (id, received) ->
  id <> 0 ->
  SDL_OpenAudioDevice P None false (desired_spec playback_cb) = (pid, preceived) ->
  pid <> 0 ->
  let opened :=
    set_received_playback_spec preceived
      (set_playback_deviceid pid
         (set_received_recording_spec received (set_recording_deviceid id s))) in
  handle_command P CMDTYPE_RECORD (RecordData param) s
  = (tt, globals (size_buffer_and_record opened),
     ([EvPrint (": param key = " ++ key param ++ nl);
       EvPrint (": param device = " ++ string_of_Z (device param) ++ nl);
       EvOpen (SDL_GetAudioDeviceName P (device param)) true;
       EvOpen None false]
        ++ events (size_buffer_and_record opened))%list).
Proof.
  intros Hlt Hrec Hid Hplay Hpid opened.
  assert (Hrun : handle_record P param s
                 = (tt, globals (size_buffer_and_record opened),
                    ([EvPrint (": param key = " ++ key param ++ nl);
                      EvPrint (": param device = " ++ string_of_Z (device param) ++ nl);
                      EvOpen (SDL_GetAudioDeviceName P (device param)) true;
                      EvOpen None false]
                       ++ events (size_buffer_and_record opened))%list)).
  { apply Z.ltb_lt in Hlt. apply Z.eqb_neq in Hid, Hpid.
    unfold handle_record, bind, get, put, PRINT, PERROR, emit.
    cbn -[string_of_Z append size_buffer_and_record]. rewrite Hlt, Hrec.
    cbn -[string_of_Z append size_buffer_and_record]. rewrite Hid.
    cbn -[string_of_Z append size_buffer_and_record]. rewrite Hplay.
    cbn -[string_of_Z append size_buffer_and_record]. rewrite Hpid.
    fold opened.
    destruct (size_buffer_and_record opened) as [[[] s2] e2]. reflexivity. }
  unfold handle_command. rewrite (bind_run _ _ _ _ _ _ Hrun).
  rewrite handle_key_press_idle. cbn [value globals events fst snd].
  rewrite app_nil_r. reflexivity.
Qed.

Lemma skipn_repeat {A} (x : A) (n k : nat) : skipn k (repeat x n) = repeat x (n - k).
Proof.
  revert k. induction n as [| n IH]; intros [| k]; cbn; try reflexivity. apply IH.
Qed.

(** X12: a whole run of [record], end to end.  The command line is
    complete and names a device below the enumerated count, both
    devices open, and neither audio thread brings or asks for more than
    one second of bytes between two calls of [update].  Then every
    access to the block is inside it; [main] returns 0 exactly when
    both polling loops see the cursor pass the five-second mark (and
    otherwise keeps polling); and what is handed to the playback device
    is, byte for byte and in order, the beginning of the block, as many
    bytes as the playback device asked for: what the capture device
    delivered, followed by the zeros [calloc] left in the block.  (Six
    seconds of bytes fit an [int], as the products of lines 306-315
    need.) *)
Theorem recording_is_played_back
  (P : Platform) (prog cmd : string) (rest : list string) (sched : Schedule) (s : State)
  (dev id pid : Z) (received preceived : SDL_AudioSpec) :
  0 <= SDL_Init P ->
  1 <= SDL_GetNumAudioDevices P ->
  strncmp_eq cmd "record" 6 = true ->
  record_args_complete (prog :: cmd :: rest) = true ->
  scanned_device (prog :: cmd :: rest) = Some dev ->
  dev < Z.min (SDL_GetNumAudioDevices P) MAX_RECORDING_DEVICES ->
  SDL_OpenAudioDevice P (SDL_GetAudioDeviceName P dev) true (desired_spec recording_cb)
  = (id, received) ->
  id <> 0 ->
  SDL_OpenAudioDevice P None false (desired_spec playback_cb) = (pid, preceived) ->
  pid <> 0 ->
  let bytes_per_second :=
    freq received * channels received * (SDL_AUDIO_BITSIZE (format received) / 8) in
  0 <= bytes_per_second ->
  RECORDING_BUFFER_SECONDS * bytes_per_second < 2 ^ 31 ->
  Forall (fun chunks => total chunks <= bytes_per_second) (captured sched) ->
  Forall (fun lens => Z.of_nat (sum_lens lens) <= bytes_per_second) (requested sched) ->
  let max_pos := MAX_RECORDING_SECONDS * bytes_per_second in
  let size := RECORDING_BUFFER_SECONDS * bytes_per_second in
  let rec_sizes := map total (captured sched) in
  let recorded :=
    List.concat (List.concat (firstn (turns_taken max_pos 0 rec_sizes) (captured sched))) in
  let block :=
    (recorded ++ repeat Byte.x00 (Z.to_nat size - List.length recorded))%list in
  let play_sizes := map (fun lens => Z.of_nat (sum_lens lens)) (requested sched) in
  let asked :=
    sum_lens (List.concat (firstn (turns_taken max_pos 0 play_sizes) (requested sched))) in
  let r := main P (prog :: cmd :: rest) sched s in
  value r
  = (if crosses max_pos 0 rec_sizes
     then if crosses max_pos 0 play_sizes then Some 0 else None
     else None) /\
  Forall (inside size) (events r) /\
  streamed (events r)
  = (if crosses max_pos 0 rec_sizes then map Some (firstn asked block) else []) /\
  recording_buffer (globals r) = block.
Proof.
  intros Hinit Hn Hcmd Hcomplete Hscan Hlt Hrec Hid Hplay Hpid bps Hbps Hint Hcap Hreq.
  assert (Hrange : RECORDING_BUFFER_SECONDS * bps < 2 ^ 32) by lia.
  cbv zeta.
  destruct (main_on_complete_record P prog cmd rest sched s Hinit Hn Hcmd Hcomplete)
    as (dev' & Hscan' & Hrun).
  rewrite Hscan in Hscan'. injection Hscan' as <-.
  rewrite Hrun. clear Hrun.
  set (s1 := set_available_device_names _ _).
  pose proof (handle_command_record_succeeds P
                (mkArgCmdRecord (scanned_key (prog :: cmd :: rest)) dev) s1
                id pid received preceived Hlt Hrec Hid Hplay Hpid) as Hhandle.
  cbv zeta in Hhandle.
  set (opened := set_received_playback_spec preceived
                   (set_playback_deviceid pid
                      (set_received_recording_spec received
                         (set_recording_deviceid id s1)))) in *.
  rewrite (bind_run _ _ _ _ _ _ Hhandle).
  rewrite size_buffer_and_record_events.
  destruct (size_buffer_and_record_sizes opened Hbps)
    as (_ & _ & Hmax & Hsize & Hblock & Hlen & Hpos & _);
    [exact Hrange |].
  change (received_recording_spec opened) with received in *.
  fold bps in Hmax, Hsize.
  set (started := globals (size_buffer_and_record opened)) in *.
  assert (Hst : recording_state started = RECORDING) by reflexivity.
  assert (Hsize' : buffer_byte_size started = RECORDING_BUFFER_SECONDS * bps)
    by (rewrite Hsize; reflexivity).
  destruct (record_and_play_run sched started Hst)
    as (Hval & _ & Hbuf & Hinside & Hstream).
  { repeat split; [exact Hlen | rewrite Hpos; lia | rewrite Hsize'; exact Hrange]. }
  { exact Hpos. }
  { rewrite Hmax, Hsize. unfold MAX_RECORDING_SECONDS. lia. }
  { rewrite Hmax, Hsize. eapply Forall_impl; [| exact Hcap]. cbn beta. intros; lia. }
  { rewrite Hmax, Hsize. eapply Forall_impl; [| exact Hreq]. cbn beta. intros; lia. }
  rewrite Hmax, Hsize' in *.
  rewrite Hblock, skipn_repeat in Hbuf, Hstream.
  cbn [value globals events fst snd].
  split; [exact Hval |]. split; [| split; [| exact Hbuf]].
  - apply Forall_app. split; [repeat constructor | exact Hinside].
  - rewrite streamed_app. cbn [app streamed]. exact Hstream.
Qed.

(** X12, on the slow device (2 bytes per second, 12-byte block): six
    turns of 2 captured bytes, then six requests of 2 bytes. *)
Lemma recording_is_played_back_witness :
  streamed
    (events (main slow_mics (record_argv "0")
               (mkSchedule (repeat [[Byte.x01; Byte.x02]] 6) (repeat [2%nat] 6))
               initial_state))
  = map Some (List.concat (repeat [Byte.x01; Byte.x02] 6)).
Proof.
  destruct (recording_is_played_back
              slow_mics "voicememo" "record" ["-k"; "AB"; "-d"; "0"]
              (mkSchedule (repeat [[Byte.x01; Byte.x02]] 6) (repeat [2%nat] 6))
              initial_state 0 2 3
              (mkSpec 1 8 2 4096 recording_cb) (mkSpec 1 8 2 4096 playback_cb))
    as (_ & _ & Hstream & _).
  - vm_compute. congruence.
  - vm_compute. congruence.
  - reflexivity.
  - reflexivity.
  - reflexivity.
  - reflexivity.
  - reflexivity.
  - discriminate.
  - reflexivity.
  - discriminate.
  - vm_compute. congruence.
  - vm_compute. reflexivity.
  - repeat constructor; vm_compute; congruence.
  - repeat constructor; vm_compute; congruence.
  - exact Hstream.
Defined.

(* ------------------------------------------------------------------ *)
(** ** [SDL_Quit] *)

Section Closing.

Lemma quiet_ret {A} (a : A) : quiet (ret a).
Proof. intros s []. Qed.

Lemma quiet_get {A} (f : State -> A) : quiet (get f).
Proof. intros s []. Qed.

Lemma quiet_put (f : State -> State) : quiet (put f).
Proof. intros s []. Qed.

Lemma quiet_emit (e : Event) : e <> EvQuit -> quiet (emit e).
Proof. intros He s [Hin | []]. congruence. Qed.

Lemma quiet_bind {A B} (m : M A) (f : A -> M B) :
  quiet m -> (forall a, quiet (f a)) -> quiet (bind m f).
Proof.
  intros Hm Hf s Hin. rewrite events_bind in Hin.
  apply in_app_or in Hin. destruct Hin as [Hin | Hin].
  - exact (Hm s Hin).
  - exact (Hf _ _ Hin).
Qed.

Lemma closes_bind {A} (m : M A) (f : A -> M (option Z)) :
  quiet m -> (forall a, closes (f a)) -> closes (bind m f).
Proof.
  intros Hm Hf s code Hval. rewrite value_bind in Hval.
  destruct (Hf _ _ _ Hval) as ((before & Hev & Hbefore) & Hnames & Hcode).
  rewrite globals_bind, events_bind. split; [| split; assumption].
  exists (events (m s) ++ before)%list. split.
  - rewrite Hev, app_assoc. reflexivity.
  - intros Hin. apply in_app_or in Hin. destruct Hin as [Hin | Hin].
    + exact (Hm s Hin).
    + exact (Hbefore Hin).
Qed.

Lemma closes_close (code : Z) :
  code = 0 \/ code = -1 -> closes (bind close (fun _ => ret (Some code))).
Proof.
  intros Hcode s code' Hval. rewrite close_then_ret in *.
  cbn [value globals events fst snd] in *. injection Hval as <-.
  split; [| split; [reflexivity | exact Hcode]].
  exists (frees_of s). split; [reflexivity |].
  intros Hin. pose proof (frees_of_undefined s) as Hfrees.
  rewrite Forall_forall in Hfrees. destruct (Hfrees _ Hin) as [what Hwhat].
  discriminate Hwhat.
Qed.

Lemma closes_polling : closes (ret None).
Proof. intros s code Hval. discriminate Hval. Qed.

End Closing.

(** One step of a proof that a computation never calls [SDL_Quit]. *)
Ltac quiet_step :=
  match goal with
  | |- quiet (bind _ _) => apply quiet_bind; [| intros ?]
  | |- quiet (ret _) => apply quiet_ret
  | |- quiet (get _) => apply quiet_get
  | |- quiet (put _) => apply quiet_put
  | |- quiet (emit _) => apply quiet_emit; discriminate
  | |- quiet (PRINT _) => apply quiet_emit; discriminate
  | |- quiet (PERROR _) => apply quiet_emit; discriminate
  | |- quiet (if ?c then _ else _) => destruct c
  | |- quiet (match ?x with _ => _ end) => destruct x
  end.

Lemma quiet_for_loop (body : Z -> M unit) :
  (forall i, quiet (body i)) -> forall n lo, quiet (for_loop n lo body).
Proof.
  intros Hbody. induction n as [| n IH]; intros lo; cbn [for_loop].
  - apply quiet_ret.
  - apply quiet_bind; [apply Hbody | intros _; apply IH].
Qed.

Lemma quiet_init (P : Platform) : quiet (init P).
Proof.
  unfold init. repeat quiet_step.
  apply quiet_for_loop. intros i. unfold store_device_name. repeat quiet_step.
Qed.

Lemma quiet_update : quiet update.
Proof. unfold update. repeat quiet_step. Qed.

Lemma quiet_deliver (chunks : list (list Byte.byte)) : quiet (deliver chunks).
Proof.
  induction chunks as [| c rest IH]; cbn [deliver]; [apply quiet_ret |].
  apply quiet_bind; [| intros _; exact IH].
  unfold audio_recording_callback. repeat quiet_step.
Qed.

Lemma quiet_consume (lens : list nat) : quiet (consume lens).
Proof.
  induction lens as [| len rest IH]; cbn [consume]; [apply quiet_ret |].
  apply quiet_bind; [unfold audio_playback_callback; repeat quiet_step |].
  intros stream. apply quiet_bind; [exact IH | intros more; apply quiet_ret].
Qed.

Lemma quiet_recording_loop (turns : list (list (list Byte.byte))) :
  quiet (recording_loop turns).
Proof.
  induction turns as [| chunks rest IH]; cbn [recording_loop]; [apply quiet_ret |].
  apply quiet_bind; [apply quiet_deliver | intros _].
  apply quiet_bind; [apply quiet_update | intros _].
  apply quiet_bind; [apply quiet_get | intros st].
  destruct (RecordingState_eqb st RECORDED); [apply quiet_ret | exact IH].
Qed.

Lemma quiet_playback_loop (turns : list (list nat)) : quiet (playback_loop turns).
Proof.
  induction turns as [| lens rest IH]; cbn [playback_loop]; [apply quiet_ret |].
  apply quiet_bind; [apply quiet_consume | intros stream].
  apply quiet_bind; [apply quiet_emit; discriminate | intros _].
  apply quiet_bind; [apply quiet_update | intros _].
  apply quiet_bind; [apply quiet_get | intros st].
  destruct (RecordingState_eqb st RECORDED); [apply quiet_ret | exact IH].
Qed.

Lemma quiet_handle_command (P : Platform) (cmd_type : CmdType) (data : CmdData) :
  quiet (handle_command P cmd_type data).
Proof.
  unfold handle_command. apply quiet_bind.
  - destruct cmd_type.
    + unfold print_all_available_device_names.
      apply quiet_bind; [apply quiet_get | intros count].
      apply quiet_for_loop. intros i. repeat quiet_step.
    + destruct data; repeat quiet_step.
    + destruct data; try (repeat quiet_step).
      unfold handle_record, size_buffer_and_record. repeat quiet_step.
    + unfold print_help. repeat quiet_step.
  - intros _. unfold handle_key_press. repeat quiet_step.
Qed.

Lemma closes_record_and_play (sched : Schedule) : closes (record_and_play sched).
Proof.
  unfold record_and_play.
  apply closes_bind; [apply quiet_get | intros st].
  destruct (RecordingState_eqb st RECORDING); [| apply closes_close; auto].
  apply closes_bind; [apply quiet_recording_loop | intros recorded].
  destruct recorded; [| apply closes_polling].
  apply closes_bind; [unfold begin_playback; repeat quiet_step | intros _].
  apply closes_bind; [apply quiet_playback_loop | intros played].
  destruct played; [apply closes_close; auto | apply closes_polling].
Qed.

Lemma closes_main_after_init
  (P : Platform) (argv : list string) (sched : Schedule) (ok : bool) :
  closes (main_after_init P argv sched ok).
Proof.
  unfold main_after_init, main_record, record_usage.
  repeat match goal with
         | |- closes (if ?c then _ else _) => destruct c
         | |- closes (let '(_, _) := ?x in _) => destruct x
         | |- closes (match ?x with _ => _ end) => destruct x
         | |- closes (bind close _) => apply closes_close; auto
         | |- closes (bind (handle_command _ _ _) (fun _ => record_and_play _)) =>
             apply closes_bind; [apply quiet_handle_command
                                | intros _; apply closes_record_and_play]
         | |- closes (bind _ _) =>
             apply closes_bind; [first [apply quiet_handle_command | repeat quiet_step]
                                | intros ?]
         | |- closes (ret None) => apply closes_polling
         end.
Qed.

(** X13: whenever [main] returns after [SDL_Init] succeeded, it has
    called [SDL_Quit] exactly once, as its last effect, and has released
    the table of device names; the exit code is 0 or -1.  This holds on
    every path: every command, every rejected command line, failed
    enumeration, failed opening, and the end of playback. *)
Theorem main_quits_once_at_the_end
  (P : Platform) (argv : list string) (sched : Schedule) (s : State) (code : Z) :
  0 <= SDL_Init P ->
  value (main P argv sched s) = Some code ->
  (exists before,
     events (main P argv sched s) = (before ++ [EvQuit])%list /\ ~ In EvQuit before) /\
  available_device_names (globals (main P argv sched s)) = [] /\
  (code = 0 \/ code = -1).
Proof.
  intros Hinit. apply Z.ltb_ge in Hinit. unfold main. rewrite Hinit.
  apply (closes_bind (init P) (main_after_init P argv sched)).
  - apply quiet_init.
  - intros ok. apply closes_main_after_init.
Qed.

(** X13, for a whole recording on the slow device. *)
Lemma main_quits_once_at_the_end_witness :
  available_device_names
    (globals (main slow_mics (record_argv "0")
                (mkSchedule (repeat [[Byte.x01; Byte.x02]] 6) (repeat [2%nat] 6))
                initial_state)) = [].
Proof.
  apply (main_quits_once_at_the_end slow_mics (record_argv "0")
           (mkSchedule (repeat [[Byte.x01; Byte.x02]] 6) (repeat [2%nat] 6))
           initial_state 0).
  - vm_compute. congruence.
  - reflexivity.
Defined.

(* ------------------------------------------------------------------ *)
(** ** One device at a time *)

Section EventsAll.

Variable Q : Event -> Prop.

Lemma events_all_ret {A} (a : A) : events_all Q (ret a).
Proof. intros s. constructor. Qed.

Lemma events_all_get {A} (f : State -> A) : events_all Q (get f).
Proof. intros s. constructor. Qed.

Lemma events_all_put (f : State -> State) : events_all Q (put f).
Proof. intros s. constructor. Qed.

Lemma events_all_emit (e : Event) : Q e -> events_all Q (emit e).
Proof. intros He s. repeat constructor. exact He. Qed.

Lemma events_all_bind {A B} (m : M A) (f : A -> M B) :
  events_all Q m -> (forall a, events_all Q (f a)) -> events_all Q (bind m f).
Proof.
  intros Hm Hf s. rewrite events_bind. apply Forall_app. split; [apply Hm | apply Hf].
Qed.

Lemma events_all_for_loop (body : Z -> M unit) :
  (forall i, events_all Q (body i)) -> forall n lo, events_all Q (for_loop n lo body).
Proof.
  intros Hbody. induction n as [| n IH]; intros lo; cbn [for_loop].
  - apply events_all_ret.
  - apply events_all_bind; [apply Hbody | intros _; apply IH].
Qed.

End EventsAll.

Lemma still_close : events_all pauses_nothing close.
Proof.
  intros s. rewrite close_run. cbn [events snd]. apply Forall_app. split.
  - apply Forall_forall. intros e Hin.
    pose proof (frees_of_undefined s) as Hfrees. rewrite Forall_forall in Hfrees.
    destruct (Hfrees e Hin) as [what ->]. exact I.
  - repeat constructor.
Qed.

(** One step of a proof that a computation starts and stops no device. *)
Ltac calm_step :=
  match goal with
  | |- events_all _ close => apply still_close
  | |- events_all _ (bind _ _) => apply events_all_bind; [| intros ?]
  | |- events_all _ (ret _) => apply events_all_ret
  | |- events_all _ (get _) => apply events_all_get
  | |- events_all _ (put _) => apply events_all_put
  | |- events_all _ (emit _) => apply events_all_emit; exact I
  | |- events_all _ (PRINT _) => apply events_all_emit; exact I
  | |- events_all _ (PERROR _) => apply events_all_emit; exact I
  | |- events_all _ (for_loop _ _ _) => apply events_all_for_loop; intros ?
  | |- events_all _ (if ?c then _ else _) => destruct c
  | |- events_all _ (match ?x with _ => _ end) => destruct x
  end.

Lemma streaming_after_app (now : option Z) (a c : list Event) :
  streaming_after now (a ++ c)
  = match streaming_after now a with
    | Some now' => streaming_after now' c
    | None => None
    end.
Proof.
  revert now. induction a as [| e a IH]; intros now; [reflexivity |].
  destruct e; cbn [app streaming_after]; try apply IH.
  destruct pause_on, now as [d |]; try apply IH; [| reflexivity].
  destruct (d =? dev); apply IH.
Qed.

(** A trace without [SDL_PauseAudioDevice] leaves streaming what was. *)
Lemma streaming_after_still (evs : list Event) :
  Forall pauses_nothing evs -> forall now, streaming_after now evs = Some now.
Proof.
  induction 1 as [| e evs He Hevs IH]; intros now; [reflexivity |].
  destruct e; cbn [streaming_after]; try apply IH. destruct He.
Qed.

Lemma still_init (P : Platform) : events_all pauses_nothing (init P).
Proof. unfold init, store_device_name. repeat calm_step. Qed.

Lemma still_deliver (chunks : list (list Byte.byte)) :
  events_all pauses_nothing (deliver chunks).
Proof.
  induction chunks as [| c rest IH]; cbn [deliver]; [apply events_all_ret |].
  apply events_all_bind; [| intros _; exact IH].
  unfold audio_recording_callback. repeat calm_step.
Qed.

Lemma still_consume (lens : list nat) : events_all pauses_nothing (consume lens).
Proof.
  induction lens as [| len rest IH]; cbn [consume]; [apply events_all_ret |].
  apply events_all_bind; [unfold audio_playback_callback; repeat calm_step |].
  intros stream. apply events_all_bind; [exact IH | intros more; apply events_all_ret].
Qed.

Lemma deliver_state (chunks : list (list Byte.byte)) :
  forall s, recording_state (globals (deliver chunks s)) = recording_state s.
Proof.
  induction chunks as [| c rest IH]; intros s; [reflexivity |].
  cbn [deliver]. rewrite globals_bind, IH. reflexivity.
Qed.

Lemma deliver_deviceid (chunks : list (list Byte.byte)) :
  forall s, recording_deviceid (globals (deliver chunks s)) = recording_deviceid s.
Proof.
  induction chunks as [| c rest IH]; intros s; [reflexivity |].
  cbn [deliver]. rewrite globals_bind, IH. reflexivity.
Qed.

Lemma consume_state (lens : list nat) :
  forall s, recording_state (globals (consume lens s)) = recording_state s.
Proof.
  induction lens as [| len rest IH]; intros s; [reflexivity |].
  cbn [consume]. rewrite globals_bind, globals_bind.
  cbn [ret globals fst snd]. rewrite IH. reflexivity.
Qed.

Lemma consume_deviceid (lens : list nat) :
  forall s, playback_deviceid (globals (consume lens s)) = playback_deviceid s.
Proof.
  induction lens as [| len rest IH]; intros s; [reflexivity |].
  cbn [consume]. rewrite globals_bind, globals_bind.
  cbn [ret globals fst snd]. rewrite IH. reflexivity.
Qed.

(** The recording loop stops the capture device, the one of
    [recording_deviceid], and no other; it does so when it ends, and
    until then what streams goes on streaming. *)
Lemma recording_loop_streaming (turns : list (list (list Byte.byte))) :
  forall s now,
    recording_state s = RECORDING ->
    now = None \/ now = Some (recording_deviceid s) ->
    streaming_after now (events (recording_loop turns s))
    = Some (if value (recording_loop turns s) then None else now) /\
    (value (recording_loop turns s) = false ->
     recording_state (globals (recording_loop turns s)) = RECORDING) /\
    recording_deviceid (globals (recording_loop turns s)) = recording_deviceid s.
Proof.
  induction turns as [| chunks rest IH]; intros s now Hst Hnow.
  - cbn. split; [reflexivity |]. split; [intros _; exact Hst | reflexivity].
  - rewrite recording_loop_turn. cbv zeta.
    set (s1 := globals (deliver chunks s)).
    assert (Hst1 : recording_state s1 = RECORDING)
      by (unfold s1; rewrite deliver_state; exact Hst).
    assert (Hdev1 : recording_deviceid s1 = recording_deviceid s)
      by (unfold s1; apply deliver_deviceid).
    pose proof (streaming_after_still _ (still_deliver chunks s) now) as Hrun1.
    destruct (Z.lt_ge_cases (buffer_byte_max_position s1) (buffer_byte_position s1))
      as [Hlt | Hge].
    + rewrite (update_recording_complete s1 Hst1 Hlt).
      cbn [globals events value fst snd recording_state recording_deviceid
           set_recording_state RecordingState_eqb].
      rewrite streaming_after_app, Hrun1. cbn [streaming_after].
      split; [| split; [discriminate | exact Hdev1]].
      destruct Hnow as [-> | ->]; [reflexivity |].
      rewrite Hdev1, Z.eqb_refl. reflexivity.
    + rewrite (update_pending s1 (or_introl Hst1) Hge).
      cbn [globals events fst snd]. rewrite Hst1.
      cbn [RecordingState_eqb value globals events fst snd].
      destruct (IH s1 now Hst1) as (Hrun & Hstate & Hdev).
      { destruct Hnow as [-> | ->]; [left; reflexivity | right; rewrite Hdev1; reflexivity]. }
      rewrite streaming_after_app, Hrun1. cbn [app streaming_after].
      split; [exact Hrun | split; [exact Hstate | rewrite Hdev; exact Hdev1]].
Qed.

(** The playback loop stops the playback device, the one of
    [playback_deviceid], and no other. *)
Lemma playback_loop_streaming (turns : list (list nat)) :
  forall s now,
    recording_state s = PLAYBACK ->
    now = None \/ now = Some (playback_deviceid s) ->
    streaming_after now (events (playback_loop turns s))
    = Some (if value (playback_loop turns s) then None else now) /\
    (value (playback_loop turns s) = false ->
     recording_state (globals (playback_loop turns s)) = PLAYBACK) /\
    playback_deviceid (globals (playback_loop turns s)) = playback_deviceid s.
Proof.
  induction turns as [| lens rest IH]; intros s now Hst Hnow.
  - cbn. split; [reflexivity |]. split; [intros _; exact Hst | reflexivity].
  - rewrite playback_loop_turn. cbv zeta.
    set (s1 := globals (consume lens s)).
    assert (Hst1 : recording_state s1 = PLAYBACK)
      by (unfold s1; rewrite consume_state; exact Hst).
    assert (Hdev1 : playback_deviceid s1 = playback_deviceid s)
      by (unfold s1; apply consume_deviceid).
    pose proof (streaming_after_still _ (still_consume lens s) now) as Hrun1.
    destruct (Z.lt_ge_cases (buffer_byte_max_position s1) (buffer_byte_position s1))
      as [Hlt | Hge].
    + rewrite (update_playback_complete s1 Hst1 Hlt).
      cbn [globals events value fst snd recording_state playback_deviceid
           set_recording_state RecordingState_eqb].
      rewrite streaming_after_app, Hrun1. cbn [streaming_after].
      split; [| split; [discriminate | exact Hdev1]].
      destruct Hnow as [-> | ->]; [reflexivity |].
      rewrite Hdev1, Z.eqb_refl. reflexivity.
    + rewrite (update_pending s1 (or_intror Hst1) Hge).
      cbn [globals events fst snd]. rewrite Hst1.
      cbn [RecordingState_eqb value globals events fst snd].
      destruct (IH s1 now Hst1) as (Hrun & Hstate & Hdev).
      { destruct Hnow as [-> | ->]; [left; reflexivity | right; rewrite Hdev1; reflexivity]. }
      rewrite streaming_after_app, Hrun1. cbn [app streaming_after].
      split; [exact Hrun | split; [exact Hstate | rewrite Hdev; exact Hdev1]].
Qed.

Lemma record_and_play_not_recording (sched : Schedule) (s : State) :
  recording_state s <> RECORDING ->
  record_and_play sched s
  = (Some (-1), set_available_device_names [] s, (frees_of s ++ [EvQuit])%list).
Proof.
  intros Hst. unfold record_and_play. unfold bind at 1. unfold get at 1.
  destruct (recording_state s) eqn:Hstate; cbn [RecordingState_eqb];
    try (rewrite close_then_ret; reflexivity).
  congruence.
Qed.

(** Lines 481-521, entered with the capture device streaming or with
    none: playback starts only once the capture device was stopped, and
    when the lines return nothing streams. *)
Lemma record_and_play_streaming (sched : Schedule) (s : State) (now : option Z) :
  (forall dev, now = Some dev ->
     recording_state s = RECORDING /\ dev = recording_deviceid s) ->
  exists now',
    streaming_after now (events (record_and_play sched s)) = Some now' /\
    (value (record_and_play sched s) <> None -> now' = None) /\
    (forall dev, now' = Some dev ->
       (recording_state (globals (record_and_play sched s)) = RECORDING /\
        dev = recording_deviceid (globals (record_and_play sched s))) \/
       (recording_state (globals (record_and_play sched s)) = PLAYBACK /\
        dev = playback_deviceid (globals (record_and_play sched s)))).
Proof.
  intros Hnow.
  destruct (RecordingState_eqb (recording_state s) RECORDING) eqn:Hst.
  - assert (Hrec : recording_state s = RECORDING)
      by (destruct (recording_state s); try discriminate; reflexivity).
    assert (Hnow1 : now = None \/ now = Some (recording_deviceid s)).
    { destruct now as [d |]; [right | left; reflexivity].
      destruct (Hnow d eq_refl) as (_ & ->). reflexivity. }
    rewrite (record_and_play_stages sched s Hrec). cbv zeta.
    destruct (recording_loop_streaming (captured sched) s now Hrec Hnow1)
      as (Hrun1 & Hstate1 & Hdev1).
    set (r1 := recording_loop (captured sched) s) in *.
    destruct (value r1).
    + assert (Hbegin : events (begin_playback (globals r1))
                       = [EvPause (playback_deviceid (globals r1)) false;
                          EvPrint ("Playing..." ++ nl)]) by reflexivity.
      set (s2 := globals (begin_playback (globals r1))).
      assert (Hst2 : recording_state s2 = PLAYBACK) by reflexivity.
      assert (Hdev2 : playback_deviceid s2 = playback_deviceid (globals r1))
        by reflexivity.
      destruct (playback_loop_streaming (requested sched) s2
                  (Some (playback_deviceid s2)) Hst2 (or_intror eq_refl))
        as (Hrun3 & Hstate3 & Hdev3).
      set (r3 := playback_loop (requested sched) s2) in *.
      destruct (value r3); cbn [value globals events fst snd].
      * exists None. rewrite streaming_after_app, Hrun1, Hbegin.
        cbn [app streaming_after]. rewrite streaming_after_app, <- Hdev2, Hrun3.
        split; [| split; [reflexivity | discriminate]].
        apply streaming_after_still. apply Forall_app. split; [| repeat constructor].
        apply Forall_forall. intros e Hin.
        pose proof (frees_of_undefined (globals r3)) as Hfrees.
        rewrite Forall_forall in Hfrees. destruct (Hfrees e Hin) as [what ->]. exact I.
      * exists (Some (playback_deviceid s2)).
        rewrite streaming_after_app, Hrun1, Hbegin.
        cbn [app streaming_after]. rewrite <- Hdev2, Hrun3.
        split; [reflexivity |]. split; [congruence |].
        intros dev Hdev. injection Hdev as <-. right.
        split; [apply Hstate3; reflexivity | symmetry; exact Hdev3].
    + cbn [value globals events fst snd]. exists now.
      split; [exact Hrun1 |]. split; [congruence |].
      intros dev Hdev. destruct (Hnow dev Hdev) as (_ & ->). left.
      split; [apply Hstate1; reflexivity | symmetry; exact Hdev1].
  - assert (Hnot : recording_state s <> RECORDING)
      by (intros Heq; rewrite Heq in Hst; discriminate).
    assert (Hnone : now = None).
    { destruct now as [d |]; [| reflexivity].
      destruct (Hnow d eq_refl) as (Hrec & _). contradiction. }
    subst now. rewrite (record_and_play_not_recording sched s Hnot).
    cbn [value globals events fst snd]. exists None.
    split; [| split; [reflexivity | discriminate]].
    apply streaming_after_still. apply Forall_app. split; [| repeat constructor].
    apply Forall_forall. intros e Hin.
    pose proof (frees_of_undefined s) as Hfrees.
    rewrite Forall_forall in Hfrees. destruct (Hfrees e Hin) as [what ->]. exact I.
Qed.

(** [handle_command] starts at most the capture device, the one it
    stores in [recording_deviceid], and only on its way to [RECORDING]. *)
Lemma handle_command_streaming
  (P : Platform) (cmd_type : CmdType) (data : CmdData) (s : State) :
  exists now,
    streaming_after None (events (handle_command P cmd_type data s)) = Some now /\
    (forall dev, now = Some dev ->
       cmd_type = CMDTYPE_RECORD /\
       recording_state (globals (handle_command P cmd_type data s)) = RECORDING /\
       dev = recording_deviceid (globals (handle_command P cmd_type data s))).
Proof.
  assert (Hcalm : forall m : M unit,
            events_all pauses_nothing m ->
            exists now,
              streaming_after None (events (bind m (fun _ => handle_key_press) s))
              = Some now /\
              (forall dev, now = Some dev ->
                 cmd_type = CMDTYPE_RECORD /\
                 recording_state (globals (bind m (fun _ => handle_key_press) s))
                 = RECORDING /\
                 dev = recording_deviceid (globals (bind m (fun _ => handle_key_press) s)))).
  { intros m Hm. rewrite events_bind, handle_key_press_idle. cbn [events snd].
    rewrite app_nil_r. exists None.
    split; [exact (streaming_after_still _ (Hm s) None) | discriminate]. }
  unfold handle_command.
  destruct cmd_type;
    try solve [apply Hcalm; unfold print_all_available_device_names, print_help;
               repeat calm_step].
  destruct data as [| k | param]; try solve [apply Hcalm; repeat calm_step].
  fold (handle_command P CMDTYPE_RECORD (RecordData param)).
  destruct (Z.lt_ge_cases (device param) (available_recording_device_count s))
    as [Hlt | Hge].
  - destruct (SDL_OpenAudioDevice P (SDL_GetAudioDeviceName P (device param)) true
                (desired_spec recording_cb)) as [id received] eqn:Hrec.
    destruct (Z.eq_dec id 0) as [-> | Hid].
    + unfold handle_command.
      rewrite (bind_run _ _ _ _ _ _
                 (handle_record_capture_fails P param s received Hlt Hrec)).
      rewrite handle_key_press_idle. exists None. split; [reflexivity | discriminate].
    + destruct (SDL_OpenAudioDevice P None false (desired_spec playback_cb))
        as [pid preceived] eqn:Hplay.
      destruct (Z.eq_dec pid 0) as [-> | Hpid].
      * unfold handle_command.
        rewrite (bind_run _ _ _ _ _ _
                   (handle_record_playback_fails P param s id received preceived
                      Hlt Hrec Hid Hplay)).
        rewrite handle_key_press_idle. exists None. split; [reflexivity | discriminate].
      * rewrite (handle_command_record_succeeds P param s id pid received preceived
                   Hlt Hrec Hid Hplay Hpid).
        rewrite size_buffer_and_record_events.
        exists (Some id). split; [reflexivity |].
        intros dev Hdev. injection Hdev as <-.
        split; [reflexivity | split; reflexivity].
  - rewrite (handle_command_record_out_of_range P param s Hge).
    exists None. split; [reflexivity | discriminate].
Qed.

Lemma orderly_still (m : M (option Z)) : events_all pauses_nothing m -> orderly m.
Proof.
  intros Hm s. exists None.
  split; [exact (streaming_after_still _ (Hm s) None) |].
  split; [reflexivity | discriminate].
Qed.

Lemma orderly_after_still {A} (m : M A) (f : A -> M (option Z)) :
  events_all pauses_nothing m -> (forall a, orderly (f a)) -> orderly (bind m f).
Proof.
  intros Hm Hf s.
  destruct (Hf (value (m s)) (globals (m s))) as (now & Hrun & Hdone & Hdev).
  exists now. rewrite events_bind, value_bind, globals_bind, streaming_after_app.
  rewrite (streaming_after_still _ (Hm s) None).
  split; [exact Hrun | split; [exact Hdone | exact Hdev]].
Qed.

Lemma orderly_other_command
  (P : Platform) (cmd_type : CmdType) (data : CmdData) (k : M (option Z)) :
  cmd_type <> CMDTYPE_RECORD ->
  events_all pauses_nothing k ->
  orderly (bind (handle_command P cmd_type data) (fun _ => k)).
Proof.
  intros Hcmd Hk s.
  destruct (handle_command_streaming P cmd_type data s) as (now1 & Hrun1 & Hnow1).
  assert (Hnone : now1 = None).
  { destruct now1 as [d |]; [| reflexivity].
    destruct (Hnow1 d eq_refl) as (Hrecord & _). contradiction. }
  subst now1. exists None.
  rewrite events_bind, streaming_after_app, Hrun1.
  split; [apply streaming_after_still; apply Hk |].
  split; [reflexivity | discriminate].
Qed.

Lemma orderly_record (P : Platform) (param : ArgCmdRecord) (sched : Schedule) :
  orderly (bind (handle_command P CMDTYPE_RECORD (RecordData param))
             (fun _ => record_and_play sched)).
Proof.
  intros s.
  destruct (handle_command_streaming P CMDTYPE_RECORD (RecordData param) s)
    as (now1 & Hrun1 & Hnow1).
  destruct (record_and_play_streaming sched
              (globals (handle_command P CMDTYPE_RECORD (RecordData param) s)) now1)
    as (now2 & Hrun2 & Hdone2 & Hdev2).
  { intros dev Hdev. destruct (Hnow1 dev Hdev) as (_ & Hstate & Hid).
    split; assumption. }
  exists now2. rewrite events_bind, value_bind, globals_bind, streaming_after_app, Hrun1.
  split; [exact Hrun2 | split; [exact Hdone2 | exact Hdev2]].
Qed.

Lemma main_after_init_orderly
  (P : Platform) (argv : list string) (sched : Schedule) (ok : bool) :
  orderly (main_after_init P argv sched ok).
Proof.
  unfold main_after_init, main_record, record_usage.
  repeat match goal with
         | |- orderly (if ?c then _ else _) => destruct c
         | |- orderly (let '(_, _) := ?x in _) => destruct x
         | |- orderly (match ?x with _ => _ end) => destruct x
         end;
    try solve [apply orderly_other_command; [discriminate | repeat calm_step]];
    try solve [apply orderly_still; repeat calm_step].
  apply orderly_record.
Qed.

(** X14: [main] never has two devices streaming, and leaves none
    streaming.  On every command line, platform and schedule, a device
    is started only while none streams, and a device that streams
    stops streaming only when [SDL_PauseAudioDevice] pauses that very
    device: the playback device is started only after the capture
    device, the one that was started, was paused.  Whenever [main]
    returns, no device streams; and when a polling loop outlives the
    schedule, the device that streams is the capture device while the
    state is [RECORDING] and the playback device while it is
    [PLAYBACK]. *)
Theorem one_device_streams_at_a_time
  (P : Platform) (argv : list string) (sched : Schedule) (s : State) :
  exists streaming,
    streaming_after None (events (main P argv sched s)) = Some streaming /\
    (value (main P argv sched s) <> None -> streaming = None) /\
    (forall dev, streaming = Some dev ->
       (recording_state (globals (main P argv sched s)) = RECORDING /\
        dev = recording_deviceid (globals (main P argv sched s))) \/
       (recording_state (globals (main P argv sched s)) = PLAYBACK /\
        dev = playback_deviceid (globals (main P argv sched s)))).
Proof.
  assert (Horderly : orderly (main P argv sched)).
  { unfold main. destruct (SDL_Init P <? 0).
    - apply orderly_still. repeat calm_step.
    - apply orderly_after_still; [apply still_init |].
      intros ok. apply main_after_init_orderly. }
  exact (Horderly s).
Qed.

(** X14, for a whole recording on the slow device (capture device 2,
    playback device 3), and for a schedule that ends during playback. *)
Lemma one_device_streams_at_a_time_witness :
  streaming_after None
    (events (main slow_mics (record_argv "0")
               (mkSchedule (repeat [[Byte.x01; Byte.x02]] 6) (repeat [2%nat] 6))
               initial_state))
  = Some None /\
  streaming_after None
    (events (main slow_mics (record_argv "0")
               (mkSchedule (repeat [[Byte.x01; Byte.x02]] 6) (repeat [2%nat] 3))
               initial_state))
  = Some (Some 3).
Proof.
  split.
  - destruct (one_device_streams_at_a_time slow_mics (record_argv "0")
                (mkSchedule (repeat [[Byte.x01; Byte.x02]] 6) (repeat [2%nat] 6))
                initial_state)
      as (streaming & Hrun & Hdone & _).
    rewrite Hrun. f_equal. apply Hdone. vm_compute. discriminate.
  - destruct (one_device_streams_at_a_time slow_mics (record_argv "0")
                (mkSchedule (repeat [[Byte.x01; Byte.x02]] 6) (repeat [2%nat] 3))
                initial_state)
      as (streaming & Hrun & _ & Hdev).
    rewrite Hrun. f_equal.
    destruct streaming as [dev |].
    + destruct (Hdev dev eq_refl) as [(Hstate & _) | (_ & ->)].
      * vm_compute in Hstate. discriminate Hstate.
      * vm_compute. reflexivity.
    + vm_compute in Hrun. discriminate Hrun.
Defined.

(* ------------------------------------------------------------------ *)
(** ** Indices out of range of [int] *)

(** [strtol] on a decimal numeral of any size: the value, clamped to
    the range of [long]. *)
Lemma strtol_clamps (n : Z) (junk : string) :
  starts_with_digit junk = false ->
  strtol (string_of_Z n ++ junk) = Z.max LONG_MIN (Z.min LONG_MAX n).
Proof.
  intros Hjunk. unfold string_of_Z, Z.to_int.
  destruct n as [| p | p].
  - cbn [NilZero.string_of_int NilZero.string_of_uint].
    destruct (strtol_of_numeral (Decimal.D0 Decimal.Nil) junk ltac:(discriminate) Hjunk)
      as (Hpos & _).
    rewrite Hpos. reflexivity.
  - cbn [NilZero.string_of_int]. unfold NilZero.string_of_uint.
    pose proof (Unsigned.to_uint_nonnil p) as Hnonnil.
    destruct (strtol_of_numeral (Pos.to_uint p) junk Hnonnil Hjunk) as (Hpos & _).
    destruct (Pos.to_uint p) eqn:Hd; [congruence | ..];
      rewrite Hpos, <- Hd, Unsigned.of_to; reflexivity.
  - cbn [NilZero.string_of_int]. unfold NilZero.string_of_uint.
    pose proof (Unsigned.to_uint_nonnil p) as Hnonnil.
    destruct (strtol_of_numeral (Pos.to_uint p) junk Hnonnil Hjunk) as (_ & Hneg).
    cbn [append].
    destruct (Pos.to_uint p) eqn:Hd; [congruence | ..];
      rewrite Hneg, <- Hd, Unsigned.of_to; reflexivity.
Qed.

(** X15: an index too large for [int] is not rejected.  [strtol] clamps
    the decimal number to the range of the 64-bit [long], and storing
    the result in the [int] field keeps its low 32 bits: an index n
    within [long] selects the device n mod 2^32 (taken as signed), and
    every index from 2^63 - 1 on becomes -1, passes the test of line
    259 and has the device SDL names for index -1 opened. *)
Theorem oversized_index_wraps
  (P : Platform) (prog kflag k dflag junk : string) (n : Z) (rest : list string)
  (sched : Schedule) (s : State) :
  kflag = "-k" \/ kflag = "--key" ->
  dflag = "-d" \/ dflag = "--device" ->
  starts_with_digit junk = false ->
  0 <= SDL_Init P ->
  1 <= SDL_GetNumAudioDevices P ->
  let argv := prog :: "record" :: kflag :: k :: dflag :: (string_of_Z n ++ junk) :: rest in
  scanned_device argv = Some (to_int (Z.max LONG_MIN (Z.min LONG_MAX n))) /\
  (forall i, - 2 ^ 31 <= i < 2 ^ 31 ->
     LONG_MIN <= n <= LONG_MAX -> (n - i) mod 2 ^ 32 = 0 ->
     scanned_device argv = Some i) /\
  (LONG_MAX <= n ->
   scanned_device argv = Some (-1) /\
   In (EvOpen (SDL_GetAudioDeviceName P (-1)) true) (events (main P argv sched s))).
Proof.
  intros Hkf Hdf Hjunk Hinit Hnum argv.
  destruct (canonical_record_is_complete prog kflag k dflag (string_of_Z n ++ junk) rest
              Hkf Hdf) as (Hcomplete & Hscan).
  rewrite (strtol_clamps n junk Hjunk) in Hscan. fold argv in Hscan, Hcomplete.
  split; [exact Hscan |]. split.
  - intros i Hi Hn Hmod. rewrite Hscan. f_equal.
    replace (Z.max LONG_MIN (Z.min LONG_MAX n)) with n by lia.
    unfold to_int.
    apply Z.mod_divide in Hmod; [| lia]. destruct Hmod as [q Hq].
    replace (n + 2 ^ 31) with (i + 2 ^ 31 + q * 2 ^ 32) by lia.
    rewrite Z.mod_add by lia. rewrite Z.mod_small by lia. lia.
  - intros Hbig.
    assert (Hdev : to_int (Z.max LONG_MIN (Z.min LONG_MAX n)) = -1).
    { replace (Z.max LONG_MIN (Z.min LONG_MAX n)) with LONG_MAX
        by (unfold LONG_MIN, LONG_MAX in *; lia).
      reflexivity. }
    rewrite Hdev in Hscan. split; [exact Hscan |].
    destruct (main_on_complete_record P prog "record" _ sched s Hinit Hnum eq_refl
                Hcomplete) as (dev & Hscan' & Hrun).
    fold argv in Hscan', Hrun. rewrite Hscan in Hscan'. injection Hscan' as <-.
    rewrite Hrun.
    rewrite events_bind. apply in_or_app; left.
    unfold handle_command. rewrite events_bind. apply in_or_app; left.
    apply (handle_record_opens P (mkArgCmdRecord (scanned_key argv) (-1))).
    cbn. unfold MAX_RECORDING_DEVICES. lia.
Qed.

(** X15, for the indices 4294967297 and 9223372036854775807. *)
Lemma oversized_index_wraps_witness :
  scanned_device (record_argv "4294967297") = Some 1 /\
  scanned_device (record_argv "9223372036854775807") = Some (-1).
Proof.
  assert (Hsmall : string_of_Z 4294967297 ++ "" = "4294967297")
    by (vm_compute; reflexivity).
  assert (Hlarge : string_of_Z 9223372036854775807 ++ "" = "9223372036854775807")
    by (vm_compute; reflexivity).
  split.
  - pose proof (oversized_index_wraps slow_mics "voicememo" "-k" "AB" "-d" ""
                  4294967297 [] silence initial_state) as Hwrap.
    cbv zeta in Hwrap. rewrite Hsmall in Hwrap.
    destruct Hwrap as (_ & Hwrap & _).
    + left; reflexivity.
    + left; reflexivity.
    + reflexivity.
    + vm_compute. congruence.
    + vm_compute. congruence.
    + apply (Hwrap 1).
      * vm_compute. split; congruence.
      * vm_compute. split; congruence.
      * vm_compute. reflexivity.
  - pose proof (oversized_index_wraps slow_mics "voicememo" "-k" "AB" "-d" ""
                  9223372036854775807 [] silence initial_state) as Hwrap.
    cbv zeta in Hwrap. rewrite Hlarge in Hwrap.
    destruct Hwrap as (_ & _ & Hbig).
    + left; reflexivity.
    + left; reflexivity.
    + reflexivity.
    + vm_compute. congruence.
    + vm_compute. congruence.
    + destruct Hbig as (Hdev & _); [vm_compute; congruence | exact Hdev].
Defined.
